(** * Surfpool crash reproduction: the step runner, the transaction builders
      and the pool-discovery retry loop, embedded and verified.

    The development follows the TypeScript sources:
    - [runTransaction.ts] (the Step Runner CLI),
    - [tx_02_raydium_swap.ts], [tx_05_raydium_swap.ts] and the Meteora swap
      builder (the Step Modules),
    - the discovery script (Meteora retry loop),
    together with the replay driver of the specification. *)

From Stdlib Require Import ZArith List String Ascii Bool Lia Arith.
From Stdlib Require Import DecimalString.
Import ListNotations.
Local Open Scope string_scope.
#[local] Set Warnings "-register-all".


(* ===================================================================== *)
(** * Part I.  JavaScript values, as far as the runner inspects them      *)
(* ===================================================================== *)

Module Js.

(** A thrown value, a module export or a JSON field is an untyped JavaScript
    value ([error: any] in the source).  Objects keep their own properties in
    insertion order, which is the order [JSON.stringify] writes them in.
    [ErrorObj proto] marks the objects for which [instanceof Error] holds;
    [proto] is the [name] found on their prototype ([Error], [TypeError],
    [AggregateError], ...). *)
Inductive ObjKind :=
| Plain
| ErrorObj (proto : string).

Inductive Val :=
| Undefined
| Null
| Boolean (b : bool)
| Num (n : Z)
| Str (s : string)
| Arr (xs : list Val)
| Obj (k : ObjKind) (props : list (string * Val)).

(** Computations that may throw. *)
Inductive Result (A : Type) :=
| Ok (a : A)
| Throw (e : Val).
Arguments Ok {A} a.
Arguments Throw {A} e.

Definition bind {A B} (r : Result A) (f : A -> Result B) : Result B :=
  match r with
  | Ok a => f a
  | Throw e => Throw e
  end.

Declare Scope js_scope.
Notation "x <- e ;; k" := (bind e (fun x => k))
  (at level 61, e at next level, right associativity) : js_scope.

Definition nl : string := String (ascii_of_nat 10) EmptyString.

(** [ToBoolean]. *)
Definition truthy (v : Val) : bool :=
  match v with
  | Undefined | Null => false
  | Boolean b => b
  | Num n => negb (n =? 0)%Z
  | Str s => negb (s =? "")
  | Arr _ | Obj _ _ => true
  end.

Definition nullish (v : Val) : bool :=
  match v with
  | Undefined | Null => true
  | _ => false
  end.

Fixpoint assoc (props : list (string * Val)) (key : string) : option Val :=
  match props with
  | [] => None
  | (k, v) :: rest => if k =? key then Some v else assoc rest key
  end.

(** Property read [v.key] on a value that is neither [null] nor [undefined].
    An Error instance inherits [name] and [message = ""] from its
    prototype when it has no own property of that name; primitives and arrays
    have none of the properties the runner reads. *)
Definition get (v : Val) (key : string) : Val :=
  match v with
  | Obj k props =>
      match assoc props key with
      | Some x => x
      | None =>
          match k with
          | ErrorObj proto =>
              if key =? "name" then Str proto
              else if key =? "message" then Str ""
              else Undefined
          | Plain => Undefined
          end
      end
  | _ => Undefined
  end.

(** Optional chaining [v?.key]. *)
Definition get_opt (v : Val) (key : string) : Val :=
  if nullish v then Undefined else get v key.

(** [a || b]. *)
Definition or_else (a b : Val) : Val := if truthy a then a else b.

Definition isArray (v : Val) : bool :=
  match v with Arr _ => true | _ => false end.

Definition instanceofError (v : Val) : bool :=
  match v with Obj (ErrorObj _) _ => true | _ => false end.

Definition isString (v : Val) : bool :=
  match v with Str _ => true | _ => false end.

(** Strict equality with a string literal. *)
Definition is_str (v : Val) (lit : string) : bool :=
  match v with Str s => s =? lit | _ => false end.

Definition string_of_Z (n : Z) : string := NilZero.string_of_int (Z.to_int n).

Fixpoint join (sep : string) (parts : list string) : string :=
  match parts with
  | [] => ""
  | [p] => p
  | p :: rest => p ++ sep ++ join sep rest
  end.

(** [Error.prototype.toString], from the already converted [name] and
    [message] ([None] when the property reads [undefined]). *)
Definition error_toString (name message : option string) : string :=
  let n := match name with Some s => s | None => "Error" end in
  let m := match message with Some s => s | None => "" end in
  if n =? "" then m
  else if m =? "" then n
  else n ++ ": " ++ m.

Definition lookup_converted (key : string) (dflt : string)
    (conv : list (string * option string)) : option string :=
  let fix find (l : list (string * option string)) : option (option string) :=
    match l with
    | [] => None
    | (k', s) :: rest => if k' =? key then Some s else find rest
    end in
  match find conv with
  | Some s => s
  | None => Some dflt
  end.

(** [String(v)], i.e. the abstract operation [ToString].  Arrays join their
    elements with a comma, printing [null] and [undefined] as nothing. *)
Fixpoint to_string (v : Val) : string :=
  match v with
  | Undefined => "undefined"
  | Null => "null"
  | Boolean true => "true"
  | Boolean false => "false"
  | Num n => string_of_Z n
  | Str s => s
  | Arr xs =>
      let fix elems (l : list Val) : list string :=
        match l with
        | [] => []
        | x :: rest => (if nullish x then "" else to_string x) :: elems rest
        end in
      join "," (elems xs)
  | Obj Plain _ => "[object Object]"
  | Obj (ErrorObj proto) props =>
      let fix conv (l : list (string * Val)) : list (string * option string) :=
        match l with
        | [] => []
        | (k, x) :: rest =>
            (k, match x with Undefined => None | _ => Some (to_string x) end)
              :: conv rest
        end in
      error_toString (lookup_converted "name" proto (conv props))
                     (lookup_converted "message" "" (conv props))
  end.

(** [Array.prototype.join]. *)
Definition array_join (sep : string) (xs : list Val) : string :=
  join sep (map (fun x => if nullish x then "" else to_string x) xs).

(** [new Error(message)]; the engine attaches the stack trace text. *)
Definition new_Error (stack : string -> string) (message : string) : Val :=
  Obj (ErrorObj "Error")
      [("message", Str message); ("stack", Str (stack message))].

(** The [TypeError] the engine raises when a non-function is called. *)
Definition not_a_function (stack : string -> string) (callee : string) : Val :=
  let message := callee ++ " is not a function" in
  Obj (ErrorObj "TypeError")
      [("message", Str message); ("stack", Str (stack message))].

(** ** JSON documents, the result of [JSON.stringify] *)

Inductive Json :=
| JNull
| JBool (b : bool)
| JNum (n : Z)
| JStr (s : string)
| JArr (xs : list Json)
| JObj (fields : list (string * Json)).

(** The own properties [message] and [stack] of an Error instance are not
    enumerable, so [JSON.stringify] skips them. *)
Definition enumerable (k : ObjKind) (key : string) : bool :=
  match k with
  | Plain => true
  | ErrorObj _ => negb ((key =? "message") || (key =? "stack"))
  end.

(** [JSON.stringify] on a value: [None] stands for [undefined], which drops
    the field of an object and prints as [null] inside an array. *)
Fixpoint to_json (v : Val) : option Json :=
  match v with
  | Undefined => None
  | Null => Some JNull
  | Boolean b => Some (JBool b)
  | Num n => Some (JNum n)
  | Str s => Some (JStr s)
  | Arr xs =>
      let fix elems (l : list Val) : list Json :=
        match l with
        | [] => []
        | x :: rest =>
            match to_json x with Some j => j | None => JNull end :: elems rest
        end in
      Some (JArr (elems xs))
  | Obj k props =>
      let fix fields (l : list (string * Val)) : list (string * Json) :=
        match l with
        | [] => []
        | (key, x) :: rest =>
            match (if enumerable k key then to_json x else None) with
            | Some j => (key, j) :: fields rest
            | None => fields rest
            end
        end in
      Some (JObj (fields props))
  end.

Fixpoint field (fs : list (string * Json)) (key : string) : option Json :=
  match fs with
  | [] => None
  | (k, j) :: rest => if k =? key then Some j else field rest key
  end.

End Js.

(* ===================================================================== *)
(** * Part II.  The Step Runner CLI ([runTransaction])                    *)
(* ===================================================================== *)

Module Runner.
Import Js.

(** ** [parseInt(s, 10)] *)

Definition is_space (c : ascii) : bool :=
  let n := nat_of_ascii c in
  (n =? 32)%nat || ((9 <=? n)%nat && (n <=? 13)%nat).

Fixpoint skip_spaces (s : string) : string :=
  match s with
  | String c rest => if is_space c then skip_spaces rest else s
  | EmptyString => s
  end.

Definition digit_of (c : ascii) : option Z :=
  let n := nat_of_ascii c in
  if (48 <=? n)%nat && (n <=? 57)%nat then Some (Z.of_nat (n - 48)) else None.

(** Value of the longest prefix of decimal digits, [None] when it is empty. *)
Fixpoint digits (s : string) (acc : option Z) : option Z :=
  match s with
  | String c rest =>
      match digit_of c with
      | Some d =>
          digits rest (Some (10 * match acc with Some a => a | None => 0 end + d)%Z)
      | None => acc
      end
  | EmptyString => acc
  end.

(** The number read by [parseInt(s, 10)]; [None] is [NaN].  Leading white
    space is skipped (the ASCII white space characters are modelled), then
    an optional sign and the longest run of decimal digits are read. *)
Definition parseInt (s : string) : option Z :=
  let trimmed := skip_spaces s in
  let '(negative, body) :=
    match trimmed with
    | String "-"%char rest => (true, rest)
    | String "+"%char rest => (false, rest)
    | _ => (false, trimmed)
    end in
  match digits body None with
  | Some n => Some (if negative then (- n)%Z else n)
  | None => None
  end.

(** ** The world around the runner *)

(** What the promise returned by [executeSkill(latestBlockhash)] does.
    Instants are counted in milliseconds from the moment the race starts,
    which is also the moment the timer is armed. *)
Inductive Settlement :=
| Resolves (t : Z) (v : Val)
| Rejects (t : Z) (e : Val)
| ThrowsNow (e : Val)
| Pending.

(** The [executeSkill] export of the imported module. *)
Inductive Export :=
| NotAFunction
| Function (f : string -> Settlement).

Record Module_ := { executeSkill : Export }.

(** The host: path resolution, the module loader, the timer and the stack
    trace the engine records in a new Error.  [timer_fires delay] is the
    instant at which a timer armed with [setTimeout(_, delay)] runs its
    callback. *)
Record Host := {
  path_resolve : string -> string;
  import : string -> Result Module_;
  timer_fires : option Z -> Z;
  stack : string -> string
}.

(** ** What the process shows to its caller *)

Inductive Line :=
| JsonLine (j : Json)
| TextLine (s : string)
| Inspected (v : Val).

(** The process ends with an exit code, or with the engine reporting an
    exception that nothing caught. *)
Inductive Exit :=
| ExitCode (code : Z)
| Uncaught (e : Val).

Record Outcome := {
  stdout : list Line;
  stderr : list Line;
  exit : Exit;
  settled_at : Z;
  exit_at : Z
}.

(** [console.log(JSON.stringify(v))]. *)
Definition log_json (v : Val) : Line :=
  match to_json v with
  | Some j => JsonLine j
  | None => TextLine "undefined"
  end.

Definition usage : string :=
  "Usage: bun runTransaction.ts <file> <timeoutMs> <latestBlockhash>".

Definition timeout_message : string := "Transaction execution timed out.".

Definition missing_export_message : string :=
  "executeSkill function not found in the provided module.".

(** [!arg] for a positional argument: absent or the empty string. *)
Definition absent (arg : option string) : bool :=
  match arg with
  | None => true
  | Some s => s =? ""
  end.

(** The string held by a positional argument that is present. *)
Definition text (arg : option string) : string :=
  match arg with
  | Some s => s
  | None => ""
  end.

Section WithHost.
Variable host : Host.

(** [Promise.race([executeSkill(latestBlockhash), timer])]: the instant at
    which the race settles, and how.  [executeSkill] is called before the
    timer is armed, so a promise that settles at the very instant the timer
    fires is ahead of the timer and wins the race. *)
Definition race (skill : Settlement) (timeoutMs : option Z)
    : Z * Result Val :=
  let fire := timer_fires host timeoutMs in
  let timed_out := Throw (new_Error (stack host) timeout_message) in
  match skill with
  | Resolves t v => if (t <=? fire)%Z then (t, Ok v) else (fire, timed_out)
  | Rejects t e => if (t <=? fire)%Z then (t, Throw e) else (fire, timed_out)
  | ThrowsNow e => (0%Z, Throw e)
  | Pending => (fire, timed_out)
  end.

(** The body of the [try] block: import, export check and race. *)
Definition try_block (absolutePath : string) (timeoutMs : option Z)
    (latestBlockhash : string) : Z * Result Val :=
  match import host absolutePath with
  | Throw e => (0%Z, Throw e)
  | Ok txModule =>
      match executeSkill txModule with
      | NotAFunction =>
          (0%Z, Throw (new_Error (stack host) missing_export_message))
      | Function f => race (f latestBlockhash) timeoutMs
      end
  end.

(** [errorMessage] and [errorDetails] as the [catch] block computes them. *)
Definition describe (error : Val) : Val * list Val :=
  if is_str (get_opt error "name") "AggregateError"
     && isArray (get error "errors")
  then
    (or_else (get error "message") (Str "Multiple errors occurred"),
     match get error "errors" with
     | Arr errs =>
         map (fun err =>
                if truthy (get_opt err "message") then get err "message"
                else Str (to_string err)) errs
     | _ => []
     end)
  else if instanceofError error then
    (get error "message",
     [if truthy (get error "stack") then get error "stack"
      else Str (to_string error)])
  else if isString error then (error, [error])
  else (Str "An unknown error occurred.", [Str (to_string error)]).

(** The callback of [error?.errors?.map(...)]. *)
Definition sub_error (e : Val) : Val :=
  Obj Plain
    [("message", or_else (get_opt e "message") (Str (to_string e)));
     ("line", get_opt e "line");
     ("column", get_opt e "column");
     ("file", get_opt e "file")].

(** [error?.errors?.map(...)]: [undefined] when [error] or [error.errors] is
    [null] or [undefined], the mapped array when [error.errors] is an array;
    any other [error.errors] has no [map] method and the call throws. *)
Definition map_errors (error : Val) : Result Val :=
  if nullish error then Ok Undefined
  else
    match get error "errors" with
    | Undefined | Null => Ok Undefined
    | Arr es => Ok (Arr (map sub_error es))
    | _ => Throw (not_a_function (stack host) "error?.errors?.map")
    end.

(** [error?.errors] is [undefined], [null] or an array. *)
Definition errors_listable (error : Val) : bool :=
  match get_opt error "errors" with
  | Undefined | Null | Arr _ => true
  | _ => false
  end.

(** The object literal of the failure response. *)
Definition failure_response (error : Val) : Result Val :=
  let '(errorMessage, errorDetails) := describe error in
  bind (map_errors error) (fun errors =>
  Ok (Obj Plain
        [("success", Boolean false);
         ("error", errorMessage);
         ("details", Str (array_join nl errorDetails));
         ("type", or_else (get_opt error "name") (Str "UnknownError"));
         ("errors", errors)])).

(** The [catch] block, entered at instant [t]. *)
Definition catch_block (t : Z) (error : Val) : Outcome :=
  match failure_response error with
  | Ok response =>
      {| stdout := [log_json response];
         stderr := [Inspected error];
         exit := ExitCode 1;
         settled_at := t;
         exit_at := t |}
  | Throw e =>
      {| stdout := [];
         stderr := [Inspected error];
         exit := Uncaught e;
         settled_at := t;
         exit_at := t |}
  end.

(** [runTransaction()] on [process.argv].  After the success line the
    process stays alive until the timer, which is never cleared, has fired. *)
Definition runTransaction (argv : list string) : Outcome :=
  let filePath := nth_error argv 2 in
  let timeoutMsStr := nth_error argv 3 in
  let latestBlockhash := nth_error argv 4 in
  if absent filePath || absent timeoutMsStr || absent latestBlockhash then
    {| stdout := [];
       stderr := [TextLine usage];
       exit := ExitCode 1;
       settled_at := 0;
       exit_at := 0 |}
  else
    let timeoutMs := parseInt (text timeoutMsStr) in
    let absolutePath := path_resolve host (text filePath) in
    match try_block absolutePath timeoutMs (text latestBlockhash) with
    | (t, Ok serialized_tx) =>
        {| stdout :=
             [log_json (Obj Plain [("success", Boolean true);
                                   ("serialized_tx", serialized_tx)])];
           stderr := [];
           exit := ExitCode 0;
           settled_at := t;
           exit_at := Z.max t (timer_fires host timeoutMs) |}
    | (t, Throw error) => catch_block t error
    end.

End WithHost.

(** Timers as Node and Bun run them: a delay that is [NaN], below 1 or above
    [2^31 - 1] is replaced by 1 millisecond. *)
Definition node_timer (delay : option Z) : Z :=
  match delay with
  | Some d => if ((d <? 1) || (2147483647 <? d))%Z then 1%Z else d
  | None => 1%Z
  end.

End Runner.

(* ===================================================================== *)
(** * Part III.  Keys, instructions and transactions                      *)
(* ===================================================================== *)

Module Solana.
Import Js.

(** ** Base58 and public keys *)

Definition base58_alphabet : string :=
  "123456789ABCDEFGHJKLMNPQRSTUVWXYZabcdefghijkmnopqrstuvwxyz".

Fixpoint index_in (alphabet : string) (c : ascii) : option Z :=
  match alphabet with
  | EmptyString => None
  | String a rest =>
      if Ascii.eqb a c then Some 0%Z
      else option_map Z.succ (index_in rest c)
  end.

(** The number written by a string of base58 digits, most significant
    first; [None] when a character is outside the alphabet. *)
Fixpoint base58_value (s : string) (acc : Z) : option Z :=
  match s with
  | EmptyString => Some acc
  | String c rest =>
      match index_in base58_alphabet c with
      | Some d => base58_value rest (58 * acc + d)%Z
      | None => None
      end
  end.

(** Leading ['1'] characters, each of which decodes to one zero byte. *)
Fixpoint leading_ones (s : string) : nat :=
  match s with
  | String "1"%char rest => S (leading_ones rest)
  | _ => 0
  end.

(** Number of bytes of the shortest big-endian writing of [n]. *)
Definition byte_length (n : Z) : nat :=
  if (n <=? 0)%Z then 0 else S (Z.to_nat (Z.log2 n / 8)).

(** Length of [bs58.decode(s)], [None] when the decoder throws. *)
Definition base58_decoded_length (s : string) : option nat :=
  match base58_value s 0 with
  | Some n => Some (leading_ones s + byte_length n)
  | None => None
  end.

Definition PUBLIC_KEY_LENGTH : nat := 32.

Definition valid_key (s : string) : bool :=
  match base58_decoded_length s with
  | Some len => (len =? PUBLIC_KEY_LENGTH)%nat
  | None => false
  end.

(** A public key is kept as its base58 text, which determines its 32 bytes
    and is determined by them. *)
Record PublicKey := { toBase58 : string }.

Definition equals (a b : PublicKey) : bool := toBase58 a =? toBase58 b.

Record AccountMeta := {
  pubkey : PublicKey;
  isSigner : bool;
  isWritable : bool
}.

(** The instructions the builders put in a transaction.  Those made by the
    helpers of the web3 and token libraries are kept as the call that made
    them; [Custom] is [new TransactionInstruction({programId, keys, data})]. *)
Inductive Instruction :=
| SetComputeUnitLimit (units : Z)
| SetComputeUnitPrice (microLamports : Z)
| CreateAssociatedTokenAccountIdempotent
    (payer associatedToken owner mint programId : PublicKey)
| Transfer (fromPubkey toPubkey : PublicKey) (lamports : Z)
| SyncNative (account : PublicKey) (programId : option PublicKey)
| CloseAccount (account destination authority : PublicKey)
| Custom (programId : PublicKey) (keys : list AccountMeta) (data : list Z).

Record Transaction := {
  recentBlockhash : string;
  feePayer : PublicKey;
  instructions : list Instruction
}.

(** [new Transaction({ recentBlockhash, feePayer })]. *)
Definition new_Transaction (blockhash : string) (payer : PublicKey)
    : Transaction :=
  {| recentBlockhash := blockhash; feePayer := payer; instructions := [] |}.

(** [tx.add(ix)]. *)
Definition add (tx : Transaction) (ix : Instruction) : Transaction :=
  {| recentBlockhash := recentBlockhash tx;
     feePayer := feePayer tx;
     instructions := instructions tx ++ [ix] |}.

Record SerializeConfig := {
  requireAllSignatures : bool;
  verifySignatures : bool
}.

(** ** Base64, as [Buffer.prototype.toString('base64')] writes it *)

Definition base64_alphabet : string :=
  "ABCDEFGHIJKLMNOPQRSTUVWXYZabcdefghijklmnopqrstuvwxyz0123456789+/".

Fixpoint nth_char (alphabet : string) (n : nat) : ascii :=
  match alphabet, n with
  | String c _, O => c
  | String _ rest, S m => nth_char rest m
  | EmptyString, _ => "="%char
  end.

Definition sextet (n : Z) : string :=
  String (nth_char base64_alphabet (Z.to_nat (Z.land n 63))) EmptyString.

Fixpoint base64 (bytes : list Z) : string :=
  match bytes with
  | [] => ""
  | [a] =>
      sextet (Z.shiftr a 2)
      ++ sextet (Z.shiftl (Z.land a 3) 4)
      ++ "=="
  | [a; b] =>
      sextet (Z.shiftr a 2)
      ++ sextet (Z.lor (Z.shiftl (Z.land a 3) 4) (Z.shiftr b 4))
      ++ sextet (Z.shiftl (Z.land b 15) 2)
      ++ "="
  | a :: b :: c :: rest =>
      sextet (Z.shiftr a 2)
      ++ sextet (Z.lor (Z.shiftl (Z.land a 3) 4) (Z.shiftr b 4))
      ++ sextet (Z.lor (Z.shiftl (Z.land b 15) 2) (Z.shiftr c 6))
      ++ sextet c
      ++ base64 rest
  end.

(** ** What the libraries and the node provide *)

(** The argument of [getSwapBaseInputInstruction]. *)
Record SwapBaseInputInput := {
  payer : PublicKey;
  authority : PublicKey;
  ammConfig : PublicKey;
  poolState : PublicKey;
  inputTokenAccount : PublicKey;
  outputTokenAccount : PublicKey;
  inputVault : PublicKey;
  outputVault : PublicKey;
  inputTokenProgram : PublicKey;
  outputTokenProgram : PublicKey;
  inputTokenMint : PublicKey;
  outputTokenMint : PublicKey;
  observationState : PublicKey;
  amountIn : Z;
  minimumAmountOut : Z
}.

(** One entry of the account list the instruction builder answers:
    the fields the swap builders read from it. *)
Record RawMeta := {
  raw_pubkey : option string;
  raw_isSigner : Val;
  raw_isWritable : Val
}.

(** The instruction the SDK answers.  An entry of [accounts] may be [null]
    or [undefined], which is [None]. *)
Record RawInstruction := {
  programAddress : option string;
  accounts : list (option RawMeta);
  data : list Z
}.

Record Library := {
  stack : string -> string;
  getAssociatedTokenAddressSync :
    PublicKey -> PublicKey -> option PublicKey -> Result PublicKey;
  getSwapBaseInputInstruction : SwapBaseInputInput -> Result RawInstruction;
  serialize : SerializeConfig -> Transaction -> Result (list Z)
}.

(** [new PublicKey(value)] on base58 text: the decoder rejects a character
    outside the alphabet, the constructor any length other than 32. *)
Definition new_PublicKey (stack : string -> string) (value : string)
    : Result PublicKey :=
  match base58_decoded_length value with
  | None => Throw (new_Error stack "Non-base58 character")
  | Some len =>
      if (len =? PUBLIC_KEY_LENGTH)%nat then Ok {| toBase58 := value |}
      else Throw (new_Error stack "Invalid public key input")
  end.

Definition NATIVE_MINT : PublicKey :=
  {| toBase58 := "So11111111111111111111111111111111111111112" |}.

Definition USDC_MINT : string := "EPjFWdd5AufqSSqeM2qN1xzybapC8G4wEGGkZwyTDt1v".

Definition DEFAULT_PAYER : string :=
  "HykotrnSrgYNACXfbNiS64zPzZGbyU94bxx9SWM1jMVR".

(** [`${index}`]. *)
Definition string_of_nat (n : nat) : string := string_of_Z (Z.of_nat n).

(** The instructions of a transaction that were made with
    [new TransactionInstruction]. *)
Definition is_custom (ix : Instruction) : bool :=
  match ix with
  | Custom _ _ _ => true
  | _ => false
  end.

Definition custom_instructions (tx : Transaction) : list Instruction :=
  filter is_custom (instructions tx).

End Solana.

(** The variables of [dex_env], discovered beforehand and read by the
    builders as base58 text. *)
Module DexEnv.

Record Raydium := {
  ammConfig : string;
  poolState : string;
  token0Mint : string;
  token1Mint : string;
  token0Vault : string;
  token1Vault : string;
  token0Program : string;
  token1Program : string;
  observationKey : string;
  authority : string
}.

(** [binArrays] is [None] when the variable is no array. *)
Record Meteora := {
  programId : string;
  lbPair : string;
  memoProgram : string;
  binArrays : option (list string)
}.

End DexEnv.

(** What the builders share: the agent, the direction of a Raydium swap,
    the reading of one entry of the SDK's account list, serialization. *)
Module Common.
Import Js Solana.
Local Open Scope js_scope.

(** [!meta?.pubkey]. *)
Definition lacks_pubkey (meta : option RawMeta) : bool :=
  match meta with
  | Some m =>
      match raw_pubkey m with
      | Some s => s =? ""
      | None => true
      end
  | None => true
  end.

(** [meta.pubkey] of an entry that has one. *)
Definition key_text (meta : option RawMeta) : string :=
  match meta with
  | Some m =>
      match raw_pubkey m with
      | Some s => s
      | None => ""
      end
  | None => ""
  end.

(** [Boolean(meta.isSigner)], [Boolean(meta.isWritable)]. *)
Definition flag (f : RawMeta -> Val) (meta : option RawMeta) : bool :=
  match meta with
  | Some m => truthy (f m)
  | None => false
  end.

(** The account meta made from an entry that has a pubkey: the agent is
    always a writable signer, the others keep the flags of the SDK. *)
Definition as_account_meta (lib : Library) (agentPubkey : PublicKey)
    (meta : option RawMeta) : Result AccountMeta :=
  pubkey <- new_PublicKey (stack lib) (key_text meta) ;;
  let isAgent := equals pubkey agentPubkey in
  Ok {| pubkey := pubkey;
        isSigner := if isAgent then true else flag raw_isSigner meta;
        isWritable := if isAgent then true else flag raw_isWritable meta |}.

(** The meta [as_account_meta] makes, once the key of the entry is known to
    be well formed. *)
Definition normalized (agentPubkey : PublicKey) (meta : option RawMeta)
    : AccountMeta :=
  let pubkey := {| toBase58 := key_text meta |} in
  let isAgent := equals pubkey agentPubkey in
  {| pubkey := pubkey;
     isSigner := if isAgent then true else flag raw_isSigner meta;
     isWritable := if isAgent then true else flag raw_isWritable meta |}.

(** The agent as a writable signer. *)
Definition agent_meta (agentPubkey : PublicKey) : AccountMeta :=
  {| pubkey := agentPubkey; isSigner := true; isWritable := true |}.

(** [array.map((element, index) => ...)] with a callback that may throw:
    elements are visited in order and the first exception ends the visit. *)
Fixpoint map_indexed {A B} (f : A -> nat -> Result B) (l : list A)
    (index : nat) : Result (list B) :=
  match l with
  | [] => Ok []
  | x :: rest =>
      y <- f x index ;;
      ys <- map_indexed f rest (S index) ;;
      Ok (y :: ys)
  end.

(** The direction of a swap, derived from the pool's mints. *)
Record Direction := {
  inputVault : PublicKey;
  outputVault : PublicKey;
  inputTokenProgram : PublicKey;
  outputTokenProgram : PublicKey;
  inputTokenMint : PublicKey;
  outputTokenMint : PublicKey
}.

Definition direction (lib : Library) (RAYDIUM : DexEnv.Raydium)
    (INPUT_MINT : PublicKey) : Result Direction :=
  let inputIsToken0 := DexEnv.token0Mint RAYDIUM =? toBase58 INPUT_MINT in
  let pick (a b : DexEnv.Raydium -> string) :=
    if inputIsToken0 then a RAYDIUM else b RAYDIUM in
  inputVault <- new_PublicKey (stack lib) (pick DexEnv.token0Vault DexEnv.token1Vault) ;;
  outputVault <- new_PublicKey (stack lib) (pick DexEnv.token1Vault DexEnv.token0Vault) ;;
  inputTokenProgram <-
    new_PublicKey (stack lib) (pick DexEnv.token0Program DexEnv.token1Program) ;;
  outputTokenProgram <-
    new_PublicKey (stack lib) (pick DexEnv.token1Program DexEnv.token0Program) ;;
  inputTokenMint <- new_PublicKey (stack lib) (pick DexEnv.token0Mint DexEnv.token1Mint) ;;
  outputTokenMint <- new_PublicKey (stack lib) (pick DexEnv.token1Mint DexEnv.token0Mint) ;;
  Ok {| inputVault := inputVault;
        outputVault := outputVault;
        inputTokenProgram := inputTokenProgram;
        outputTokenProgram := outputTokenProgram;
        inputTokenMint := inputTokenMint;
        outputTokenMint := outputTokenMint |}.

(** [new PublicKey(process.env.PAYER_PUBKEY ?? '...')]. *)
Definition agent (lib : Library) (PAYER_PUBKEY : option string)
    : Result PublicKey :=
  new_PublicKey (stack lib)
    match PAYER_PUBKEY with
    | Some s => s
    | None => DEFAULT_PAYER
    end.

(** The call of [getSwapBaseInputInstruction], its arguments evaluated in
    the order of the object literal. *)
Definition swap_instruction (lib : Library) (RAYDIUM : DexEnv.Raydium)
    (agentPubkey inAta outAta : PublicKey) (d : Direction) (amount : Z)
    : Result RawInstruction :=
  authority <- new_PublicKey (stack lib) (DexEnv.authority RAYDIUM) ;;
  ammConfig <- new_PublicKey (stack lib) (DexEnv.ammConfig RAYDIUM) ;;
  poolState <- new_PublicKey (stack lib) (DexEnv.poolState RAYDIUM) ;;
  observationState <- new_PublicKey (stack lib) (DexEnv.observationKey RAYDIUM) ;;
  getSwapBaseInputInstruction lib
    {| payer := agentPubkey;
       Solana.authority := authority;
       Solana.ammConfig := ammConfig;
       Solana.poolState := poolState;
       inputTokenAccount := inAta;
       outputTokenAccount := outAta;
       Solana.inputVault := inputVault d;
       Solana.outputVault := outputVault d;
       Solana.inputTokenProgram := inputTokenProgram d;
       Solana.outputTokenProgram := outputTokenProgram d;
       Solana.inputTokenMint := inputTokenMint d;
       Solana.outputTokenMint := outputTokenMint d;
       observationState := observationState;
       amountIn := amount;
       minimumAmountOut := 0 |}.

(** What a Raydium builder holds once the SDK has answered. *)
Record Prepared := {
  agentPubkey : PublicKey;
  inAta : PublicKey;
  outAta : PublicKey;
  mints : Direction;
  tx : Transaction;
  rawSwapIx : RawInstruction
}.

Definition no_signature_checks : SerializeConfig :=
  {| requireAllSignatures := false; verifySignatures := false |}.

(** [tx.serialize({...}).toString('base64')]. *)
Definition serialized (lib : Library) (tx : Transaction) : Result string :=
  bytes <- serialize lib no_signature_checks tx ;;
  Ok (base64 bytes).

Definition empty_program_address : string :=
  "Raydium swap builder returned empty programAddress".

(** [!rawSwapIx.programAddress]. *)
Definition lacks_program_address (raw : RawInstruction) : bool :=
  match programAddress raw with
  | Some s => s =? ""
  | None => true
  end.

Definition program_address_text (raw : RawInstruction) : string :=
  match programAddress raw with
  | Some s => s
  | None => ""
  end.

End Common.

(* ===================================================================== *)
(** * Part IV.  The Step Modules                                          *)
(* ===================================================================== *)

(** ** Step 2: [tx_02_raydium_swap.ts], USDC to wSOL *)

Module Tx02.
Import Js Solana Common.
Local Open Scope js_scope.

Definition AMOUNT : Z := 5000000.

Definition missing_account (index : nat) : string :=
  "Raydium swap requires account index " ++ string_of_nat index
  ++ ", but builder returned none".

Section WithLibrary.
Variable lib : Library.
Variable PAYER_PUBKEY : option string.
Variable RAYDIUM : DexEnv.Raydium.

(** Everything up to the answer of the SDK. *)
Definition prepare (blockhash : string) : Result Prepared :=
  agentPubkey <- agent lib PAYER_PUBKEY ;;
  INPUT_MINT <- new_PublicKey (stack lib) USDC_MINT ;;
  d <- direction lib RAYDIUM INPUT_MINT ;;
  inAta <- getAssociatedTokenAddressSync lib (inputTokenMint d) agentPubkey None ;;
  outAta <- getAssociatedTokenAddressSync lib (outputTokenMint d) agentPubkey None ;;
  let tx := new_Transaction blockhash agentPubkey in
  let tx := add tx (SetComputeUnitLimit 500000) in
  let tx := add tx (SetComputeUnitPrice 200000) in
  let tx :=
    add tx (CreateAssociatedTokenAccountIdempotent
              agentPubkey inAta agentPubkey
              (inputTokenMint d) (inputTokenProgram d)) in
  let tx :=
    add tx (CreateAssociatedTokenAccountIdempotent
              agentPubkey outAta agentPubkey
              (outputTokenMint d) (outputTokenProgram d)) in
  let tx :=
    if equals (outputTokenMint d) NATIVE_MINT
    then add (add tx (Transfer agentPubkey outAta 1)) (SyncNative outAta None)
    else tx in
  rawSwapIx <- swap_instruction lib RAYDIUM agentPubkey inAta outAta d AMOUNT ;;
  Ok {| agentPubkey := agentPubkey;
        inAta := inAta;
        outAta := outAta;
        mints := d;
        tx := tx;
        rawSwapIx := rawSwapIx |}.

(** The callback of [rawSwapIx.accounts.map((meta, index) => ...)]. *)
Definition swapKey (agentPubkey : PublicKey) (meta : option RawMeta)
    (index : nat) : Result AccountMeta :=
  if lacks_pubkey meta then
    if (index =? 0)%nat then Ok (agent_meta agentPubkey)
    else Throw (new_Error (stack lib) (missing_account index))
  else as_account_meta lib agentPubkey meta.

Definition swapKeys (agentPubkey : PublicKey)
    (accounts : list (option RawMeta)) : Result (list AccountMeta) :=
  map_indexed (swapKey agentPubkey) accounts 0.

(** From the answer of the SDK to the finished transaction. *)
Definition complete (p : Prepared) : Result Transaction :=
  if lacks_program_address (rawSwapIx p) then
    Throw (new_Error (stack lib) empty_program_address)
  else
    swapKeys <- swapKeys (agentPubkey p) (accounts (rawSwapIx p)) ;;
    programId <- new_PublicKey (stack lib) (program_address_text (rawSwapIx p)) ;;
    let tx := add (tx p) (Custom programId swapKeys (data (rawSwapIx p))) in
    Ok (if equals (outputTokenMint (mints p)) NATIVE_MINT
        then add tx (CloseAccount (outAta p) (agentPubkey p) (agentPubkey p))
        else tx).

Definition executeSkill (blockhash : string) : Result string :=
  p <- prepare blockhash ;;
  tx <- complete p ;;
  serialized lib tx.

End WithLibrary.
End Tx02.

(** ** Step 5: [tx_05_raydium_swap.ts], wSOL to USDC *)

Module Tx05.
Import Js Solana Common.
Local Open Scope js_scope.

Definition AMOUNT : Z := 50000000.

Section WithLibrary.
Variable lib : Library.
Variable PAYER_PUBKEY : option string.
Variable RAYDIUM : DexEnv.Raydium.

(** Everything up to the answer of the SDK. *)
Definition prepare (blockhash : string) : Result Prepared :=
  agentPubkey <- agent lib PAYER_PUBKEY ;;
  let INPUT_MINT := NATIVE_MINT in
  OUTPUT_MINT <- new_PublicKey (stack lib) USDC_MINT ;;
  d <- direction lib RAYDIUM INPUT_MINT ;;
  inAta <- getAssociatedTokenAddressSync lib (inputTokenMint d) agentPubkey None ;;
  outAta <- getAssociatedTokenAddressSync lib (outputTokenMint d) agentPubkey None ;;
  let tx := new_Transaction blockhash agentPubkey in
  let tx := add tx (SetComputeUnitLimit 600000) in
  let tx := add tx (SetComputeUnitPrice 150000) in
  let tx :=
    add tx (CreateAssociatedTokenAccountIdempotent
              agentPubkey inAta agentPubkey
              (inputTokenMint d) (inputTokenProgram d)) in
  let tx :=
    add tx (CreateAssociatedTokenAccountIdempotent
              agentPubkey outAta agentPubkey
              (outputTokenMint d) (outputTokenProgram d)) in
  let tx := add tx (Transfer agentPubkey inAta AMOUNT) in
  let tx := add tx (SyncNative inAta None) in
  rawSwapIx <- swap_instruction lib RAYDIUM agentPubkey inAta outAta d AMOUNT ;;
  Ok {| agentPubkey := agentPubkey;
        inAta := inAta;
        outAta := outAta;
        mints := d;
        tx := tx;
        rawSwapIx := rawSwapIx |}.

(** [rawSwapIx.accounts.filter(meta => meta && meta.pubkey).map(...)]. *)
Definition swapKeys (agentPubkey : PublicKey)
    (accounts : list (option RawMeta)) : Result (list AccountMeta) :=
  map_indexed (fun meta _ => as_account_meta lib agentPubkey meta)
              (filter (fun meta => negb (lacks_pubkey meta)) accounts) 0.

(** From the answer of the SDK to the finished transaction. *)
Definition complete (p : Prepared) : Result Transaction :=
  if lacks_program_address (rawSwapIx p) then
    Throw (new_Error (stack lib) empty_program_address)
  else
    swapKeys <- swapKeys (agentPubkey p) (accounts (rawSwapIx p)) ;;
    programId <- new_PublicKey (stack lib) (program_address_text (rawSwapIx p)) ;;
    let tx := add (tx p) (Custom programId swapKeys (data (rawSwapIx p))) in
    Ok (add tx (CloseAccount (inAta p) (agentPubkey p) (agentPubkey p))).

Definition executeSkill (blockhash : string) : Result string :=
  p <- prepare blockhash ;;
  tx <- complete p ;;
  serialized lib tx.

End WithLibrary.
End Tx05.

(** ** The Meteora step: a DLMM [swap2] built from the pair's account *)

Module TxMeteora.
Import Js Solana Common.
Local Open Scope js_scope.

Record AccountInfo := {
  info_data : list Z;
  owner : PublicKey
}.

(** The fields of the decoded pair account that the builder reads. *)
Record LbPair := {
  tokenXMint : string;
  tokenYMint : string;
  reserveX : string;
  reserveY : string;
  oracle : string
}.

Inductive Seed :=
| SeedText (s : string)
| SeedKey (k : PublicKey).

Inductive AccountsType := TransferHookX | TransferHookY.

Record Swap2Data := {
  amountIn : Z;
  minAmountOut : Z;
  slices : list (AccountsType * Z)
}.

(** The node and the DLMM SDK, as far as the builder calls them. *)
Record Node := {
  getAccountInfo : PublicKey -> Result (option AccountInfo);
  decodeLbPair : list Z -> Result LbPair;
  findProgramAddressSync : list Seed -> PublicKey -> Result PublicKey;
  encodeSwap2 : Swap2Data -> Result (list Z)
}.

Definition plain (k : PublicKey) (writable : bool) : AccountMeta :=
  {| pubkey := k; isSigner := false; isWritable := writable |}.

Section WithLibrary.
Variable lib : Library.
Variable node : Node.
Variable PAYER_PUBKEY : option string.
Variable METEORA : DexEnv.Meteora.

(** [binArrayPubkeys.slice(0, 4).map(pk => ...)]. *)
Definition remaining_accounts : Result (list AccountMeta) :=
  let binArrayPubkeys :=
    match DexEnv.binArrays METEORA with
    | Some l => l
    | None => []
    end in
  map_indexed (fun pk _ => k <- new_PublicKey (stack lib) pk ;; Ok (plain k true))
              (firstn 4 binArrayPubkeys) 0.

Definition buildTransaction (blockhash : string) : Result Transaction :=
  agentPubkey <- agent lib PAYER_PUBKEY ;;
  programId <- new_PublicKey (stack lib) (DexEnv.programId METEORA) ;;
  lbPair <- new_PublicKey (stack lib) (DexEnv.lbPair METEORA) ;;
  lbPairInfo <- getAccountInfo node lbPair ;;
  match lbPairInfo with
  | None => Throw (new_Error (stack lib) "LB pair not found on RPC")
  | Some lbPairInfo =>
  lb <- decodeLbPair node (info_data lbPairInfo) ;;
  tokenXMint <- new_PublicKey (stack lib) (tokenXMint lb) ;;
  tokenYMint <- new_PublicKey (stack lib) (tokenYMint lb) ;;
  reserveX <- new_PublicKey (stack lib) (reserveX lb) ;;
  reserveY <- new_PublicKey (stack lib) (reserveY lb) ;;
  oracle <- new_PublicKey (stack lib) (oracle lb) ;;
  let swapYtoX := equals tokenXMint NATIVE_MINT in
  let inMint := if swapYtoX then tokenYMint else tokenXMint in
  let outMint := if swapYtoX then tokenXMint else tokenYMint in
  let amountIn := 5000000%Z in
  mintXInfo <- getAccountInfo node tokenXMint ;;
  mintYInfo <- getAccountInfo node tokenYMint ;;
  match mintXInfo, mintYInfo with
  | Some mintXInfo, Some mintYInfo =>
  let tokenXProgram := owner mintXInfo in
  let tokenYProgram := owner mintYInfo in
  let inProgramId :=
    if equals inMint tokenXMint then tokenXProgram else tokenYProgram in
  let outProgramId :=
    if equals outMint tokenXMint then tokenXProgram else tokenYProgram in
  inAta <-
    getAssociatedTokenAddressSync lib inMint agentPubkey (Some inProgramId) ;;
  outAta <-
    getAssociatedTokenAddressSync lib outMint agentPubkey (Some outProgramId) ;;
  let tx := new_Transaction blockhash agentPubkey in
  let tx := add tx (SetComputeUnitLimit 800000) in
  let tx := add tx (SetComputeUnitPrice 250000) in
  let tx :=
    add tx (CreateAssociatedTokenAccountIdempotent
              agentPubkey inAta agentPubkey inMint inProgramId) in
  let tx :=
    add tx (CreateAssociatedTokenAccountIdempotent
              agentPubkey outAta agentPubkey outMint outProgramId) in
  let tx :=
    if equals inMint NATIVE_MINT
    then add (add tx (Transfer agentPubkey inAta amountIn))
             (SyncNative inAta (Some inProgramId))
    else tx in
  eventAuthority <-
    findProgramAddressSync node [SeedText "__event_authority"] programId ;;
  bitmapExt <-
    findProgramAddressSync node [SeedText "bitmap"; SeedKey lbPair] programId ;;
  memoProgram <- new_PublicKey (stack lib) (DexEnv.memoProgram METEORA) ;;
  remaining <- remaining_accounts ;;
  data <-
    encodeSwap2 node
      {| amountIn := amountIn;
         minAmountOut := 0;
         slices := [(TransferHookX, 0%Z); (TransferHookY, 0%Z)] |} ;;
  let swapIx :=
    Custom programId
      ([ plain lbPair true;
         plain bitmapExt false;
         plain reserveX true;
         plain reserveY true;
         plain inAta true;
         plain outAta true;
         plain tokenXMint false;
         plain tokenYMint false;
         plain oracle true;
         plain inAta true;
         {| pubkey := agentPubkey; isSigner := true; isWritable := false |};
         plain tokenXProgram false;
         plain tokenYProgram false;
         plain memoProgram false;
         plain eventAuthority false;
         plain programId false ] ++ remaining)
      data in
  let tx := add tx swapIx in
  Ok (if equals inMint NATIVE_MINT
      then add tx (CloseAccount inAta agentPubkey agentPubkey)
      else tx)
  | _, _ => Throw (new_Error (stack lib) "Mint accounts missing")
  end
  end.

Definition executeSkill (blockhash : string) : Result string :=
  tx <- buildTransaction blockhash ;;
  serialized lib tx.

End WithLibrary.
End TxMeteora.

(* ===================================================================== *)
(** * Part V.  Pool discovery: the Meteora retry loop                     *)
(* ===================================================================== *)

Module Discover.
Import Js Solana.
Local Open Scope js_scope.

Definition MAX_RETRIES : nat := 10.
Definition RETRY_DELAY_MS : nat := 1000.

Definition BUILT_IN_CANDIDATE : string :=
  "HTvjzsfX3yU6BUodCjZ5vZkUrAxMDTrBs3CJaq43ashR".

(** [meteoraLbPairCandidates], from the value of [--meteora-lbpair]. *)
Definition meteoraLbPairCandidates (cliMeteora : option string)
    : list string :=
  match cliMeteora with
  | Some c => if c =? "" then [] else [c]
  | None => []
  end ++ [BUILT_IN_CANDIDATE].

(** The pool object of the DLMM SDK, as far as the loop reads it. *)
Record Pool := {
  tokenX : PublicKey;
  tokenY : PublicKey;
  reserveX : PublicKey;
  reserveY : PublicKey;
  oracle : PublicKey;
  program : PublicKey
}.

(** [result.meteora]. *)
Record MeteoraVars := {
  programId : string;
  lbPair : string;
  tokenXMint : string;
  tokenYMint : string;
  reserveXVar : string;
  reserveYVar : string;
  oracleVar : string;
  memoProgram : string;
  binArrays : list string
}.

(** The SDK and the node behind it.  Their answers may change from one call
    to the next, so each call is given the number of attempts made before
    it.  [getBinArrayForSwap] answers, for each entry,
    [entry?.publicKey?.toBase58?.()], which is [None] when [undefined]. *)
Record Dlmm := {
  stack : string -> string;
  create : PublicKey -> nat -> Result Pool;
  getBinArrayForSwap : Pool -> bool -> nat -> Result (list (option string));
  memoProgramId : string
}.

(** What the loop does that can be seen from outside.  [position] is the
    place of the candidate in the list. *)
Inductive Event :=
| Attempt (position : nat) (cand : string) (succeeded : bool)
| Sleep (ms : nat)
| Warn (text : string)
| Log (text : string).

Record State := {
  lbPairFound : option PublicKey;
  lastError : option Val;
  meteora : option MeteoraVars;
  attempts : nat;
  trace : list Event
}.

Definition initial : State :=
  {| lbPairFound := None;
     lastError := None;
     meteora := None;
     attempts := 0;
     trace := [] |}.

Definition found (st : State) : bool :=
  match lbPairFound st with
  | Some _ => true
  | None => false
  end.

(** [Array.from(new Set(xs))]: first occurrences, in order. *)
Fixpoint dedupe (seen xs : list string) : list string :=
  match xs with
  | [] => []
  | x :: rest =>
      if existsb (String.eqb x) seen then dedupe seen rest
      else x :: dedupe (x :: seen) rest
  end.

(** [.filter(x => Boolean(x))] on the printed keys. *)
Fixpoint present (xs : list (option string)) : list string :=
  match xs with
  | [] => []
  | Some s :: rest => if s =? "" then present rest else s :: present rest
  | None :: rest => present rest
  end.

Definition bool_text (b : bool) : string := if b then "true" else "false".

(** [inner instanceof Error ? inner.message : inner], printed. *)
Definition reason (inner : Val) : string :=
  to_string (if instanceofError inner then get inner "message" else inner).

Section WithSdk.
Variable sdk : Dlmm.

(** The body of the [try] block for the candidate [pk], as the attempt
    number [n] of the run. *)
Definition attempt (pk : PublicKey) (n : nat) : Result MeteoraVars :=
  pool <- create sdk pk n ;;
  let swapYtoX :=
    if equals (tokenY pool) NATIVE_MINT then true
    else if equals (tokenX pool) NATIVE_MINT then false
    else true in
  binArrays <- getBinArrayForSwap sdk pool swapYtoX n ;;
  let binArrayPubkeys := dedupe [] (present binArrays) in
  match binArrayPubkeys with
  | [] =>
      Throw (new_Error (stack sdk)
               ("No bin arrays returned for Meteora pool " ++ toBase58 pk
                ++ " (swapYtoX=" ++ bool_text swapYtoX ++ ")"))
  | _ =>
      Ok {| programId := toBase58 (program pool);
            lbPair := toBase58 pk;
            tokenXMint := toBase58 (tokenX pool);
            tokenYMint := toBase58 (tokenY pool);
            reserveXVar := toBase58 (reserveX pool);
            reserveYVar := toBase58 (reserveY pool);
            oracleVar := toBase58 (oracle pool);
            memoProgram := memoProgramId sdk;
            binArrays := binArrayPubkeys |}
  end.

Definition succeeded_state (st : State) (position : nat) (cand : string)
    (pk : PublicKey) (retryCount : nat) (vars : MeteoraVars) : State :=
  {| lbPairFound := Some pk;
     lastError := lastError st;
     meteora := Some vars;
     attempts := S (attempts st);
     trace :=
       trace st
       ++ [Attempt position cand true;
           Log (if (0 <? retryCount)%nat
                then "Discovered Meteora vars (succeeded after "
                     ++ string_of_nat (retryCount + 1) ++ " attempts)"
                else "Discovered Meteora vars")] |}.

Definition failed_state (st : State) (position : nat) (cand : string)
    (retryCount : nat) (inner : Val) : State :=
  {| lbPairFound := lbPairFound st;
     lastError := Some inner;
     meteora := meteora st;
     attempts := S (attempts st);
     trace :=
       trace st
       ++ Attempt position cand false
          :: (if (retryCount <? MAX_RETRIES)%nat
              then [Warn ("Meteora discovery attempt " ++ string_of_nat retryCount
                          ++ "/" ++ string_of_nat MAX_RETRIES
                          ++ " failed for candidate " ++ cand ++ ": "
                          ++ reason inner ++ ". Retrying in "
                          ++ string_of_nat RETRY_DELAY_MS ++ "ms...");
                    Sleep RETRY_DELAY_MS]
              else [Warn ("Meteora discovery failed for candidate " ++ cand
                          ++ " after " ++ string_of_nat MAX_RETRIES
                          ++ " attempts: " ++ reason inner)]) |}.

(** The [while (retryCount < MAX_RETRIES && !lbPairFound)] loop.  Each unit
    of [fuel] pays for one test of the condition; [None] is a loop that has
    not ended when the fuel is spent. *)
Fixpoint retry_loop (fuel : nat) (position : nat) (cand : string)
    (pk : PublicKey) (retryCount : nat) (st : State) : option State :=
  match fuel with
  | O => None
  | S fuel =>
      if (retryCount <? MAX_RETRIES)%nat && negb (found st) then
        match attempt pk (attempts st) with
        | Ok vars =>
            Some (succeeded_state st position cand pk retryCount vars)
        | Throw inner =>
            let retryCount := S retryCount in
            retry_loop fuel position cand pk retryCount
                       (failed_state st position cand retryCount inner)
        end
      else Some st
  end.

(** The [for (const cand of meteoraLbPairCandidates)] loop.  A candidate
    that is no public key throws out of the loop. *)
Fixpoint candidates_loop (fuel : nat) (cands : list string) (position : nat)
    (st : State) : option (State * Result unit) :=
  match cands with
  | [] => Some (st, Ok tt)
  | cand :: rest =>
      match new_PublicKey (stack sdk) cand with
      | Throw e => Some (st, Throw e)
      | Ok pk =>
          match retry_loop fuel position cand pk 0 st with
          | None => None
          | Some st' =>
              if found st' then Some (st', Ok tt)
              else candidates_loop fuel rest (S position) st'
          end
      end
  end.

End WithSdk.

(** ** Reading a trace *)

(** The attempts and the pauses of a trace, without the console output. *)
Fixpoint actions (events : list Event) : list Event :=
  match events with
  | [] => []
  | Attempt p c ok :: rest => Attempt p c ok :: actions rest
  | Sleep ms :: rest => Sleep ms :: actions rest
  | _ :: rest => actions rest
  end.



(** [k] failed attempts on a candidate, each followed by the pause. *)
Fixpoint retries (position : nat) (cand : string) (k : nat) : list Event :=
  match k with
  | O => []
  | S k =>
      Attempt position cand false :: Sleep RETRY_DELAY_MS
        :: retries position cand k
  end.

(** [n] failed attempts on a candidate, with a pause between one and the
    next, and none after the last. *)
Definition failures (position : nat) (cand : string) (n : nat) : list Event :=
  match n with
  | O => []
  | S m => (retries position cand m ++ [Attempt position cand false])%list
  end.

(** A candidate given up: [MAX_RETRIES] failed attempts. *)
Definition exhausted (position : nat) (cand : string) : list Event :=
  failures position cand MAX_RETRIES.

(** A candidate that answers after [k] failed attempts. *)
Definition success_after (position : nat) (cand : string) (k : nat)
    : list Event :=
  (retries position cand k ++ [Attempt position cand true])%list.

(** The candidates of a list given up one after the other, the first of
    them at [position]. *)
Fixpoint exhausted_all (cands : list string) (position : nat) : list Event :=
  match cands with
  | [] => []
  | cand :: rest =>
      (exhausted position cand ++ exhausted_all rest (S position))%list
  end.

End Discover.

(* ===================================================================== *)
(** * Part VI.  The replay driver                                         *)
(* ===================================================================== *)

Module Driver.
Local Open Scope nat_scope.

(** Modelled from the spec: the replay driver ([replay.py]) is not among the
    sources, so its state machine is taken from the specification: the
    states [Pending], [Building], [Submitting], [Done], [Halted] and
    [Completed], the outcome classifications, and transitions 1 to 7. *)
Inductive Classification :=
| BuildFailed
| SubmitFailed
| Confirmed
| CrashedRemote
| TimedOut.

(** Modelled from the spec: the states of the driver's state machine, the
    driver itself being absent from the sources. *)
Inductive DriverState :=
| Pending (i : nat)
| Building (i : nat)
| Submitting (i : nat)
| Done (i : nat) (outcome : Classification)
| Halted
| Completed.

Definition crashed (c : Classification) : bool :=
  match c with
  | CrashedRemote => true
  | _ => false
  end.

Section Steps.
(** The number of steps of the run. *)
Variable N : nat.

(** Modelled from the spec: the transitions of the driver.  The step after
    the last one is [Pending N], from which the run is [Completed]. *)
Inductive step : DriverState -> DriverState -> Prop :=
| start_build i :
    i < N -> step (Pending i) (Building i)
| build_failed i c :
    c = BuildFailed \/ c = TimedOut -> step (Building i) (Done i c)
| build_succeeded i :
    step (Building i) (Submitting i)
| submit_answered i c :
    c = Confirmed \/ c = SubmitFailed -> step (Submitting i) (Done i c)
| submit_crashed i :
    step (Submitting i) (Done i CrashedRemote)
| halt i :
    step (Done i CrashedRemote) Halted
| next_step i c :
    c <> CrashedRemote -> S i <= N -> step (Done i c) (Pending (S i))
| complete :
    step (Pending N) Completed.

(** A run from [s]: the states entered after [s], in order. *)
Inductive run_from : DriverState -> list DriverState -> Prop :=
| run_stop s : run_from s []
| run_step s s' rest : step s s' -> run_from s' rest -> run_from s (s' :: rest).

(** Modelled from the spec: what the absent driver learns, for each step,
    from the Step Runner and from the Chain Gateway. *)
Inductive BuildAnswer := Built | BuildError | BuildTimeout.
Inductive SubmitAnswer := Accepted | Rejected | Crashed.

Variable runner : nat -> BuildAnswer.
Variable gateway : nat -> SubmitAnswer.

(** Modelled from the spec: the driver as a function, one transition at a
    time, for given answers of the runner and the gateway. *)
Definition next (s : DriverState) : option DriverState :=
  match s with
  | Pending i =>
      if i <? N then Some (Building i)
      else if i =? N then Some Completed
      else None
  | Building i =>
      match runner i with
      | Built => Some (Submitting i)
      | BuildError => Some (Done i BuildFailed)
      | BuildTimeout => Some (Done i TimedOut)
      end
  | Submitting i =>
      match gateway i with
      | Accepted => Some (Done i Confirmed)
      | Rejected => Some (Done i SubmitFailed)
      | Crashed => Some (Done i CrashedRemote)
      end
  | Done i c =>
      if crashed c then Some Halted
      else if S i <=? N then Some (Pending (S i))
      else None
  | Halted | Completed => None
  end.

(** Modelled from the spec: the states the absent driver enters from [s],
    as long as the fuel lasts. *)
Fixpoint drive (fuel : nat) (s : DriverState) : list DriverState :=
  match fuel with
  | O => []
  | S fuel =>
      match next s with
      | Some s' => s' :: drive fuel s'
      | None => []
      end
  end.

End Steps.

(** The step a state belongs to. *)
Definition index (s : DriverState) : option nat :=
  match s with
  | Pending i | Building i | Submitting i | Done i _ => Some i
  | Halted | Completed => None
  end.

(** The step is attempted when the driver enters [Building]. *)
Definition attempted (j : nat) (states : list DriverState) : Prop :=
  In (Building j) states.

(** The classifications recorded by a run, in order. *)
Fixpoint report (states : list DriverState) : list Classification :=
  match states with
  | [] => []
  | Done _ c :: rest => c :: report rest
  | _ :: rest => report rest
  end.

End Driver.

(* ===================================================================== *)
(** * Part VII.  Concrete worlds, used to run the definitions             *)
(* ===================================================================== *)

Module Worlds.
Import Js.

Definition engine_stack (message : string) : string :=
  "Error: " ++ message ++ nl ++ "    at <anonymous>".

(** A host whose loader finds a module with the given [executeSkill]. *)
Definition host_with (skill : string -> Runner.Settlement) : Runner.Host :=
  {| Runner.path_resolve := fun p => "/repo/" ++ p;
     Runner.import :=
       fun _ => Ok {| Runner.executeSkill := Runner.Function skill |};
     Runner.timer_fires := Runner.node_timer;
     Runner.stack := engine_stack |}.

Definition argv_step5 : list string :=
  ["bun"; "runTransaction.ts"; "transactions/tx_05_raydium_swap.ts"; "30000";
   "4vJ9JU1bJJE96FWSJKvHsmmFADCg4gpZQff4P3bkLKi"].



(** A validation error in the style of schema libraries: [errors] maps a
    field name to its complaint. *)
Definition validation_error : Val :=
  Obj (ErrorObj "Error")
      [("message", Str "Validation failed");
       ("stack", Str (engine_stack "Validation failed"));
       ("errors", Obj Plain [("amount", Str "required")])].

(** *** A pool, a library and three answers of the instruction builder *)

Import Solana.

Definition raydium : DexEnv.Raydium :=
  {| DexEnv.ammConfig := "CKvZaF1sKg4UxnoFr1xjDD7Tg9dSELi8ZvjQW3CwiXgS";
     DexEnv.poolState := "6YNAHRfFZnP1x9MfUeokhdUfBbRfpiS35gKHy68Qq5wX";
     DexEnv.token0Mint := "So11111111111111111111111111111111111111112";
     DexEnv.token1Mint := "EPjFWdd5AufqSSqeM2qN1xzybapC8G4wEGGkZwyTDt1v";
     DexEnv.token0Vault := "BjYYQWWUULRFE88hVEibZdDunKe3H7Si61Kz9nF1TYYT";
     DexEnv.token1Vault := "D68ZrMrH21p4zphwvqSK3CTrWzAWDqKP6PnHTHpocyb3";
     DexEnv.token0Program := "TokenkegQfeZyiNwAJbNbGKPFXCWuBvf9Ss623VQ5DA";
     DexEnv.token1Program := "TokenkegQfeZyiNwAJbNbGKPFXCWuBvf9Ss623VQ5DA";
     DexEnv.observationKey := "DzBJXtN285s9tQiaboD1CegSfgZxVXibM83PFrS6GyUj";
     DexEnv.authority := "Af2Y56WUFQuTTTYHMCjMozYsDxvTvSM6YQnyv8E6EK3v" |}.

Definition CPMM_PROGRAM : string :=
  "CPMMoo8L3F4NbTegBCKVNunggL7H1ZpdTHKxQB5qKP1C".

Definition entry (k : PublicKey) (signer writable : bool)
    : option RawMeta :=
  Some {| raw_pubkey := Some (toBase58 k);
          raw_isSigner := Boolean signer;
          raw_isWritable := Boolean writable |}.

(** The thirteen accounts of [swapBaseInput], the payer first; the builder
    reports the payer as a plain read-only account. *)
Definition all_accounts (input : SwapBaseInputInput) : list (option RawMeta) :=
  [ entry (payer input) false false;
    entry (authority input) false false;
    entry (ammConfig input) false false;
    entry (poolState input) false true;
    entry (inputTokenAccount input) false true;
    entry (outputTokenAccount input) false true;
    entry (inputVault input) false true;
    entry (outputVault input) false true;
    entry (inputTokenProgram input) false false;
    entry (outputTokenProgram input) false false;
    entry (inputTokenMint input) false false;
    entry (outputTokenMint input) false false;
    entry (observationState input) false true ].

(** The same list with the payer left out, as an entry without [pubkey]. *)
Definition without_payer (input : SwapBaseInputInput)
    : list (option RawMeta) :=
  Some {| raw_pubkey := None;
          raw_isSigner := Boolean true;
          raw_isWritable := Boolean true |}
  :: tl (all_accounts input).

(** The same list with the payer and the pool state left out. *)
Definition with_holes (input : SwapBaseInputInput) : list (option RawMeta) :=
  match without_payer input with
  | a :: b :: c :: _ :: rest => a :: b :: c :: None :: rest
  | l => l
  end.


Definition swap_data : list Z := [143; 190; 90; 218; 196; 30; 51; 222]%Z.

(** A serializer that only counts instructions and their keys, standing
    for the wire format. *)
Definition count_bytes (cfg : SerializeConfig) (tx : Transaction)
    : Result (list Z) :=
  Ok (1 :: Z.of_nat (List.length (instructions tx))
        :: map (fun ix =>
                  match ix with
                  | Custom _ keys _ => Z.of_nat (List.length keys)
                  | _ => 0
                  end) (instructions tx))%Z.

Definition library (answer : SwapBaseInputInput -> list (option RawMeta))
    : Library :=
  {| Solana.stack := engine_stack;
     getAssociatedTokenAddressSync :=
       fun mint _ _ =>
         Ok {| toBase58 :=
                 if equals mint NATIVE_MINT
                 then "Brzwao8gEcM51jjHFS5xH7Kq6BbCxpDW6qXbGgYXStAB"
                 else "GUgPNy7JEre3s6jNdWdoHfbsh1Ub6aNhtQWrQ5j32oYZ" |};
     getSwapBaseInputInstruction :=
       fun input =>
         Ok {| programAddress := Some CPMM_PROGRAM;
               accounts := answer input;
               data := swap_data |};
     serialize := count_bytes |}.

(** A library whose instruction builder answers without a program. *)
Definition library_without_program : Library :=
  {| Solana.stack := engine_stack;
     getAssociatedTokenAddressSync :=
       getAssociatedTokenAddressSync (library all_accounts);
     getSwapBaseInputInstruction :=
       fun input =>
         Ok {| programAddress := None;
               accounts := all_accounts input;
               data := swap_data |};
     serialize := count_bytes |}.

Definition blockhash : string := "4vJ9JU1bJJE96FWSJKvHsmmFADCg4gpZQff4P3bkLKi".

(** *** A DLMM pair on a node *)

Definition meteora : DexEnv.Meteora :=
  {| DexEnv.programId := "LBUZKhRxPF3XUpBCjp4YzTKgLccjZhTSDM9YuVaPwxo";
     DexEnv.lbPair := "68gpLcjAXTVZAEy8vcrGxpN1oBoggK8nro7bfyjcPfNG";
     DexEnv.memoProgram := "MemoSq4gqABAXKb96qnH8TysNcWxMyWCqXgDLGmfcHr";
     DexEnv.binArrays :=
       Some ["GLc7NhvgRtPEY4UyejXnTHAFifDjmBJh1LigCmafJGK8";
             "AfyK2JTL9GMfUiYQJHHmDFrbvNHfssACZgPcTBGULsVQ"] |}.

Definition node : TxMeteora.Node :=
  {| TxMeteora.getAccountInfo :=
       fun _ =>
         Ok (Some {| TxMeteora.info_data := [33; 11; 49; 98]%Z;
                     TxMeteora.owner :=
                       {| toBase58 :=
                            "TokenkegQfeZyiNwAJbNbGKPFXCWuBvf9Ss623VQ5DA" |} |});
     TxMeteora.decodeLbPair :=
       fun _ =>
         Ok {| TxMeteora.tokenXMint :=
                 "So11111111111111111111111111111111111111112";
               TxMeteora.tokenYMint :=
                 "EPjFWdd5AufqSSqeM2qN1xzybapC8G4wEGGkZwyTDt1v";
               TxMeteora.reserveX :=
                 "52rNYyfsZ5WYGjB7Dk8sMC5uG57vfJjDZSXpu9R9W6FB";
               TxMeteora.reserveY :=
                 "76iDU6GvHWAtwsygM8ifxHTb5rByB4gQKZfDBKCggSu9";
               TxMeteora.oracle :=
                 "Apxu8KPHGa9pB95wr3YSXNdsLpCk8czBVnwHZaNYwY14" |};
     TxMeteora.findProgramAddressSync :=
       fun seeds _ =>
         Ok {| toBase58 :=
                 match seeds with
                 | [_] => "e5avahnNXoYqR7HxUzo8BzY4pZ31VHm8icPpPLr3vtq"
                 | _ => "3jtJxLk9yfDBAz6UMJ1XgQEN7dzyanbKVw4TeoBaQ3TZ"
                 end |};
     TxMeteora.encodeSwap2 :=
       fun _ => Ok [65; 75; 63; 76; 235; 91; 91; 136]%Z |}.

(** *** A DLMM that is not ready at once *)

Definition pool : Discover.Pool :=
  {| Discover.tokenX := NATIVE_MINT;
     Discover.tokenY := {| toBase58 := USDC_MINT |};
     Discover.reserveX :=
       {| toBase58 := "52rNYyfsZ5WYGjB7Dk8sMC5uG57vfJjDZSXpu9R9W6FB" |};
     Discover.reserveY :=
       {| toBase58 := "76iDU6GvHWAtwsygM8ifxHTb5rByB4gQKZfDBKCggSu9" |};
     Discover.oracle :=
       {| toBase58 := "Apxu8KPHGa9pB95wr3YSXNdsLpCk8czBVnwHZaNYwY14" |};
     Discover.program :=
       {| toBase58 := "LBUZKhRxPF3XUpBCjp4YzTKgLccjZhTSDM9YuVaPwxo" |} |}.

(** The pool cannot be created before [ready_at] attempts have failed. *)
Definition dlmm (ready_at : nat) : Discover.Dlmm :=
  {| Discover.stack := engine_stack;
     Discover.create :=
       fun _ n =>
         if (ready_at <=? n)%nat then Ok pool
         else Throw (new_Error engine_stack "Account not found");
     Discover.getBinArrayForSwap :=
       fun _ _ _ =>
         Ok [Some "GLc7NhvgRtPEY4UyejXnTHAFifDjmBJh1LigCmafJGK8";
             None;
             Some "GLc7NhvgRtPEY4UyejXnTHAFifDjmBJh1LigCmafJGK8";
             Some "AfyK2JTL9GMfUiYQJHHmDFrbvNHfssACZgPcTBGULsVQ"];
     Discover.memoProgramId := "MemoSq4gqABAXKb96qnH8TysNcWxMyWCqXgDLGmfcHr" |}.

(** The candidate of the command line followed by the built-in one. *)
Definition candidates : list string :=
  Discover.meteoraLbPairCandidates
    (Some "68gpLcjAXTVZAEy8vcrGxpN1oBoggK8nro7bfyjcPfNG").

(** *** A replay of five steps *)

(** Step 1 does not build, as step 2 of the reproduction. *)
Definition runner (i : nat) : Driver.BuildAnswer :=
  if (i =? 1)%nat then Driver.BuildError else Driver.Built.

(** The node crashes on the step [crash_at]. *)
Definition gateway (crash_at i : nat) : Driver.SubmitAnswer :=
  if (i =? crash_at)%nat then Driver.Crashed else Driver.Accepted.

End Worlds.

(* ===================================================================== *)
(** * Part VIII.  Pool discovery: the command line and the Raydium pool  *)
(* ===================================================================== *)

(** ** [argVal] and [resolveRpcUrl] *)

Module Cli.
Import Js.

(** [process.argv.indexOf(flag)]: the first place of [flag]; [None] is the
    answer [-1]. *)
Fixpoint indexOf (argv : list string) (flag : string) : option nat :=
  match argv with
  | [] => None
  | a :: rest =>
      if a =? flag then Some 0 else option_map S (indexOf rest flag)
  end.

(** [argVal(flag, def)]; [None] is [undefined]. *)
Definition argVal (argv : list string) (flag : string) (def : option string)
    : option string :=
  match indexOf argv flag with
  | Some i =>
      match nth_error argv (i + 1) with
      | Some value => if value =? "" then def else Some value
      | None => def
      end
  | None => def
  end.

(** The variables of [process.env] that the script reads. *)
Record Env := {
  VOYAGER_RPC_URL : option string;
  SOLANA_RPC_URL : option string;
  RPC_URL : option string
}.

(** [a ?? b] on values that are a string or [undefined]. *)
Definition or_nullish (a b : option string) : option string :=
  match a with
  | Some s => Some s
  | None => b
  end.

Definition missing_rpc : string :=
  "Missing RPC endpoint. Pass --rpc <url> or set VOYAGER_RPC_URL / SOLANA_RPC_URL / RPC_URL.".

(** [if (v) return v] on a string or [undefined]: the string when it is
    truthy. *)
Definition given (v : option string) : option string :=
  match v with
  | Some s => if s =? "" then None else Some s
  | None => None
  end.

Definition resolveRpcUrl (stack : string -> string) (argv : list string)
    (env : Env) : Result string :=
  let cli := argVal argv "--rpc" None in
  match given cli with
  | Some cli => Ok cli
  | None =>
      let envRpc :=
        or_nullish (VOYAGER_RPC_URL env)
                   (or_nullish (SOLANA_RPC_URL env) (RPC_URL env)) in
      match given envRpc with
      | Some envRpc => Ok envRpc
      | None => Throw (new_Error stack missing_rpc)
      end
  end.

End Cli.

(** ** [discoverRaydium] *)

Module RaydiumDiscovery.
Import Js Solana.
Local Open Scope js_scope.

Definition CPMM_PROGRAM_ID : string :=
  "CPMMoo8L3F4NbTegBCKVNunggL7H1ZpdTHKxQB5qKP1C".

(** The filters of [getProgramAccounts] that the script uses. *)
Inductive Filter :=
| Memcmp (offset : nat) (bytes : string)
| DataSize (size : nat).

(** One entry of the answer of [getProgramAccounts]. *)
Record ProgramAccount := {
  pubkey : PublicKey;
  account : TxMeteora.AccountInfo
}.

(** The node and the web3 library, as far as the script calls them:
    [publicKeyFromBytes] is [new PublicKey(buffer)]. *)
Record Web3 := {
  stack : string -> string;
  getProgramAccounts :
    PublicKey -> list Filter -> Result (list ProgramAccount);
  getAccountInfo : PublicKey -> Result (option TxMeteora.AccountInfo);
  publicKeyFromBytes : list Z -> Result PublicKey
}.

(** [buf.subarray(start, end)] for [0 <= start <= end]: the bytes from
    [start] up to [end], or up to the end of the buffer when it is
    shorter. *)
Definition subarray (buf : list Z) (start stop : nat) : list Z :=
  firstn (stop - start) (skipn start buf).

(** What [findCpmPoolByMints] answers when it finds a pool. *)
Record Pool := {
  poolState : PublicKey;
  ammConfig : PublicKey;
  token0Mint : PublicKey;
  token1Mint : PublicKey;
  token0Vault : PublicKey;
  token1Vault : PublicKey;
  token0Program : PublicKey;
  token1Program : PublicKey;
  observationKey : PublicKey;
  programId : PublicKey
}.

(** What [discoverRaydium] returns, the keys printed in base58. *)
Record Vars := {
  programId_text : string;
  ammConfig_text : string;
  poolState_text : string;
  token0Mint_text : string;
  token1Mint_text : string;
  token0Vault_text : string;
  token1Vault_text : string;
  token0Program_text : string;
  token1Program_text : string;
  observationKey_text : string;
  authority_text : string
}.

Definition pool_not_found : string :=
  "Raydium CPMM pool not found for provided mints".

Definition invalid_token_account : string :=
  "Invalid token account for vault owner fetch".

Section WithWeb3.
Variable web3 : Web3.

Definition readPubkey (buf : list Z) (offset : nat) : Result PublicKey :=
  publicKeyFromBytes web3 (subarray buf offset (offset + 32)).

(** The body of the [if (accs.length)] block, for the first account. *)
Definition read_pool (CPMM : PublicKey) (a : ProgramAccount) : Result Pool :=
  let data := TxMeteora.info_data (account a) in
  let base := 8 in
  ammConfig <- readPubkey data (base + 0) ;;
  token0Vault <- readPubkey data (base + 32 * 2) ;;
  token1Vault <- readPubkey data (base + 32 * 3) ;;
  token0Mint <- readPubkey data (base + 32 * 5) ;;
  token1Mint <- readPubkey data (base + 32 * 6) ;;
  token0Program <- readPubkey data (base + 32 * 7) ;;
  token1Program <- readPubkey data (base + 32 * 8) ;;
  observationKey <- readPubkey data (base + 32 * 9) ;;
  Ok {| poolState := pubkey a;
        ammConfig := ammConfig;
        token0Mint := token0Mint;
        token1Mint := token1Mint;
        token0Vault := token0Vault;
        token1Vault := token1Vault;
        token0Program := token0Program;
        token1Program := token1Program;
        observationKey := observationKey;
        programId := CPMM |}.

(** The filters of one query. *)
Definition filters (t0 t1 : PublicKey) : list Filter :=
  let offToken0 := 168 in
  let offToken1 := 200 in
  [Memcmp offToken0 (toBase58 t0); Memcmp offToken1 (toBase58 t1)].

(** The [for (const q of queries)] loop; [None] is [null]. *)
Fixpoint first_pool (CPMM : PublicKey) (queries : list (PublicKey * PublicKey))
    : Result (option Pool) :=
  match queries with
  | [] => Ok None
  | (t0, t1) :: rest =>
      accs <- getProgramAccounts web3 CPMM (filters t0 t1) ;;
      match accs with
      | a :: _ => pool <- read_pool CPMM a ;; Ok (Some pool)
      | [] => first_pool CPMM rest
      end
  end.

Definition findCpmPoolByMints (CPMM mintA mintB : PublicKey)
    : Result (option Pool) :=
  first_pool CPMM [(mintA, mintB); (mintB, mintA)].

Definition getTokenAccountOwner (tokenAccount : PublicKey)
    : Result PublicKey :=
  info <- getAccountInfo web3 tokenAccount ;;
  match info with
  | None => Throw (new_Error (stack web3) invalid_token_account)
  | Some info =>
      if (List.length (TxMeteora.info_data info) <? 64)%nat
      then Throw (new_Error (stack web3) invalid_token_account)
      else publicKeyFromBytes web3 (subarray (TxMeteora.info_data info) 32 64)
  end.

Definition discoverRaydium (inputMint outputMint : PublicKey)
    : Result Vars :=
  CPMM <- new_PublicKey (stack web3) CPMM_PROGRAM_ID ;;
  pool <- findCpmPoolByMints CPMM inputMint outputMint ;;
  match pool with
  | None => Throw (new_Error (stack web3) pool_not_found)
  | Some pool =>
      let inputIsToken0 := equals (token0Mint pool) inputMint in
      let inputVault :=
        if inputIsToken0 then token0Vault pool else token1Vault pool in
      authority <- getTokenAccountOwner inputVault ;;
      Ok {| programId_text := toBase58 (programId pool);
            ammConfig_text := toBase58 (ammConfig pool);
            poolState_text := toBase58 (poolState pool);
            token0Mint_text := toBase58 (token0Mint pool);
            token1Mint_text := toBase58 (token1Mint pool);
            token0Vault_text := toBase58 (token0Vault pool);
            token1Vault_text := toBase58 (token1Vault pool);
            token0Program_text := toBase58 (token0Program pool);
            token1Program_text := toBase58 (token1Program pool);
            observationKey_text := toBase58 (observationKey pool);
            authority_text := toBase58 authority |}
  end.

End WithWeb3.
End RaydiumDiscovery.

(* ===================================================================== *)
(** * Part IX.  Pool discovery: the script from its arguments to its file*)
(* ===================================================================== *)

Module DiscoverMain.
Import Js Solana Cli.
Local Open Scope js_scope.
Local Open Scope list_scope.

(** What [loadMeteoraSdk] answers when it finds the package: the pool
    class, which works on a connection, and the program of the pools.
    [memoProgramId] is kept with the pool class. *)
Record MeteoraSdk := {
  DLMM : RaydiumDiscovery.Web3 -> Discover.Dlmm;
  programId : string
}.

(** The process, the file system, the packages and the node. *)
Record Host := {
  stack : string -> string;
  argv : list string;
  env : Env;
  cwd : string;
  isAbsolute : string -> bool;
  resolve : string -> string -> string;
  dirname : string -> string;
  (** [await import("@solana/web3.js")] and
      [await import("@solana/spl-token")]. *)
  importLibraries : Result unit;
  (** [new Connection(rpc, "confirmed")]. *)
  connect : string -> Result RaydiumDiscovery.Web3;
  loadMeteoraSdk : option MeteoraSdk;
  (** [await import("./sdk/dlmm/accounts/lbPair")] followed by
      [getLbPairDecoder()]; the function is [decoder.decode]. *)
  lbPairDecoder : Result (list Z -> Result TxMeteora.LbPair);
  mkdirSync : string -> Result unit;
  writeFileSync : string -> Json -> Result unit
}.

Inductive Level := LogLevel | WarnLevel | ErrorLevel.

(** A piece of a template literal: plain text, or the text that
    [JSON.stringify] makes of a value ([None] when it answers
    [undefined]). *)
Inductive Piece :=
| Text (s : string)
| Stringified (j : option Json).

(** An argument of a call of the console: a string, or any other value. *)
Inductive Arg :=
| Message (pieces : list Piece)
| Value (v : Val).

(** What the script does that can be seen from outside: the calls of the
    console, the attempts, pauses and console calls of the retry loop, the
    attempt on a pool discovered on the chain, and the calls of the file
    system that returned.  The file is given as the document that
    [JSON.stringify(result, null, 2)] writes. *)
Inductive Event :=
| Console (level : Level) (args : list Arg)
| Retry (e : Discover.Event)
| Mkdir (path : string)
| WriteFile (path : string) (document : Json).

Definition say (level : Level) (text : string) : Event :=
  Console level [Message [Text text]].

Definition DEFAULT_OUT : string := "voyager/environments/swap_idl_vars.json".

Definition sdk_unavailable : string :=
  "Meteora SDK unavailable; install @meteora-ag/dlmm in voyager/skill_runner to enable discovery".

(** [result.raydium] in the file. *)
Definition raydium_json (vars : RaydiumDiscovery.Vars) : Json :=
  JObj [("programId", JStr (RaydiumDiscovery.programId_text vars));
        ("ammConfig", JStr (RaydiumDiscovery.ammConfig_text vars));
        ("poolState", JStr (RaydiumDiscovery.poolState_text vars));
        ("token0Mint", JStr (RaydiumDiscovery.token0Mint_text vars));
        ("token1Mint", JStr (RaydiumDiscovery.token1Mint_text vars));
        ("token0Vault", JStr (RaydiumDiscovery.token0Vault_text vars));
        ("token1Vault", JStr (RaydiumDiscovery.token1Vault_text vars));
        ("token0Program", JStr (RaydiumDiscovery.token0Program_text vars));
        ("token1Program", JStr (RaydiumDiscovery.token1Program_text vars));
        ("observationKey", JStr (RaydiumDiscovery.observationKey_text vars));
        ("authority", JStr (RaydiumDiscovery.authority_text vars))].

(** [result.meteora] in the file. *)
Definition meteora_json (vars : Discover.MeteoraVars) : Json :=
  JObj [("programId", JStr (Discover.programId vars));
        ("lbPair", JStr (Discover.lbPair vars));
        ("tokenXMint", JStr (Discover.tokenXMint vars));
        ("tokenYMint", JStr (Discover.tokenYMint vars));
        ("reserveX", JStr (Discover.reserveXVar vars));
        ("reserveY", JStr (Discover.reserveYVar vars));
        ("oracle", JStr (Discover.oracleVar vars));
        ("memoProgram", JStr (Discover.memoProgram vars));
        ("binArrays", JArr (map JStr (Discover.binArrays vars)))].

(** [JSON.stringify(result, null, 2)], as a document: [raydium] was
    assigned before [meteora], and a property never assigned is absent. *)
Definition document (raydium : option RaydiumDiscovery.Vars)
    (meteora : option Discover.MeteoraVars) : Json :=
  JObj (match raydium with
        | Some vars => [("raydium", raydium_json vars)]
        | None => []
        end
        ++ match meteora with
           | Some vars => [("meteora", meteora_json vars)]
           | None => []
           end).

(** [lastErrMsg]; [lastError] starts as [null]. *)
Definition lastErrMsg (lastError : option Val) : Piece :=
  let lastError := match lastError with Some e => e | None => Null end in
  if instanceofError lastError
  then Text (to_string (get lastError "name") ++ ": "
             ++ to_string (get lastError "message"))%string
  else Stringified (to_json lastError).

Section WithHost.
Variable host : Host.
Variable connection : RaydiumDiscovery.Web3.
Variable meteoraSdk : MeteoraSdk.
Variables inputMint outputMint : PublicKey.

(** The body of the [try] block that looks at one account of the program:
    whether the pair trades the two mints. *)
Definition trades_the_mints (decode : list Z -> Result TxMeteora.LbPair)
    (acc : RaydiumDiscovery.ProgramAccount) : Result bool :=
  lb <- decode (TxMeteora.info_data (RaydiumDiscovery.account acc)) ;;
  tokenXMint <- new_PublicKey (stack host) (TxMeteora.tokenXMint lb) ;;
  tokenYMint <- new_PublicKey (stack host) (TxMeteora.tokenYMint lb) ;;
  Ok ((equals tokenXMint inputMint && equals tokenYMint outputMint)
      || (equals tokenXMint outputMint && equals tokenYMint inputMint)).

(** The [for (const acc of lbPairAccounts.slice(0, 5))] loop: the first
    account that decodes to a pair of the two mints; an account that does
    not decode is skipped. *)
Fixpoint first_match (decode : list Z -> Result TxMeteora.LbPair)
    (accs : list RaydiumDiscovery.ProgramAccount)
    : option RaydiumDiscovery.ProgramAccount :=
  match accs with
  | [] => None
  | acc :: rest =>
      match trades_the_mints decode acc with
      | Ok true => Some acc
      | Ok false | Throw _ => first_match decode rest
      end
  end.

(** The body of the [try] block of the retry on the discovered pool, as the
    attempt number [n] of the run. *)
Definition discovered_vars (pk : PublicKey) (n : nat)
    : Result Discover.MeteoraVars :=
  let sdk := DLMM meteoraSdk connection in
  pool <- Discover.create sdk pk n ;;
  let swapYtoX := equals (Discover.tokenY pool) NATIVE_MINT in
  binArrays <- Discover.getBinArrayForSwap sdk pool swapYtoX n ;;
  let binArrayPubkeys := Discover.dedupe [] (Discover.present binArrays) in
  Ok {| Discover.programId := toBase58 (Discover.program pool);
        Discover.lbPair := toBase58 pk;
        Discover.tokenXMint := toBase58 (Discover.tokenX pool);
        Discover.tokenYMint := toBase58 (Discover.tokenY pool);
        Discover.reserveXVar := toBase58 (Discover.reserveX pool);
        Discover.reserveYVar := toBase58 (Discover.reserveY pool);
        Discover.oracleVar := toBase58 (Discover.oracle pool);
        Discover.memoProgram := Discover.memoProgramId sdk;
        Discover.binArrays := binArrayPubkeys |}.

Definition discovery_failed (discoveryErr : Val) : Event :=
  Console WarnLevel
    [Message [Text "On-chain Meteora pool discovery failed:"];
     Value discoveryErr].

(** The [try] block that looks for a pool on the chain, with its [catch];
    [position] is the place that the discovered pool takes in the list of
    candidates, [n] the number of attempts made before. *)
Definition on_chain (position n : nat)
    : list Event * option (PublicKey * Discover.MeteoraVars) :=
  match new_PublicKey (stack host) (programId meteoraSdk) with
  | Throw e => ([discovery_failed e], None)
  | Ok meteoraProgramId =>
  match lbPairDecoder host with
  | Throw e => ([discovery_failed e], None)
  | Ok decode =>
  match RaydiumDiscovery.getProgramAccounts connection meteoraProgramId
          [RaydiumDiscovery.DataSize 1464] with
  | Throw e => ([discovery_failed e], None)
  | Ok lbPairAccounts =>
      let counted :=
        say LogLevel
            ("Found " ++ string_of_nat (List.length lbPairAccounts)
             ++ " potential Meteora LbPair accounts")%string in
      match first_match decode (firstn 5 lbPairAccounts) with
      | None => ([counted], None)
      | Some acc =>
          let cand := toBase58 (RaydiumDiscovery.pubkey acc) in
          let matching := say LogLevel ("Found matching pool: " ++ cand)%string in
          match new_PublicKey (stack host) cand with
          | Throw e => ([counted; matching; discovery_failed e], None)
          | Ok pk =>
              match discovered_vars pk n with
              | Ok vars =>
                  ([counted; matching;
                    Retry (Discover.Attempt position cand true);
                    say LogLevel
                        "Discovered Meteora vars from on-chain discovery"],
                   Some (pk, vars))
              | Throw retryErr =>
                  ([counted; matching;
                    Retry (Discover.Attempt position cand false);
                    Console WarnLevel
                      [Message [Text ("Retry failed for discovered pool "
                                      ++ cand ++ ":")%string];
                       Value retryErr]],
                   None)
              end
          end
      end
  end
  end
  end.

End WithHost.

(** How [main] ends: what it did, and the value its promise is rejected
    with, if it is. *)
Record Outcome := {
  events : list Event;
  rejected : option Val
}.

Definition outPath (host : Host) : string :=
  match argVal (argv host) "--out" (Some DEFAULT_OUT) with
  | Some p => p
  | None => DEFAULT_OUT
  end.

Definition outAbs (host : Host) : string :=
  if isAbsolute host (outPath host) then outPath host
  else resolve host (cwd host) (outPath host).

(** The end of [main]: the directory, the file and the last line. *)
Definition write (host : Host) (before : list Event)
    (raydium : option RaydiumDiscovery.Vars)
    (meteora : option Discover.MeteoraVars) : Outcome :=
  let outDir := dirname host (outAbs host) in
  match mkdirSync host outDir with
  | Throw e => {| events := before; rejected := Some e |}
  | Ok _ =>
      match writeFileSync host (outAbs host) (document raydium meteora) with
      | Throw e =>
          {| events := before ++ [Mkdir outDir]; rejected := Some e |}
      | Ok _ =>
          {| events :=
               before
               ++ [Mkdir outDir;
                   WriteFile (outAbs host) (document raydium meteora);
                   Console LogLevel [Message [Text "Wrote"];
                                     Message [Text (outAbs host)]]];
             rejected := None |}
      end
  end.

(** [main].  Each unit of [fuel] pays for one test of the condition of the
    retry loop on a candidate; [None] is a run whose loop has not ended
    when the fuel is spent. *)
Definition main (fuel : nat) (host : Host) : option Outcome :=
  match resolveRpcUrl (stack host) (argv host) (env host) with
  | Throw e => Some {| events := []; rejected := Some e |}
  | Ok rpc =>
  let cliMeteora := argVal (argv host) "--meteora-lbpair" None in
  match importLibraries host with
  | Throw e => Some {| events := []; rejected := Some e |}
  | Ok _ =>
  match connect host rpc with
  | Throw e => Some {| events := []; rejected := Some e |}
  | Ok connection =>
  let inputMint := NATIVE_MINT in
  match new_PublicKey (stack host) USDC_MINT with
  | Throw e => Some {| events := []; rejected := Some e |}
  | Ok outputMint =>
  let meteoraLbPairCandidates := Discover.meteoraLbPairCandidates cliMeteora in
  let raydium :=
    RaydiumDiscovery.discoverRaydium connection inputMint outputMint in
  let result_raydium :=
    match raydium with
    | Ok vars => Some vars
    | Throw _ => None
    end in
  let told :=
    match raydium with
    | Ok _ => [say LogLevel "Discovered Raydium vars"]
    | Throw e =>
        [Console WarnLevel
           [Message [Text "Raydium discovery failed:"]; Value e]]
    end in
  match loadMeteoraSdk host with
  | None =>
      Some {| events := told;
              rejected := Some (new_Error (stack host) sdk_unavailable) |}
  | Some meteoraSdk =>
  match Discover.candidates_loop (DLMM meteoraSdk connection) fuel
                                 meteoraLbPairCandidates 0 Discover.initial with
  | None => None
  | Some (st, Throw e) =>
      Some {| events := told ++ map Retry (Discover.trace st);
              rejected := Some e |}
  | Some (st, Ok _) =>
      let looped := told ++ map Retry (Discover.trace st) in
      if Discover.found st then
        Some (write host looped result_raydium (Discover.meteora st))
      else
        let '(searched, discovered) :=
          on_chain host connection meteoraSdk inputMint outputMint
                   (List.length meteoraLbPairCandidates)
                   (Discover.attempts st) in
        let looked :=
          looped
          ++ [Console WarnLevel
                [Message
                   [Text "Meteora discovery failed for all hardcoded candidates. Last error: ";
                    lastErrMsg (Discover.lastError st)]];
              say LogLevel "Attempting to discover Meteora pools on-chain..."]
          ++ searched in
        match discovered with
        | Some (pk, vars) =>
            Some (write host looked result_raydium (Some vars))
        | None =>
            Some (write host
                    (looked
                     ++ [say WarnLevel
                             "Continuing without Meteora. Only Raydium will be available."])
                    result_raydium (Discover.meteora st))
        end
  end
  end
  end
  end
  end
  end.

(** [main().catch((e) => { console.error(e); process.exit(1); })]: the
    calls made, and the exit code when [process.exit] is called. *)
Definition run (fuel : nat) (host : Host) : option (list Event * option Z) :=
  match main fuel host with
  | None => None
  | Some outcome =>
      Some match rejected outcome with
           | Some e =>
               (events outcome ++ [Console ErrorLevel [Value e]], Some 1%Z)
           | None => (events outcome, None)
           end
  end.

(** ** Reading the events *)

(** The files written, in order. *)
Definition written (events : list Event) : list (string * Json) :=
  flat_map (fun e =>
              match e with
              | WriteFile path document => [(path, document)]
              | _ => []
              end) events.

(** The attempts, the pauses and the console calls of the retry loop and
    of the attempt on a discovered pool. *)
Definition loop_events (events : list Event) : list Discover.Event :=
  flat_map (fun e =>
              match e with
              | Retry r => [r]
              | _ => []
              end) events.

End DiscoverMain.

(* ===================================================================== *)
(** * Part X.  A node with a pool of each kind, and a process around it  *)
(* ===================================================================== *)

Module DiscoveryWorlds.
Import Js Solana RaydiumDiscovery.

(** The keys of the accounts of this node are written as one byte repeated
    32 times; the byte chooses the key. *)
Definition key_of_tag (tag : Z) : string :=
  match tag with
  | 1 => DexEnv.ammConfig Worlds.raydium
  | 2 => DexEnv.token0Vault Worlds.raydium
  | 3 => DexEnv.token1Vault Worlds.raydium
  | 5 => DexEnv.token0Mint Worlds.raydium
  | 6 => DexEnv.token1Mint Worlds.raydium
  | 7 => DexEnv.token0Program Worlds.raydium
  | 8 => DexEnv.token1Program Worlds.raydium
  | 9 => DexEnv.observationKey Worlds.raydium
  | 10 => DexEnv.authority Worlds.raydium
  | _ => "11111111111111111111111111111111"
  end%Z.

Definition tagged (tag : Z) : list Z := repeat tag 32.

Definition key_of_bytes (bytes : list Z) : PublicKey :=
  {| toBase58 := key_of_tag (hd 0%Z bytes) |}.

(** The account of the pool: a discriminator of 8 bytes, then the keys in
    the order of the program's pool state. *)
Definition pool_data : list Z :=
  repeat 0%Z 8
  ++ tagged 1 ++ tagged 0 ++ tagged 2 ++ tagged 3 ++ tagged 0
  ++ tagged 5 ++ tagged 6 ++ tagged 7 ++ tagged 8 ++ tagged 9.

(** A token account: its mint, then its owner. *)
Definition vault_data (mint : Z) : list Z :=
  tagged mint ++ tagged 10 ++ repeat 0%Z 101.

Definition token_program : PublicKey :=
  {| toBase58 := "TokenkegQfeZyiNwAJbNbGKPFXCWuBvf9Ss623VQ5DA" |}.

Definition pool_account : ProgramAccount :=
  {| pubkey := {| toBase58 := DexEnv.poolState Worlds.raydium |};
     account :=
       {| TxMeteora.info_data := pool_data;
          TxMeteora.owner := {| toBase58 := CPMM_PROGRAM_ID |} |} |}.

Definition holds (a : ProgramAccount) (f : Filter) : bool :=
  match f with
  | Memcmp offset bytes =>
      toBase58 (key_of_bytes
                  (subarray (TxMeteora.info_data (account a))
                            offset (offset + 32)))
      =? bytes
  | DataSize size =>
      (List.length (TxMeteora.info_data (account a)) =? size)%nat
  end.

(** A DLMM pair of the Meteora program, of the size the script asks for. *)
Definition METEORA_PROGRAM : string :=
  "LBUZKhRxPF3XUpBCjp4YzTKgLccjZhTSDM9YuVaPwxo".

Definition pair_account : ProgramAccount :=
  {| pubkey := {| toBase58 := DexEnv.lbPair Worlds.meteora |};
     account :=
       {| TxMeteora.info_data := repeat 0%Z 1464;
          TxMeteora.owner := {| toBase58 := METEORA_PROGRAM |} |} |}.

(** The node answers the accounts of the program that pass the filters. *)
Definition web3 : Web3 :=
  {| stack := Worlds.engine_stack;
     getProgramAccounts :=
       fun program filters =>
         Ok (filter (fun a =>
                       equals program (TxMeteora.owner (account a))
                       && forallb (holds a) filters)
                    [pool_account; pair_account]);
     getAccountInfo :=
       fun k =>
         Ok (if toBase58 k =? DexEnv.token0Vault Worlds.raydium
             then Some {| TxMeteora.info_data := vault_data 5;
                          TxMeteora.owner := token_program |}
             else if toBase58 k =? DexEnv.token1Vault Worlds.raydium
             then Some {| TxMeteora.info_data := vault_data 6;
                          TxMeteora.owner := token_program |}
             else None);
     publicKeyFromBytes := fun bytes => Ok (key_of_bytes bytes) |}.

(** *** A process around the node *)

Fixpoint has_slash (p : string) : bool :=
  match p with
  | EmptyString => false
  | String c rest => Ascii.eqb c "/"%char || has_slash rest
  end.

(** The path without its last segment. *)
Fixpoint parent (p : string) : string :=
  match p with
  | EmptyString => EmptyString
  | String c rest => if has_slash rest then String c (parent rest) else ""
  end.

Definition sdk (ready_at : nat) : DiscoverMain.MeteoraSdk :=
  {| DiscoverMain.DLMM := fun _ => Worlds.dlmm ready_at;
     DiscoverMain.programId := METEORA_PROGRAM |}.

(** A process started with [argv], in which the Meteora package is found
    or not. *)
Definition host (argv : list string)
    (package : option DiscoverMain.MeteoraSdk) : DiscoverMain.Host :=
  {| DiscoverMain.stack := Worlds.engine_stack;
     DiscoverMain.argv := argv;
     DiscoverMain.env :=
       {| Cli.VOYAGER_RPC_URL := None;
          Cli.SOLANA_RPC_URL := None;
          Cli.RPC_URL := None |};
     DiscoverMain.cwd := "/repo";
     DiscoverMain.isAbsolute :=
       fun p => match p with
                | String "/"%char _ => true
                | _ => false
                end;
     DiscoverMain.resolve := fun base p => base ++ "/" ++ p;
     DiscoverMain.dirname := parent;
     DiscoverMain.importLibraries := Ok tt;
     DiscoverMain.connect := fun _ => Ok web3;
     DiscoverMain.loadMeteoraSdk := package;
     DiscoverMain.lbPairDecoder :=
       Ok (TxMeteora.decodeLbPair Worlds.node);
     DiscoverMain.mkdirSync := fun _ => Ok tt;
     DiscoverMain.writeFileSync := fun _ _ => Ok tt |}.

Definition argv_discover : list string :=
  ["bun"; "discover.ts"; "--rpc"; "http://localhost:8899"].

End DiscoveryWorlds.

(* ===================================================================== *)
(** * Part XI.  Reading results                                          *)
(* ===================================================================== *)

(** Small readers used to state what the runner, the builders and the
    retry loop produce. *)
Module Reading.
Import Js Solana Common.

(** The [message] field of a JSON object. *)
Definition message_of (j : Json) : option Json :=
  match j with
  | JObj fields => field fields "message"
  | _ => None
  end.

(** The line of [details] that stands for one sub-error of an aggregate:
    its message when it has a truthy one, the sub-error as text otherwise. *)
Definition sub_error_text (e : Val) : string :=
  if truthy (get_opt e "message") then to_string (get e "message")
  else to_string e.

(** A thrown value that is no object: a primitive or an array. *)
Definition is_object (v : Val) : bool :=
  match v with
  | Obj _ _ => true
  | _ => false
  end.

(** All the attempts of a trace, whatever the candidate. *)
Definition is_attempt (e : Discover.Event) : bool :=
  match e with
  | Discover.Attempt _ _ _ => true
  | _ => false
  end.

Definition all_attempts (events : list Discover.Event) : nat :=
  List.length (filter is_attempt events).

Definition is_failed_attempt (e : Discover.Event) : bool :=
  match e with
  | Discover.Attempt _ _ false => true
  | _ => false
  end.

(** The time spent in pauses, in milliseconds. *)
Fixpoint slept (events : list Discover.Event) : nat :=
  match events with
  | [] => 0
  | Discover.Sleep ms :: rest => ms + slept rest
  | _ :: rest => slept rest
  end.

End Reading.

(* ===================================================================== *)
(** * Part XII.  The Step Runner: results                                 *)
(* ===================================================================== *)

Section RunnerResults.
Import Js Runner.
Variable host : Host.

Lemma absent_some (s : string) : s <> "" -> absent (Some s) = false.
Proof.
  intros Hs. simpl. destruct (String.eqb_spec s ""); congruence.
Qed.

(** The handler throws exactly when [error.errors] is there and is no
    array. *)
Lemma failure_response_throws (error : Val) :
  errors_listable error = false <->
  failure_response host error
  = Throw (not_a_function (stack host) "error?.errors?.map").
Proof.
  unfold failure_response, map_errors, errors_listable, get_opt.
  destruct (describe error) as [errorMessage errorDetails].
  destruct (nullish error); simpl.
  - split; discriminate.
  - destruct (get error "errors"); simpl; split;
      solve [discriminate | reflexivity].
Qed.

Lemma failure_response_listable (error : Val) :
  errors_listable error = true ->
  exists errors,
    map_errors host error = Ok errors
    /\ failure_response host error
       = Ok (Obj Plain
               [("success", Boolean false);
                ("error", fst (describe error));
                ("details", Str (array_join nl (snd (describe error))));
                ("type", or_else (get_opt error "name") (Str "UnknownError"));
                ("errors", errors)]).
Proof.
  unfold failure_response, map_errors, errors_listable, get_opt.
  destruct (describe error) as [errorMessage errorDetails].
  destruct (nullish error); simpl.
  - intros _. eexists. split; reflexivity.
  - destruct (get error "errors"); simpl; intros H; try discriminate;
      eexists; split; reflexivity.
Qed.

(** [JSON.stringify] of an array, element by element. *)
Lemma to_json_array (xs : list Val) :
  to_json (Arr xs)
  = Some (JArr (map (fun x => match to_json x with
                              | Some j => j
                              | None => JNull
                              end) xs)).
Proof. reflexivity. Qed.

(** A sub-error that carries a message, a line, a column and a file keeps
    the four of them in the [errors] list of the response. *)
Lemma sub_error_preserved (k : ObjKind) (props : list (string * Val))
    (message file : string) (line column : Z) :
  message <> "" ->
  get (Obj k props) "message" = Str message ->
  get (Obj k props) "line" = Num line ->
  get (Obj k props) "column" = Num column ->
  get (Obj k props) "file" = Str file ->
  to_json (sub_error (Obj k props))
  = Some (JObj [("message", JStr message); ("line", JNum line);
                ("column", JNum column); ("file", JStr file)]).
Proof.
  intros Hmessage Hm Hl Hc Hf.
  unfold sub_error, get_opt, or_else. cbn [nullish].
  rewrite Hm, Hl, Hc, Hf. cbn [truthy].
  destruct (String.eqb_spec message ""); [contradiction|]. reflexivity.
Qed.

(** What the [catch] block prints when the handler does not throw. *)
Lemma catch_block_listable (t : Z) (error : Val) :
  errors_listable error = true ->
  exists fields errors,
    stdout (catch_block host t error) = [JsonLine (JObj fields)]
    /\ map_errors host error = Ok errors
    /\ field fields "success" = Some (JBool false)
    /\ field fields "error" = to_json (fst (describe error))
    /\ field fields "details"
       = Some (JStr (array_join nl (snd (describe error))))
    /\ field fields "type"
       = to_json (or_else (get_opt error "name") (Str "UnknownError"))
    /\ field fields "errors" = to_json errors
    /\ stderr (catch_block host t error) = [Inspected error]
    /\ exit (catch_block host t error) = ExitCode 1
    /\ settled_at (catch_block host t error) = t
    /\ exit_at (catch_block host t error) = t.
Proof.
  intros H. destruct (failure_response_listable error H) as (errors & He & Hr).
  unfold catch_block. rewrite Hr. cbn [stdout stderr exit settled_at exit_at].
  unfold log_json. cbn [to_json enumerable].
  eexists. exists errors. split; [reflexivity|].
  destruct (to_json (fst (describe error))) as [je|];
    destruct (to_json (or_else (get_opt error "name") (Str "UnknownError")))
      as [jt|];
    destruct (to_json errors) as [jl|];
    cbn; repeat split; exact He.
Qed.

(** On every thrown value whose [errors] can be listed, the runner answers
    with the failure line and leaves with code 1; the [errors] field holds
    the sub-errors of an array, mapped one by one. *)
Lemma runner_failure_line (argv : list string) (t : Z) (error : Val) :
  let filePath := nth_error argv 2 in
  let timeoutMsStr := nth_error argv 3 in
  let latestBlockhash := nth_error argv 4 in
  absent filePath || absent timeoutMsStr || absent latestBlockhash = false ->
  try_block host (path_resolve host (text filePath))
            (parseInt (text timeoutMsStr)) (text latestBlockhash)
  = (t, Throw error) ->
  errors_listable error = true ->
  exists fields,
    stdout (runTransaction host argv) = [JsonLine (JObj fields)]
    /\ field fields "success" = Some (JBool false)
    /\ field fields "error" = to_json (fst (describe error))
    /\ field fields "details"
       = Some (JStr (array_join nl (snd (describe error))))
    /\ field fields "type"
       = to_json (or_else (get_opt error "name") (Str "UnknownError"))
    /\ (forall es,
          get error "errors" = Arr es ->
          field fields "errors" = to_json (Arr (map sub_error es)))
    /\ exit (runTransaction host argv) = ExitCode 1.
Proof.
  intros filePath timeoutMsStr latestBlockhash Hargs Htry Hlistable.
  unfold runTransaction.
  fold filePath timeoutMsStr latestBlockhash. rewrite Hargs, Htry.
  destruct (catch_block_listable t error Hlistable)
    as (fields & errors & Hout & Hmap & Hs & He & Hd & Ht & Hl & _ & Hexit & _).
  exists fields. repeat split; try assumption.
  intros es Hes. rewrite Hl. f_equal.
  unfold map_errors in Hmap. rewrite Hes in Hmap.
  destruct (nullish error) eqn:Hnull.
  - destruct error; discriminate.
  - congruence.
Qed.

End RunnerResults.

Section RunnerClaims.
Import Js Runner.


(** C1.  An invocation with its three positional arguments, whose module is
    imported and whose [executeSkill] resolves with a string before the
    timer fires, prints exactly one line on standard output, the JSON
    object [{success: true, serialized_tx: <that string>}], prints nothing on
    standard error, and ends with exit code 0.  (The module is imported only
    when none of the three arguments is empty.) *)
Theorem runner_success_line
    (host : Host) (argv : list string) (file ms blockhash : string)
    (txModule : Module_) (skill : string -> Settlement)
    (t : Z) (serialized_tx : string) :
  nth_error argv 2 = Some file ->
  nth_error argv 3 = Some ms ->
  nth_error argv 4 = Some blockhash ->
  file <> "" -> ms <> "" -> blockhash <> "" ->
  import host (path_resolve host file) = Ok txModule ->
  executeSkill txModule = Function skill ->
  skill blockhash = Resolves t (Str serialized_tx) ->
  (t < timer_fires host (parseInt ms))%Z ->
  stdout (runTransaction host argv)
  = [JsonLine (JObj [("success", JBool true);
                     ("serialized_tx", JStr serialized_tx)])]
  /\ stderr (runTransaction host argv) = []
  /\ exit (runTransaction host argv) = ExitCode 0.
Proof.
  intros H2 H3 H4 Hfile Hms Hbh Himport Hexport Hskill Hbefore.
  unfold runTransaction. rewrite H2, H3, H4.
  rewrite !absent_some by assumption. cbn [orb text].
  unfold try_block. rewrite Himport, Hexport.
  unfold race. rewrite Hskill.
  apply Z.lt_le_incl, Z.leb_le in Hbefore. rewrite Hbefore.
  cbn. repeat split.
Qed.

Lemma runner_success_line_witness :
  stdout (runTransaction
            (Worlds.host_with (fun _ => Resolves 420 (Str "AQABAgM=")))
            Worlds.argv_step5)
  = [JsonLine (JObj [("success", JBool true);
                     ("serialized_tx", JStr "AQABAgM=")])]
  /\ stderr (runTransaction
               (Worlds.host_with (fun _ => Resolves 420 (Str "AQABAgM=")))
               Worlds.argv_step5) = []
  /\ exit (runTransaction
             (Worlds.host_with (fun _ => Resolves 420 (Str "AQABAgM=")))
             Worlds.argv_step5) = ExitCode 0.
Proof.
  apply (runner_success_line
           (Worlds.host_with (fun _ => Resolves 420 (Str "AQABAgM=")))
           Worlds.argv_step5
           "transactions/tx_05_raydium_swap.ts" "30000"
           "4vJ9JU1bJJE96FWSJKvHsmmFADCg4gpZQff4P3bkLKi"
           {| executeSkill := Function (fun _ => Resolves 420 (Str "AQABAgM=")) |}
           (fun _ => Resolves 420 (Str "AQABAgM=")) 420 "AQABAgM=");
    try reflexivity; try discriminate.
Defined.

(** C2, at the failing input.  The build rejects with an Error whose
    [errors] property is an object and no array: the handler calls
    [error.errors.map], which is no function, so the [catch] block itself
    throws.  Nothing is printed on standard output and the process ends on
    the exception nothing caught, not on [process.exit(1)]. *)
Theorem runner_handler_throws_on_unlistable_errors :
  let out :=
    runTransaction
      (Worlds.host_with (fun _ => Rejects 35 Worlds.validation_error))
      Worlds.argv_step5 in
  stdout out = []
  /\ stderr out = [Inspected Worlds.validation_error]
  /\ exit out
     = Uncaught (not_a_function Worlds.engine_stack "error?.errors?.map").
Proof.
  vm_compute. repeat split.
Qed.







End RunnerClaims.

(* ===================================================================== *)
(** * Part XIII.  The Step Modules: results                               *)
(* ===================================================================== *)

Section BuilderResults.
Import Js Solana Common.
Local Open Scope js_scope.
Local Open Scope list_scope.

Lemma bind_ok {A B} (r : Result A) (f : A -> Result B) (b : B) :
  bind r f = Ok b -> exists a, r = Ok a /\ f a = Ok b.
Proof.
  destruct r as [a|e]; simpl; [eauto | discriminate].
Qed.

Lemma new_PublicKey_ok (stack : string -> string) (value : string)
    (k : PublicKey) :
  new_PublicKey stack value = Ok k -> k = {| toBase58 := value |}.
Proof.
  unfold new_PublicKey.
  destruct (base58_decoded_length value) as [len|]; [|discriminate].
  destruct (len =? PUBLIC_KEY_LENGTH)%nat; [|discriminate].
  congruence.
Qed.

Lemma new_PublicKey_valid (stack : string -> string) (value : string) :
  valid_key value = true ->
  new_PublicKey stack value = Ok {| toBase58 := value |}.
Proof.
  unfold new_PublicKey, valid_key.
  destruct (base58_decoded_length value) as [len|]; [|discriminate].
  intros ->. reflexivity.
Qed.

Lemma custom_instructions_add (tx : Transaction) (ix : Instruction) :
  custom_instructions (add tx ix)
  = custom_instructions tx ++ (if is_custom ix then [ix] else []).
Proof.
  unfold custom_instructions, add. cbn [instructions].
  rewrite filter_app. cbn [filter]. destruct (is_custom ix); reflexivity.
Qed.

(** ** Visiting a list with a callback that may throw *)

Lemma map_indexed_length {A B} (f : A -> nat -> Result B) (l : list A) :
  forall index ys, map_indexed f l index = Ok ys -> List.length ys = List.length l.
Proof.
  induction l as [|x rest IH]; intros index ys H; simpl in H.
  - injection H as <-. reflexivity.
  - apply bind_ok in H as (y & _ & H).
    apply bind_ok in H as (ys' & Hrest & H).
    injection H as <-. simpl. f_equal. eauto.
Qed.

(** Each result comes from the entry at the same place. *)
Lemma map_indexed_nth {A B} (f : A -> nat -> Result B) (l : list A) :
  forall index ys i y,
    map_indexed f l index = Ok ys ->
    nth_error ys i = Some y ->
    exists x, nth_error l i = Some x /\ f x (index + i) = Ok y.
Proof.
  induction l as [|x rest IH]; intros index ys i y H Hy; simpl in H.
  - injection H as <-. destruct i; discriminate.
  - apply bind_ok in H as (y0 & Hx & H).
    apply bind_ok in H as (ys' & Hrest & H).
    injection H as <-.
    destruct i as [|i]; simpl in Hy.
    + injection Hy as <-. exists x. rewrite Nat.add_0_r. auto.
    + destruct (IH _ _ _ _ Hrest Hy) as (x' & Hx' & Hf).
      exists x'. split; [exact Hx'|].
      rewrite <- Hf. f_equal. lia.
Qed.



(** ** One entry of the account list *)

Lemma equals_eq (a b : PublicKey) : equals a b = true <-> a = b.
Proof.
  unfold equals. destruct a as [a], b as [b]. cbn [toBase58].
  rewrite String.eqb_eq. split; congruence.
Qed.

Lemma as_account_meta_ok (lib : Library) (agentPubkey : PublicKey)
    (meta : option RawMeta) (m : AccountMeta) :
  as_account_meta lib agentPubkey meta = Ok m ->
  m = normalized agentPubkey meta /\ valid_key (key_text meta) = true.
Proof.
  unfold as_account_meta. intros H.
  apply bind_ok in H as (k & Hk & H).
  pose proof (new_PublicKey_ok _ _ _ Hk) as ->.
  injection H as <-. split; [reflexivity|].
  unfold new_PublicKey in Hk. unfold valid_key.
  destruct (base58_decoded_length (key_text meta)) as [len|]; [|discriminate].
  destruct (len =? PUBLIC_KEY_LENGTH)%nat; [reflexivity | discriminate].
Qed.

Lemma as_account_meta_valid (lib : Library) (agentPubkey : PublicKey)
    (meta : option RawMeta) :
  valid_key (key_text meta) = true ->
  as_account_meta lib agentPubkey meta = Ok (normalized agentPubkey meta).
Proof.
  intros H. unfold as_account_meta.
  rewrite (new_PublicKey_valid _ _ H). reflexivity.
Qed.

(** The agent is a writable signer in a normalized entry, whatever the
    flags of the SDK. *)
Lemma normalized_agent (agentPubkey : PublicKey) (meta : option RawMeta) :
  pubkey (normalized agentPubkey meta) = agentPubkey ->
  isSigner (normalized agentPubkey meta) = true
  /\ isWritable (normalized agentPubkey meta) = true.
Proof.
  unfold normalized. cbn [pubkey isSigner isWritable]. intros H.
  apply equals_eq in H. rewrite H. split; reflexivity.
Qed.

End BuilderResults.

Section RaydiumResults.
Import Js Solana Common.
Local Open Scope js_scope.
Local Open Scope list_scope.

Variable lib : Library.
Variable PAYER_PUBKEY : option string.
Variable RAYDIUM : DexEnv.Raydium.

Lemma swap_instruction_ok (agentPubkey inAta outAta : PublicKey)
    (d : Direction) (amount : Z) (raw : RawInstruction) :
  swap_instruction lib RAYDIUM agentPubkey inAta outAta d amount = Ok raw ->
  exists input, getSwapBaseInputInstruction lib input = Ok raw.
Proof.
  unfold swap_instruction. intros H.
  do 4 (apply bind_ok in H as (? & _ & H)). eauto.
Qed.

(** What holds once step 2 has prepared its transaction. *)
Lemma tx02_prepare_ok (blockhash : string) (p : Prepared) :
  Tx02.prepare lib PAYER_PUBKEY RAYDIUM blockhash = Ok p ->
  agent lib PAYER_PUBKEY = Ok (agentPubkey p)
  /\ recentBlockhash (tx p) = blockhash
  /\ feePayer (tx p) = agentPubkey p
  /\ custom_instructions (tx p) = []
  /\ exists input, getSwapBaseInputInstruction lib input = Ok (rawSwapIx p).
Proof.
  unfold Tx02.prepare. intros H.
  apply bind_ok in H as (agentPubkey & Hagent & H).
  apply bind_ok in H as (INPUT_MINT & _ & H).
  apply bind_ok in H as (d & _ & H).
  apply bind_ok in H as (inAta & _ & H).
  apply bind_ok in H as (outAta & _ & H).
  cbv zeta in H.
  apply bind_ok in H as (raw & Hraw & H).
  injection H as <-. cbn [Common.agentPubkey tx rawSwapIx].
  split; [exact Hagent|].
  destruct (equals (outputTokenMint d) NATIVE_MINT);
    (repeat split; [exact (swap_instruction_ok _ _ _ _ _ _ Hraw)]).
Qed.

(** What holds once step 5 has prepared its transaction. *)
Lemma tx05_prepare_ok (blockhash : string) (p : Prepared) :
  Tx05.prepare lib PAYER_PUBKEY RAYDIUM blockhash = Ok p ->
  agent lib PAYER_PUBKEY = Ok (agentPubkey p)
  /\ recentBlockhash (tx p) = blockhash
  /\ feePayer (tx p) = agentPubkey p
  /\ custom_instructions (tx p) = []
  /\ exists input, getSwapBaseInputInstruction lib input = Ok (rawSwapIx p).
Proof.
  unfold Tx05.prepare. intros H.
  apply bind_ok in H as (agentPubkey & Hagent & H).
  apply bind_ok in H as (OUTPUT_MINT & _ & H).
  apply bind_ok in H as (d & _ & H).
  apply bind_ok in H as (inAta & _ & H).
  apply bind_ok in H as (outAta & _ & H).
  cbv zeta in H.
  apply bind_ok in H as (raw & Hraw & H).
  injection H as <-. cbn [Common.agentPubkey tx rawSwapIx].
  split; [exact Hagent|].
  repeat split. exact (swap_instruction_ok _ _ _ _ _ _ Hraw).
Qed.

(** The keys of step 2: the first entry may be replaced by the agent, every
    other entry is there and normalized. *)
Lemma tx02_swapKeys_ok (agentPubkey : PublicKey)
    (accounts : list (option RawMeta)) (keys : list AccountMeta) :
  Tx02.swapKeys lib agentPubkey accounts = Ok keys ->
  List.length keys = List.length accounts
  /\ forall i key,
       nth_error keys i = Some key ->
       exists meta,
         nth_error accounts i = Some meta
         /\ (if lacks_pubkey meta
             then i = 0 /\ key = agent_meta agentPubkey
             else key = normalized agentPubkey meta).
Proof.
  unfold Tx02.swapKeys. intros H. split.
  - exact (map_indexed_length _ _ _ _ H).
  - intros i key Hkey.
    destruct (map_indexed_nth _ _ _ _ _ _ H Hkey) as (meta & Hmeta & Hf).
    exists meta. split; [exact Hmeta|].
    unfold Tx02.swapKey in Hf. cbn [Nat.add] in Hf.
    destruct (lacks_pubkey meta).
    + destruct (Nat.eqb_spec i 0) as [->|]; [|discriminate].
      injection Hf as <-. auto.
    + apply as_account_meta_ok in Hf. tauto.
Qed.

(** The keys of step 5: the entries that have a pubkey, normalized. *)
Lemma tx05_swapKeys_ok (agentPubkey : PublicKey)
    (accounts : list (option RawMeta)) (keys : list AccountMeta) :
  Tx05.swapKeys lib agentPubkey accounts = Ok keys ->
  keys = map (normalized agentPubkey)
             (filter (fun meta => negb (lacks_pubkey meta)) accounts).
Proof.
  unfold Tx05.swapKeys.
  generalize (filter (fun meta => negb (lacks_pubkey meta)) accounts) 0.
  intros l. revert keys.
  induction l as [|meta rest IH]; intros keys index H; simpl in H.
  - injection H as <-. reflexivity.
  - apply bind_ok in H as (m & Hm & H).
    apply bind_ok in H as (ms & Hrest & H).
    injection H as <-. simpl.
    apply as_account_meta_ok in Hm as [-> _].
    f_equal. eauto.
Qed.


(** What step 2 adds to the prepared transaction. *)
Lemma tx02_complete_ok (p : Prepared) (tx' : Transaction) :
  Tx02.complete lib p = Ok tx' ->
  exists keys,
    Tx02.swapKeys lib (agentPubkey p) (accounts (rawSwapIx p)) = Ok keys
    /\ recentBlockhash tx' = recentBlockhash (tx p)
    /\ feePayer tx' = feePayer (tx p)
    /\ custom_instructions tx'
       = custom_instructions (tx p)
         ++ [Custom {| toBase58 := program_address_text (rawSwapIx p) |}
                    keys (data (rawSwapIx p))].
Proof.
  unfold Tx02.complete. intros H.
  destruct (lacks_program_address (rawSwapIx p)); [discriminate|].
  apply bind_ok in H as (keys & Hkeys & H).
  apply bind_ok in H as (programId & Hprogram & H).
  apply new_PublicKey_ok in Hprogram as ->.
  injection H as <-. exists keys. split; [exact Hkeys|].
  destruct (equals (outputTokenMint (mints p)) NATIVE_MINT);
    rewrite ?custom_instructions_add; cbn [is_custom];
    rewrite ?app_nil_r; repeat split.
Qed.

(** What step 5 adds to the prepared transaction. *)
Lemma tx05_complete_ok (p : Prepared) (tx' : Transaction) :
  Tx05.complete lib p = Ok tx' ->
  exists keys,
    Tx05.swapKeys lib (agentPubkey p) (accounts (rawSwapIx p)) = Ok keys
    /\ recentBlockhash tx' = recentBlockhash (tx p)
    /\ feePayer tx' = feePayer (tx p)
    /\ custom_instructions tx'
       = custom_instructions (tx p)
         ++ [Custom {| toBase58 := program_address_text (rawSwapIx p) |}
                    keys (data (rawSwapIx p))].
Proof.
  unfold Tx05.complete. intros H.
  destruct (lacks_program_address (rawSwapIx p)); [discriminate|].
  apply bind_ok in H as (keys & Hkeys & H).
  apply bind_ok in H as (programId & Hprogram & H).
  apply new_PublicKey_ok in Hprogram as ->.
  injection H as <-. exists keys. split; [exact Hkeys|].
  rewrite !custom_instructions_add; cbn [is_custom];
    rewrite ?app_nil_r; repeat split.
Qed.

Lemma serialized_ok (tx : Transaction) (s : string) :
  serialized lib tx = Ok s ->
  exists bytes,
    serialize lib no_signature_checks tx = Ok bytes /\ s = base64 bytes.
Proof.
  unfold serialized. intros H.
  apply bind_ok in H as (bytes & Hbytes & H).
  injection H as <-. eauto.
Qed.


End RaydiumResults.

Section MeteoraResults.
Import Js Solana Common.
Local Open Scope js_scope.
Local Open Scope list_scope.

Ltac unwind H :=
  repeat
    first
      [ apply bind_ok in H as (? & _ & H); cbv beta in H
      | match type of H with
        | match ?x with _ => _ end = Ok _ =>
            destruct x; try discriminate H
        end ].

(** The Meteora step builds its transaction on the blockhash it is given
    and charges the agent. *)
Lemma meteora_buildTransaction_ok (lib : Library) (node : TxMeteora.Node)
    (PAYER_PUBKEY : option string) (METEORA : DexEnv.Meteora)
    (blockhash : string) (tx : Transaction) :
  TxMeteora.buildTransaction lib node PAYER_PUBKEY METEORA blockhash = Ok tx ->
  agent lib PAYER_PUBKEY = Ok (feePayer tx) /\ recentBlockhash tx = blockhash.
Proof.
  unfold TxMeteora.buildTransaction. intros H.
  apply bind_ok in H as (agentPubkey & Hagent & H). cbv beta zeta in H.
  unwind H.
  injection H as <-.
  match goal with
  | |- context [if ?c then _ else _] => destruct c
  end; cbn [feePayer recentBlockhash add new_Transaction]; auto.
Qed.

End MeteoraResults.

Section BuilderClaims.
Import Js Solana Common.
Local Open Scope js_scope.
Local Open Scope list_scope.

(** C5 fails as stated: step 2 returns no string when the instruction
    builder leaves out an account past the first; it throws. *)
Lemma tx02_returns_nothing_on_holes :
  ~ (exists s,
       Tx02.executeSkill (Worlds.library Worlds.with_holes) None
                         Worlds.raydium Worlds.blockhash = Ok s).
Proof.
  intros [s H]. vm_compute in H. discriminate H.
Qed.

(** C5, amended.  Whenever the [executeSkill] of a builder (step 2, step 5
    or the Meteora step) returns a string for a blockhash, that string is
    the base64 text of the serialization, made with [requireAllSignatures]
    and [verifySignatures] both false, of a transaction whose
    [recentBlockhash] is the blockhash given and whose fee payer is the
    agent's public key. *)
Theorem executeSkill_returns_serialized_transaction
    (lib : Library) (node : TxMeteora.Node) (PAYER_PUBKEY : option string)
    (RAYDIUM : DexEnv.Raydium) (METEORA : DexEnv.Meteora)
    (blockhash s : string) :
  Tx02.executeSkill lib PAYER_PUBKEY RAYDIUM blockhash = Ok s
  \/ Tx05.executeSkill lib PAYER_PUBKEY RAYDIUM blockhash = Ok s
  \/ TxMeteora.executeSkill lib node PAYER_PUBKEY METEORA blockhash = Ok s ->
  exists tx bytes,
    serialize lib {| requireAllSignatures := false;
                     verifySignatures := false |} tx = Ok bytes
    /\ s = base64 bytes
    /\ recentBlockhash tx = blockhash
    /\ agent lib PAYER_PUBKEY = Ok (feePayer tx).
Proof.
  intros [H | [H | H]].
  - unfold Tx02.executeSkill in H.
    apply bind_ok in H as (p & Hp & H).
    apply bind_ok in H as (tx' & Htx & H).
    apply serialized_ok in H as (bytes & Hbytes & ->).
    apply tx02_prepare_ok in Hp as (Hagent & Hbh & Hpayer & _).
    apply tx02_complete_ok in Htx as (keys & _ & Hbh' & Hpayer' & _).
    exists tx', bytes. repeat split; try assumption; congruence.
  - unfold Tx05.executeSkill in H.
    apply bind_ok in H as (p & Hp & H).
    apply bind_ok in H as (tx' & Htx & H).
    apply serialized_ok in H as (bytes & Hbytes & ->).
    apply tx05_prepare_ok in Hp as (Hagent & Hbh & Hpayer & _).
    apply tx05_complete_ok in Htx as (keys & _ & Hbh' & Hpayer' & _).
    exists tx', bytes. repeat split; try assumption; congruence.
  - unfold TxMeteora.executeSkill in H.
    apply bind_ok in H as (tx' & Htx & H).
    apply serialized_ok in H as (bytes & Hbytes & ->).
    apply meteora_buildTransaction_ok in Htx as (Hagent & Hbh).
    exists tx', bytes. repeat split; assumption.
Qed.

Lemma executeSkill_returns_serialized_transaction_witness :
  (exists tx bytes,
     serialize (Worlds.library Worlds.all_accounts)
               {| requireAllSignatures := false; verifySignatures := false |}
               tx = Ok bytes
     /\ "AQgAAAAAAAANAA=="%string = base64 bytes
     /\ recentBlockhash tx = Worlds.blockhash
     /\ agent (Worlds.library Worlds.all_accounts) None = Ok (feePayer tx))
  /\
  (exists tx bytes,
     serialize (Worlds.library Worlds.with_holes)
               {| requireAllSignatures := false; verifySignatures := false |}
               tx = Ok bytes
     /\ "AQgAAAAAAAALAA=="%string = base64 bytes
     /\ recentBlockhash tx = Worlds.blockhash
     /\ agent (Worlds.library Worlds.with_holes) None = Ok (feePayer tx))
  /\
  (exists tx bytes,
     serialize (Worlds.library Worlds.all_accounts)
               {| requireAllSignatures := false; verifySignatures := false |}
               tx = Ok bytes
     /\ "AQUAAAAAEg=="%string = base64 bytes
     /\ recentBlockhash tx = Worlds.blockhash
     /\ agent (Worlds.library Worlds.all_accounts) None = Ok (feePayer tx)).
Proof.
  split; [|split].
  - apply (executeSkill_returns_serialized_transaction
             (Worlds.library Worlds.all_accounts) Worlds.node None
             Worlds.raydium Worlds.meteora Worlds.blockhash).
    left. vm_compute. reflexivity.
  - apply (executeSkill_returns_serialized_transaction
             (Worlds.library Worlds.with_holes) Worlds.node None
             Worlds.raydium Worlds.meteora Worlds.blockhash).
    right; left. vm_compute. reflexivity.
  - apply (executeSkill_returns_serialized_transaction
             (Worlds.library Worlds.all_accounts) Worlds.node None
             Worlds.raydium Worlds.meteora Worlds.blockhash).
    right; right. vm_compute. reflexivity.
Defined.






(** C10.  In the swap instruction that step 2 or step 5 puts in its
    transaction, the only instruction made with [new TransactionInstruction],
    every key that is the agent's public key is a signer and writable,
    whatever flags the SDK reported for it. *)
Theorem swap_instruction_agent_is_writable_signer
    (lib : Library) (PAYER_PUBKEY : option string) (RAYDIUM : DexEnv.Raydium)
    (blockhash : string) (p : Prepared) (tx' : Transaction) :
  (Tx02.prepare lib PAYER_PUBKEY RAYDIUM blockhash = Ok p
   /\ Tx02.complete lib p = Ok tx')
  \/ (Tx05.prepare lib PAYER_PUBKEY RAYDIUM blockhash = Ok p
      /\ Tx05.complete lib p = Ok tx') ->
  exists programId keys,
    agent lib PAYER_PUBKEY = Ok (agentPubkey p)
    /\ custom_instructions tx' = [Custom programId keys (data (rawSwapIx p))]
    /\ forall key,
         In key keys ->
         pubkey key = agentPubkey p ->
         isSigner key = true /\ isWritable key = true.
Proof.
  intros [[Hp Hcomplete] | [Hp Hcomplete]].
  - destruct (tx02_prepare_ok lib _ _ _ _ Hp) as (Hagent & _ & _ & Hnone & _).
    destruct (tx02_complete_ok lib p tx' Hcomplete)
      as (keys & Hkeys & _ & _ & Hcustom).
    rewrite Hnone in Hcustom. do 2 eexists.
    split; [exact Hagent|]. split; [exact Hcustom|].
    intros key Hin Hkey.
    apply In_nth_error in Hin as [i Hi].
    destruct (proj2 (tx02_swapKeys_ok lib _ _ _ Hkeys) i key Hi)
      as (meta & _ & Hshape).
    destruct (lacks_pubkey meta).
    + destruct Hshape as [_ ->]. split; reflexivity.
    + subst key. apply normalized_agent. exact Hkey.
  - destruct (tx05_prepare_ok lib _ _ _ _ Hp) as (Hagent & _ & _ & Hnone & _).
    destruct (tx05_complete_ok lib p tx' Hcomplete)
      as (keys & Hkeys & _ & _ & Hcustom).
    rewrite Hnone in Hcustom. do 2 eexists.
    split; [exact Hagent|]. split; [exact Hcustom|].
    intros key Hin Hkey.
    apply tx05_swapKeys_ok in Hkeys. subst keys.
    apply in_map_iff in Hin as (meta & <- & _).
    apply normalized_agent. exact Hkey.
Qed.

Lemma swap_instruction_agent_is_writable_signer_witness :
  exists p tx' programId keys,
    Tx05.prepare (Worlds.library Worlds.all_accounts) None
                 Worlds.raydium Worlds.blockhash = Ok p
    /\ agent (Worlds.library Worlds.all_accounts) None = Ok (agentPubkey p)
    /\ custom_instructions tx' = [Custom programId keys (data (rawSwapIx p))]
    /\ forall key,
         In key keys ->
         pubkey key = agentPubkey p ->
         isSigner key = true /\ isWritable key = true.
Proof.
  let r := eval vm_compute in
      (Tx05.prepare (Worlds.library Worlds.all_accounts) None
                    Worlds.raydium Worlds.blockhash) in
  match r with
  | Ok ?p =>
      let c := eval vm_compute in
          (Tx05.complete (Worlds.library Worlds.all_accounts) p) in
      match c with
      | Ok ?tx' =>
          exists p, tx';
          assert (Hp : Tx05.prepare (Worlds.library Worlds.all_accounts) None
                                    Worlds.raydium Worlds.blockhash = Ok p)
            by (vm_compute; reflexivity);
          assert (Hc : Tx05.complete (Worlds.library Worlds.all_accounts) p
                       = Ok tx')
            by (vm_compute; reflexivity);
          destruct (swap_instruction_agent_is_writable_signer
                      (Worlds.library Worlds.all_accounts) None
                      Worlds.raydium Worlds.blockhash p tx'
                      (or_intror (conj Hp Hc)))
            as (programId & keys & Hagent & Hcustom & Hflags);
          exists programId, keys;
          (split; [exact Hp|]);
          (split; [exact Hagent|]);
          (split; [exact Hcustom | exact Hflags])
      end
  end.
Defined.

End BuilderClaims.

(* ===================================================================== *)
(** * Part XIV.  The retry loop: results                                  *)
(* ===================================================================== *)

Section DiscoverResults.
Import Js Solana Discover.
Local Open Scope list_scope.
Local Open Scope nat_scope.

Variable sdk : Dlmm.

Lemma actions_app (a b : list Event) :
  actions (a ++ b) = actions a ++ actions b.
Proof.
  induction a as [|e a IH]; [reflexivity|].
  destruct e; simpl; rewrite IH; reflexivity.
Qed.







(** ** The [while] loop *)

(** More fuel does not change the answer of a loop that has ended. *)
Lemma retry_loop_more_fuel (position : nat) (cand : string) (pk : PublicKey) :
  forall fuel fuel' retryCount st st',
    retry_loop sdk fuel position cand pk retryCount st = Some st' ->
    fuel <= fuel' ->
    retry_loop sdk fuel' position cand pk retryCount st = Some st'.
Proof.
  induction fuel as [|fuel IH]; intros fuel' retryCount st st' H Hle.
  - discriminate H.
  - destruct fuel' as [|fuel']; [lia|]. simpl in *.
    destruct ((retryCount <? MAX_RETRIES) && negb (found st)); [|exact H].
    destruct (attempt sdk pk (attempts st)); [exact H|].
    apply IH; [exact H | lia].
Qed.

(** The loop ends within the tests its counter leaves: with [n] attempts
    left it either succeeds after fewer than [n] failures or fails [n]
    times, pausing between the failures only. *)
Lemma retry_loop_run (position : nat) (cand : string) (pk : PublicKey) :
  forall n fuel retryCount st,
    found st = false ->
    retryCount + n = MAX_RETRIES ->
    n < fuel ->
    exists st',
      retry_loop sdk fuel position cand pk retryCount st = Some st'
      /\ ((found st' = true
           /\ exists k,
                k < n
                /\ actions (trace st')
                   = actions (trace st) ++ success_after position cand k)
          \/ (found st' = false
              /\ actions (trace st')
                 = actions (trace st) ++ failures position cand n)).
Proof.
  induction n as [|n IH]; intros fuel retryCount st Hfound Hcount Hfuel;
    (destruct fuel as [|fuel]; [lia|]); cbn [retry_loop].
  - replace (retryCount <? MAX_RETRIES) with false
      by (symmetry; apply Nat.ltb_ge; lia).
    cbn [andb]. exists st. split; [reflexivity|]. right.
    split; [exact Hfound|]. rewrite app_nil_r. reflexivity.
  - replace (retryCount <? MAX_RETRIES) with true
      by (symmetry; apply Nat.ltb_lt; lia).
    rewrite Hfound. cbn [negb andb].
    destruct (attempt sdk pk (attempts st)) as [vars|inner].
    + eexists. split; [reflexivity|]. left. split; [reflexivity|].
      exists 0. split; [lia|].
      simpl. rewrite actions_app. reflexivity.
    + destruct (IH fuel (S retryCount)
                   (failed_state st position cand (S retryCount) inner))
        as (st' & Hloop & Hshape);
        [exact Hfound | lia | lia |].
      exists st'. split; [exact Hloop|].
      assert (Htrace :
        actions (trace (failed_state st position cand (S retryCount) inner))
        = actions (trace st)
          ++ Attempt position cand false
             :: (if S retryCount <? MAX_RETRIES
                 then [Sleep RETRY_DELAY_MS] else [])).
      { simpl. rewrite actions_app. simpl.
        destruct (S retryCount <? MAX_RETRIES); reflexivity. }
      destruct Hshape as [(Hf & k & Hk & Hacts) | (Hf & Hacts)].
      * left. split; [exact Hf|]. exists (S k). split; [lia|].
        rewrite Hacts, Htrace.
        replace (S retryCount <? MAX_RETRIES) with true
          by (symmetry; apply Nat.ltb_lt; lia).
        rewrite <- app_assoc. reflexivity.
      * right. split; [exact Hf|].
        rewrite Hacts, Htrace. rewrite <- app_assoc.
        destruct n as [|m].
        -- replace (S retryCount <? MAX_RETRIES) with false
             by (symmetry; apply Nat.ltb_ge; lia).
           reflexivity.
        -- replace (S retryCount <? MAX_RETRIES) with true
             by (symmetry; apply Nat.ltb_lt; lia).
           reflexivity.
Qed.

(** ** The [for] loop over the candidates *)

Lemma candidates_loop_more_fuel :
  forall cands fuel fuel' position st r,
    candidates_loop sdk fuel cands position st = Some r ->
    fuel <= fuel' ->
    candidates_loop sdk fuel' cands position st = Some r.
Proof.
  induction cands as [|cand rest IH]; intros fuel fuel' position st r H Hle;
    cbn [candidates_loop] in *.
  - exact H.
  - destruct (new_PublicKey (stack sdk) cand) as [pk|e]; [|exact H].
    destruct (retry_loop sdk fuel position cand pk 0 st) as [st'|] eqn:Hloop;
      [|discriminate H].
    rewrite (retry_loop_more_fuel _ _ _ _ _ _ _ _ Hloop Hle).
    destruct (found st'); [exact H|].
    exact (IH _ _ _ _ _ H Hle).
Qed.

(** The candidates are given up one after the other until one answers, one
    is no public key, or none is left. *)
Lemma candidates_loop_run :
  forall cands fuel position st,
    found st = false ->
    MAX_RETRIES < fuel ->
    exists st' result tried rest,
      cands = tried ++ rest
      /\ candidates_loop sdk fuel cands position st = Some (st', result)
      /\ ((found st' = true
           /\ result = Ok tt
           /\ exists cand rest' k,
                rest = cand :: rest'
                /\ k < MAX_RETRIES
                /\ actions (trace st')
                   = actions (trace st)
                     ++ exhausted_all tried position
                     ++ success_after (position + List.length tried) cand k)
          \/ (found st' = false
              /\ actions (trace st')
                 = actions (trace st) ++ exhausted_all tried position
              /\ ((rest = [] /\ result = Ok tt)
                  \/ exists cand rest' e,
                       rest = cand :: rest'
                       /\ new_PublicKey (stack sdk) cand = Throw e
                       /\ result = Throw e))).
Proof.
  induction cands as [|cand cands IH]; intros fuel position st Hfound Hfuel;
    cbn [candidates_loop].
  - exists st, (Ok tt), [], []. split; [reflexivity|]. split; [reflexivity|].
    right. split; [exact Hfound|]. cbn [exhausted_all]. rewrite app_nil_r.
    split; [reflexivity|]. left. split; reflexivity.
  - destruct (new_PublicKey (stack sdk) cand) as [pk|e] eqn:Hkey.
    + destruct (retry_loop_run position cand pk MAX_RETRIES fuel 0 st
                               Hfound eq_refl Hfuel)
        as (st1 & Hloop & [(Hf & k & Hk & Hacts) | (Hf & Hacts)]).
      * rewrite Hloop, Hf.
        exists st1, (Ok tt), [], (cand :: cands).
        split; [reflexivity|]. split; [reflexivity|].
        left. split; [exact Hf|]. split; [reflexivity|].
        exists cand, cands, k. split; [reflexivity|]. split; [exact Hk|].
        cbn [exhausted_all List.length app]. rewrite Nat.add_0_r. exact Hacts.
      * rewrite Hloop, Hf.
        destruct (IH fuel (S position) st1 Hf Hfuel)
          as (st' & result & tried & rest & Hsplit & Hrun & Hshape).
        exists st', result, (cand :: tried), rest.
        split; [rewrite Hsplit; reflexivity|]. split; [exact Hrun|].
        cbn [exhausted_all List.length].
        fold (exhausted position cand) in Hacts.
        destruct Hshape
          as [(Hf' & Hres & c & rest' & k & Hrest & Hk & Hacts')
             | (Hf' & Hacts' & Hend)].
        -- left. split; [exact Hf'|]. split; [exact Hres|].
           exists c, rest', k. split; [exact Hrest|]. split; [exact Hk|].
           rewrite Hacts', Hacts. rewrite <- !app_assoc.
           replace (position + S (List.length tried))
             with (S position + List.length tried) by lia.
           reflexivity.
        -- right. split; [exact Hf'|]. split; [|exact Hend].
           rewrite Hacts', Hacts. rewrite <- !app_assoc. reflexivity.
    + exists st, (Throw e), [], (cand :: cands).
      split; [reflexivity|]. split; [reflexivity|].
      right. split; [exact Hfound|]. cbn [exhausted_all]. rewrite app_nil_r.
      split; [reflexivity|]. right. exists cand, cands, e. auto.
Qed.

(** ** Pauses *)






End DiscoverResults.

Section DiscoverClaims.
Import Js Solana Discover.
Local Open Scope list_scope.
Local Open Scope nat_scope.



End DiscoverClaims.

(* ===================================================================== *)
(** * Part XV.  The replay driver: results                                *)
(* ===================================================================== *)

Section DriverResults.
Import Driver.
Local Open Scope list_scope.
Local Open Scope nat_scope.

Variable N : nat.

Lemma run_from_halted (states : list DriverState) :
  run_from N Halted states -> states = [].
Proof.
  intros H. inversion H as [|s s' rest Hstep _]; [reflexivity|].
  inversion Hstep.
Qed.

Lemma run_from_completed (states : list DriverState) :
  run_from N Completed states -> states = [].
Proof.
  intros H. inversion H as [|s s' rest Hstep _]; [reflexivity|].
  inversion Hstep.
Qed.

(** After a crash the driver can only halt. *)
Lemma run_from_crashed (i : nat) (states : list DriverState) :
  run_from N (Done i CrashedRemote) states ->
  states = [] \/ states = [Halted].
Proof.
  intros H. inversion H as [|s s' rest Hstep Hrest]; subst; [auto|].
  inversion Hstep; subst.
  - apply run_from_halted in Hrest. subst. auto.
  - congruence.
Qed.

(** The driver never goes back to an earlier step. *)
Lemma step_index (s s' : DriverState) (i j : nat) :
  step N s s' -> index s = Some i -> index s' = Some j -> i <= j.
Proof.
  intros Hstep Hi Hj.
  inversion Hstep; subst; simpl in *; try congruence;
    injection Hi as <-; injection Hj as <-; lia.
Qed.

Lemma step_keeps_index (s s' : DriverState) :
  step N s s' -> index s = None -> False.
Proof.
  intros Hstep Hi. inversion Hstep; subst; discriminate Hi.
Qed.

Lemma run_from_index (s : DriverState) (states : list DriverState) :
  run_from N s states ->
  forall i s' j,
    index s = Some i -> In s' states -> index s' = Some j -> i <= j.
Proof.
  induction 1 as [|s s1 rest Hstep Hrest IH]; intros i s' j Hi Hin Hj.
  - contradiction.
  - destruct Hin as [-> | Hin].
    + exact (step_index _ _ _ _ Hstep Hi Hj).
    + destruct (index s1) as [i1|] eqn:Hi1.
      * pose proof (step_index _ _ _ _ Hstep Hi Hi1).
        pose proof (IH i1 s' j eq_refl Hin Hj). lia.
      * inversion Hrest as [|? s2 ? Hstep2 _]; subst; [contradiction|].
        destruct (step_keeps_index _ _ Hstep2 Hi1).
Qed.

(** A run can be taken up from any state it goes through. *)
Lemma run_from_suffix (s : DriverState) (states : list DriverState) :
  run_from N s states ->
  forall k s',
    nth_error states k = Some s' -> run_from N s' (skipn (S k) states).
Proof.
  induction 1 as [|s s1 rest Hstep Hrest IH]; intros k s' Hk.
  - destruct k; discriminate Hk.
  - destruct k as [|k]; simpl in Hk.
    + injection Hk as <-. exact Hrest.
    + exact (IH k s' Hk).
Qed.

Lemma nth_error_skipn {A} (l : list A) (k m : nat) :
  nth_error (skipn k l) m = nth_error l (k + m).
Proof.
  revert l. induction k as [|k IH]; intros l; [reflexivity|].
  destruct l as [|x l]; [destruct m; reflexivity|]. exact (IH l).
Qed.

(** The driver as a function follows the transitions. *)
Lemma drive_run_from (runner : nat -> BuildAnswer)
    (gateway : nat -> SubmitAnswer) :
  forall fuel s, run_from N s (drive N runner gateway fuel s).
Proof.
  induction fuel as [|fuel IH]; intros s; cbn [drive]; [constructor|].
  destruct (next N runner gateway s) as [s'|] eqn:Hnext; [|constructor].
  constructor; [|exact (IH s')].
  destruct s as [i|i|i|i c| |]; cbn [next] in Hnext.
  - destruct (Nat.ltb_spec i N).
    + injection Hnext as <-. constructor. assumption.
    + destruct (Nat.eqb_spec i N); [|discriminate].
      injection Hnext as <-. subst. constructor.
  - destruct (runner i); injection Hnext as <-; constructor; solve [auto].
  - destruct (gateway i); injection Hnext as <-; constructor; solve [auto].
  - destruct (crashed c) eqn:Hc.
    + injection Hnext as <-. destruct c; try discriminate Hc. constructor.
    + destruct (Nat.leb_spec (S i) N); [|discriminate].
      injection Hnext as <-. constructor; [|assumption].
      intros ->. discriminate Hc.
  - discriminate.
  - discriminate.
Qed.

End DriverResults.

Section DriverClaims.
Import Driver.
Local Open Scope list_scope.
Local Open Scope nat_scope.

(** C8.  In every run of the driver from [Pending 0], if the outcome of
    step [i] is [CrashedRemote], then the state entered next, if any, is
    [Halted], no state is entered after it, and no step with an index above
    [i] is attempted anywhere in the run. *)
Theorem crash_halts_driver
    (N : nat) (states : list DriverState) (k i : nat) :
  run_from N (Pending 0) states ->
  nth_error states k = Some (Done i CrashedRemote) ->
  (forall s, nth_error states (S k) = Some s -> s = Halted)
  /\ (forall m, S k < m -> nth_error states m = None)
  /\ (forall j, attempted j states -> j <= i).
Proof.
  intros Hrun Hk.
  pose proof (run_from_suffix N _ _ Hrun k _ Hk) as Hafter.
  apply run_from_crashed in Hafter.
  assert (Hnext : forall m s, nth_error states (S k + m) = Some s ->
                              m = 0 /\ s = Halted).
  { intros m s Hm. rewrite <- nth_error_skipn in Hm.
    destruct Hafter as [Hafter | Hafter]; rewrite Hafter in Hm.
    - destruct m; discriminate Hm.
    - destruct m as [|m]; [injection Hm as <-; auto|].
      destruct m; discriminate Hm. }
  split; [|split].
  - intros s Hs. rewrite <- (Nat.add_0_r (S k)) in Hs.
    exact (proj2 (Hnext 0 s Hs)).
  - intros m Hm.
    destruct (nth_error states m) as [s|] eqn:Hs; [|reflexivity].
    replace m with (S k + (m - S k)) in Hs by lia.
    apply Hnext in Hs. lia.
  - intros j Hj. unfold attempted in Hj.
    apply In_nth_error in Hj as [m Hm].
    destruct (Nat.lt_trichotomy m k) as [Hlt | [-> | Hgt]].
    + pose proof (run_from_suffix N _ _ Hrun m _ Hm) as Hlater.
      apply (run_from_index N _ _ Hlater j (Done i CrashedRemote) i);
        [reflexivity | | reflexivity].
      apply (nth_error_In _ (k - S m)).
      rewrite nth_error_skipn.
      replace (S m + (k - S m)) with k by lia. exact Hk.
    + congruence.
    + replace m with (S k + (m - S k)) in Hm by lia.
      apply Hnext in Hm as [_ Hm]. discriminate Hm.
Qed.

(** The replay of the reproduction: five steps, the second of which does
    not build and the fifth of which crashes the node. *)
Example replay_of_the_reproduction :
  report (drive 5 Worlds.runner (Worlds.gateway 4) 40 (Pending 0))
  = [Confirmed; BuildFailed; Confirmed; Confirmed; CrashedRemote]
  /\ last (drive 5 Worlds.runner (Worlds.gateway 4) 40 (Pending 0)) Completed
     = Halted.
Proof. split; reflexivity. Qed.

Lemma crash_halts_driver_witness :
  let states :=
    drive 5 Worlds.runner (Worlds.gateway 2) 40 (Pending 0) in
  (forall s, nth_error states 10 = Some s -> s = Halted)
  /\ (forall m, 10 < m -> nth_error states m = None)
  /\ (forall j, attempted j states -> j <= 2).
Proof.
  exact (crash_halts_driver
           5 (drive 5 Worlds.runner (Worlds.gateway 2) 40 (Pending 0)) 9 2
           (drive_run_from 5 Worlds.runner (Worlds.gateway 2) 40 (Pending 0))
           eq_refl).
Defined.

End DriverClaims.

(* ===================================================================== *)
(** * Part XVI.  The Step Runner: further results                         *)
(* ===================================================================== *)

Section RunnerFurther.
Import Js Runner Reading.

(** The failure response always opens with [success: false]. *)
Lemma failure_response_opens (host : Host) (error r : Val) :
  failure_response host error = Ok r ->
  exists rest, r = Obj Plain (("success", Boolean false) :: rest).
Proof.
  unfold failure_response.
  destruct (describe error) as [errorMessage errorDetails].
  destruct (map_errors host error) as [errors|e]; [|discriminate].
  cbn [bind]. intros H. injection H as <-. eauto.
Qed.

(** The [catch] block never reports a success. *)
Lemma catch_block_fails (host : Host) (t : Z) (error : Val) :
  exit (catch_block host t error) <> ExitCode 0
  /\ (stdout (catch_block host t error) = []
      \/ exists fields,
           stdout (catch_block host t error) = [JsonLine (JObj fields)]
           /\ field fields "success" = Some (JBool false)).
Proof.
  unfold catch_block.
  destruct (failure_response host error) as [r|e] eqn:Hr.
  - destruct (failure_response_opens _ _ _ Hr) as [rest ->].
    cbn [stdout exit]. split; [discriminate|]. right.
    unfold log_json. cbn [to_json enumerable].
    eexists. split; reflexivity.
  - cbn [stdout exit]. split; [discriminate | left; reflexivity].
Qed.

(** X1.  Whatever the arguments and the module, the exit code of the runner
    and the line it prints agree: the process ends with code 0 exactly when
    standard output holds one JSON object whose [success] is [true]; the
    runner prints at most one line on standard output, and an exit code it
    sets is 0 or 1. *)
Theorem runner_exit_code_tells_success (host : Host) (argv : list string) :
  let out := runTransaction host argv in
  (exit out = ExitCode 0 <->
   exists fields,
     stdout out = [JsonLine (JObj fields)]
     /\ field fields "success" = Some (JBool true))
  /\ (List.length (stdout out) <= 1)%nat
  /\ (forall code, exit out = ExitCode code -> code = 0%Z \/ code = 1%Z).
Proof.
  unfold runTransaction.
  destruct (absent (nth_error argv 2) || absent (nth_error argv 3)
            || absent (nth_error argv 4)).
  - cbn. split; [split|split].
    + discriminate.
    + intros (fields & H & _). discriminate H.
    + lia.
    + intros code H. injection H as <-. auto.
  - destruct (try_block host _ _ _) as [t [serialized_tx | error]].
    + cbn [stdout exit]. unfold log_json. cbn [to_json enumerable].
      split; [split|split].
      * intros _. destruct (to_json serialized_tx);
          eexists; split; reflexivity.
      * reflexivity.
      * cbn. lia.
      * intros code H. injection H as <-. auto.
    + destruct (catch_block_fails host t error) as [Hexit Hout].
      split; [split|split].
      * intros H. contradiction.
      * intros (fields & Hfields & Hsuccess).
        destruct Hout as [Hout | (fields' & Hout & Hfalse)];
          rewrite Hout in Hfields; [discriminate|].
        injection Hfields as <-. congruence.
      * destruct Hout as [-> | (fields & -> & _)]; cbn; lia.
      * intros code H. unfold catch_block in H.
        destruct (failure_response host error);
          cbn [exit] in H; [|discriminate].
        injection H as <-. auto.
Qed.

(** X2.  A build that settles only after the timer has fired is treated as
    one that never settles: whether it resolved or rejected, and
    whatever it carried, the runner prints the timeout failure at the
    instant the timer fires, with no [serialized_tx], and leaves with
    code 1. *)
Theorem late_result_is_a_timeout
    (host : Host) (argv : list string) (file ms blockhash : string)
    (txModule : Module_) (skill : string -> Settlement) (t : Z) (v : Val) :
  nth_error argv 2 = Some file ->
  nth_error argv 3 = Some ms ->
  nth_error argv 4 = Some blockhash ->
  file <> "" -> ms <> "" -> blockhash <> "" ->
  import host (path_resolve host file) = Ok txModule ->
  executeSkill txModule = Function skill ->
  skill blockhash = Resolves t v \/ skill blockhash = Rejects t v ->
  (timer_fires host (parseInt ms) < t)%Z ->
  let out := runTransaction host argv in
  settled_at out = timer_fires host (parseInt ms)
  /\ (exists fields,
        stdout out = [JsonLine (JObj fields)]
        /\ field fields "success" = Some (JBool false)
        /\ field fields "error" = Some (JStr timeout_message)
        /\ field fields "serialized_tx" = None)
  /\ stderr out = [Inspected (new_Error (stack host) timeout_message)]
  /\ exit out = ExitCode 1.
Proof.
  intros H2 H3 H4 Hfile Hms Hbh Himport Hexport Hskill Hlate out.
  subst out. unfold runTransaction. rewrite H2, H3, H4.
  rewrite !absent_some by assumption. cbn [orb text].
  unfold try_block. rewrite Himport, Hexport. unfold race.
  apply Z.leb_gt in Hlate.
  destruct Hskill as [-> | ->]; rewrite Hlate;
    unfold catch_block; cbn; repeat split;
    eexists; repeat split.
Qed.

Lemma late_result_is_a_timeout_witness :
  let out :=
    runTransaction (Worlds.host_with (fun _ => Resolves 30001 (Str "AQABAgM=")))
                   Worlds.argv_step5 in
  settled_at out = 30000%Z
  /\ (exists fields,
        stdout out = [JsonLine (JObj fields)]
        /\ field fields "success" = Some (JBool false)
        /\ field fields "error" = Some (JStr timeout_message)
        /\ field fields "serialized_tx" = None)
  /\ stderr out = [Inspected (new_Error Worlds.engine_stack timeout_message)]
  /\ exit out = ExitCode 1.
Proof.
  apply (late_result_is_a_timeout
           (Worlds.host_with (fun _ => Resolves 30001 (Str "AQABAgM=")))
           Worlds.argv_step5
           "transactions/tx_05_raydium_swap.ts" "30000"
           "4vJ9JU1bJJE96FWSJKvHsmmFADCg4gpZQff4P3bkLKi"
           {| executeSkill :=
                Function (fun _ => Resolves 30001 (Str "AQABAgM=")) |}
           (fun _ => Resolves 30001 (Str "AQABAgM=")) 30001 (Str "AQABAgM="));
    try reflexivity; try discriminate.
  left. reflexivity.
Defined.

(** X3.  When the imported module has no function [executeSkill], the
    runner neither calls anything nor arms the timer: at instant 0 it prints
    the failure whose [error] says that the function was not found and whose
    [type] is [Error], and leaves with code 1. *)
Theorem missing_export_is_reported
    (host : Host) (argv : list string) (file ms blockhash : string)
    (txModule : Module_) :
  nth_error argv 2 = Some file ->
  nth_error argv 3 = Some ms ->
  nth_error argv 4 = Some blockhash ->
  file <> "" -> ms <> "" -> blockhash <> "" ->
  import host (path_resolve host file) = Ok txModule ->
  executeSkill txModule = NotAFunction ->
  let out := runTransaction host argv in
  settled_at out = 0%Z
  /\ exit_at out = 0%Z
  /\ (exists fields,
        stdout out = [JsonLine (JObj fields)]
        /\ field fields "success" = Some (JBool false)
        /\ field fields "error" = Some (JStr missing_export_message)
        /\ field fields "type" = Some (JStr "Error")
        /\ field fields "errors" = None)
  /\ exit out = ExitCode 1.
Proof.
  intros H2 H3 H4 Hfile Hms Hbh Himport Hexport out.
  subst out. unfold runTransaction. rewrite H2, H3, H4.
  rewrite !absent_some by assumption. cbn [orb text].
  unfold try_block. rewrite Himport, Hexport.
  unfold catch_block. cbn. repeat split.
  eexists. repeat split.
Qed.

Lemma missing_export_is_reported_witness :
  let out :=
    runTransaction
      {| path_resolve := fun p => p;
         import := fun _ => Ok {| executeSkill := NotAFunction |};
         timer_fires := node_timer;
         stack := Worlds.engine_stack |}
      Worlds.argv_step5 in
  settled_at out = 0%Z
  /\ exit_at out = 0%Z
  /\ (exists fields,
        stdout out = [JsonLine (JObj fields)]
        /\ field fields "success" = Some (JBool false)
        /\ field fields "error" = Some (JStr missing_export_message)
        /\ field fields "type" = Some (JStr "Error")
        /\ field fields "errors" = None)
  /\ exit out = ExitCode 1.
Proof.
  apply (missing_export_is_reported
           {| path_resolve := fun p => p;
              import := fun _ => Ok {| executeSkill := NotAFunction |};
              timer_fires := node_timer;
              stack := Worlds.engine_stack |}
           Worlds.argv_step5
           "transactions/tx_05_raydium_swap.ts" "30000"
           "4vJ9JU1bJJE96FWSJKvHsmmFADCg4gpZQff4P3bkLKi"
           {| executeSkill := NotAFunction |});
    try reflexivity; discriminate.
Defined.

(** X4.  A thrown value that is no object (a string, a number, a boolean,
    [null], [undefined] or an array) is always answered with a failure line
    of exactly four fields: [success: false], the string itself as [error]
    when a string was thrown and the fixed text otherwise, the value as text
    in [details], and the type [UnknownError]; there is no [errors] field
    and the exit code is 1. *)
Theorem thrown_primitive_is_unknown_error
    (host : Host) (argv : list string) (t : Z) (error : Val) :
  absent (nth_error argv 2) || absent (nth_error argv 3)
  || absent (nth_error argv 4) = false ->
  try_block host (path_resolve host (text (nth_error argv 2)))
            (parseInt (text (nth_error argv 3))) (text (nth_error argv 4))
  = (t, Throw error) ->
  is_object error = false ->
  stdout (runTransaction host argv)
  = [JsonLine
       (JObj [("success", JBool false);
              ("error", JStr match error with
                             | Str s => s
                             | _ => "An unknown error occurred."
                             end);
              ("details", JStr (to_string error));
              ("type", JStr "UnknownError")])]
  /\ exit (runTransaction host argv) = ExitCode 1.
Proof.
  intros Hargs Htry Hprimitive.
  unfold runTransaction. rewrite Hargs, Htry.
  destruct error; try discriminate Hprimitive; split; reflexivity.
Qed.

Lemma thrown_primitive_is_unknown_error_witness :
  stdout (runTransaction (Worlds.host_with (fun _ => Rejects 12 (Str "boom")))
                         Worlds.argv_step5)
  = [JsonLine
       (JObj [("success", JBool false);
              ("error", JStr "boom");
              ("details", JStr "boom");
              ("type", JStr "UnknownError")])]
  /\ exit (runTransaction (Worlds.host_with (fun _ => Rejects 12 (Str "boom")))
                          Worlds.argv_step5) = ExitCode 1.
Proof.
  apply (thrown_primitive_is_unknown_error
           (Worlds.host_with (fun _ => Rejects 12 (Str "boom")))
           Worlds.argv_step5 12 (Str "boom"));
    reflexivity.
Defined.

Lemma truthy_to_json (v : Val) : truthy v = true -> to_json v <> None.
Proof. destruct v; simpl; congruence. Qed.

Lemma sub_error_has_message (e : Val) :
  exists j, to_json (sub_error e) = Some j /\ message_of j <> None.
Proof.
  unfold sub_error. cbn [to_json enumerable].
  assert (H : to_json (or_else (get_opt e "message") (Str (to_string e)))
              <> None).
  { unfold or_else.
    destruct (truthy (get_opt e "message")) eqn:Ht.
    - exact (truthy_to_json _ Ht).
    - discriminate. }
  destruct (to_json (or_else (get_opt e "message") (Str (to_string e))))
    as [j|]; [|contradiction].
  eexists. split; [reflexivity|]. cbn. discriminate.
Qed.

Lemma array_join_texts (es : list Val) :
  array_join nl
    (map (fun err => if truthy (get_opt err "message")
                     then get err "message" else Str (to_string err)) es)
  = join nl (map sub_error_text es).
Proof.
  unfold array_join. rewrite map_map. f_equal.
  apply map_ext. intros e. unfold sub_error_text.
  destruct (truthy (get_opt e "message")) eqn:Ht; [|reflexivity].
  assert (Hget : get_opt e "message" = get e "message").
  { unfold get_opt in *. destruct (nullish e); [discriminate Ht | reflexivity]. }
  rewrite Hget in Ht.
  destruct (get e "message"); try discriminate Ht; reflexivity.
Qed.

(** X5.  When the thrown value is named [AggregateError] and carries an
    array of sub-errors, the failure line has the type [AggregateError], its
    [details] holds one text per sub-error, joined by line feeds and in the
    order of the array, and its [errors] list has one entry per sub-error,
    each with a [message]. *)
Theorem aggregate_error_lists_every_sub_error
    (host : Host) (argv : list string) (t : Z) (error : Val)
    (es : list Val) :
  absent (nth_error argv 2) || absent (nth_error argv 3)
  || absent (nth_error argv 4) = false ->
  try_block host (path_resolve host (text (nth_error argv 2)))
            (parseInt (text (nth_error argv 3))) (text (nth_error argv 4))
  = (t, Throw error) ->
  get_opt error "name" = Str "AggregateError" ->
  get error "errors" = Arr es ->
  exists fields items,
    stdout (runTransaction host argv) = [JsonLine (JObj fields)]
    /\ field fields "type" = Some (JStr "AggregateError")
    /\ field fields "details" = Some (JStr (join nl (map sub_error_text es)))
    /\ field fields "errors" = Some (JArr items)
    /\ List.length items = List.length es
    /\ Forall (fun item => message_of item <> None) items
    /\ exit (runTransaction host argv) = ExitCode 1.
Proof.
  intros Hargs Htry Hname Herrors.
  assert (Hlistable : errors_listable error = true).
  { unfold errors_listable, get_opt in *.
    destruct (nullish error); [discriminate Hname|].
    rewrite Herrors. reflexivity. }
  destruct (runner_failure_line host argv t error Hargs Htry Hlistable)
    as (fields & Hout & _ & _ & Hdetails & Htype & Hlist & Hexit).
  exists fields.
  exists (map (fun x => match to_json x with Some j => j | None => JNull end)
              (map sub_error es)).
  split; [exact Hout|]. split.
  { rewrite Htype, Hname. reflexivity. }
  split.
  { rewrite Hdetails.
    replace (snd (describe error))
      with (map (fun err => if truthy (get_opt err "message")
                            then get err "message" else Str (to_string err)) es)
      by (unfold describe; rewrite Hname, Herrors; reflexivity).
    rewrite array_join_texts. reflexivity. }
  split; [rewrite (Hlist es Herrors); apply to_json_array|].
  split; [rewrite !length_map; reflexivity|].
  split; [|exact Hexit].
  rewrite Forall_map, Forall_map. apply Forall_forall. intros e _.
  destruct (sub_error_has_message e) as (j & -> & Hj). exact Hj.
Qed.

Lemma aggregate_error_lists_every_sub_error_witness :
  let error :=
    Obj (ErrorObj "AggregateError")
        [("message", Str "2 errors building tx.ts");
         ("errors",
          Arr [Obj Plain [("message", Str "Unexpected }"); ("line", Num 3);
                          ("column", Num 7); ("file", Str "tx.ts")];
               Str "Cannot find module"])] in
  let out := runTransaction (Worlds.host_with (fun _ => Rejects 5 error))
                            Worlds.argv_step5 in
  exists fields items,
    stdout out = [JsonLine (JObj fields)]
    /\ field fields "type" = Some (JStr "AggregateError")
    /\ field fields "details"
       = Some (JStr (join nl ["Unexpected }"; "Cannot find module"]))
    /\ field fields "errors" = Some (JArr items)
    /\ List.length items = 2%nat
    /\ Forall (fun item => message_of item <> None) items
    /\ exit out = ExitCode 1.
Proof.
  exact (aggregate_error_lists_every_sub_error
           (Worlds.host_with
              (fun _ =>
                 Rejects 5
                   (Obj (ErrorObj "AggregateError")
                      [("message", Str "2 errors building tx.ts");
                       ("errors",
                        Arr [Obj Plain [("message", Str "Unexpected }");
                                        ("line", Num 3); ("column", Num 7);
                                        ("file", Str "tx.ts")];
                             Str "Cannot find module"])])))
           Worlds.argv_step5 5 _ _ eq_refl eq_refl eq_refl eq_refl).
Defined.

End RunnerFurther.

(* ===================================================================== *)
(** * Part XVII.  The Step Modules: further results                       *)
(* ===================================================================== *)

Section BuilderFurther.
Import Js Solana Common Reading.
Local Open Scope js_scope.
Local Open Scope list_scope.

(** The visit stops at the first entry on which the callback throws, with
    the exception of that entry. *)
Lemma map_indexed_first_throw {A B} (f : A -> nat -> Result B) (l : list A) :
  forall index i x e,
    nth_error l i = Some x ->
    f x (index + i) = Throw e ->
    (forall j y, j < i -> nth_error l j = Some y ->
                 exists z, f y (index + j) = Ok z) ->
    map_indexed f l index = Throw e.
Proof.
  induction l as [|x0 rest IH]; intros index i x e Hx He Hbefore.
  - destruct i; discriminate.
  - cbn [map_indexed]. destruct i as [|i]; cbn [nth_error] in Hx.
    + injection Hx as ->. rewrite Nat.add_0_r in He. rewrite He. reflexivity.
    + destruct (Hbefore 0 x0 (Nat.lt_0_succ i) eq_refl) as [z Hz].
      rewrite Nat.add_0_r in Hz. rewrite Hz. cbn [bind].
      rewrite (IH (S index) i x e Hx).
      * reflexivity.
      * rewrite <- He. f_equal. lia.
      * intros j y Hj Hy.
        destruct (Hbefore (S j) y (proj1 (Nat.succ_lt_mono j i) Hj) Hy)
          as [z' Hz'].
        exists z'. rewrite <- Hz'. f_equal. lia.
Qed.

Lemma map_indexed_ext {A B} (f g : A -> nat -> Result B) (l : list A) :
  forall index,
    (forall i x, nth_error l i = Some x -> f x (index + i) = g x (index + i)) ->
    map_indexed f l index = map_indexed g l index.
Proof.
  induction l as [|x rest IH]; intros index H; [reflexivity|].
  cbn [map_indexed].
  pose proof (H 0 x eq_refl) as H0. rewrite Nat.add_0_r in H0. rewrite H0.
  rewrite (IH (S index)); [reflexivity|].
  intros i y Hy. pose proof (H (S i) y Hy) as Hi.
  replace (S index + i) with (index + S i) by lia. exact Hi.
Qed.

(** The visit does not look at the index when its callback does not. *)
Lemma map_indexed_shift {A B} (f : A -> Result B) (l : list A) :
  forall index index',
    map_indexed (fun x _ => f x) l index
    = map_indexed (fun x _ => f x) l index'.
Proof.
  induction l as [|x rest IH]; intros index index'; [reflexivity|].
  cbn [map_indexed]. rewrite (IH (S index) (S index')). reflexivity.
Qed.

(** X6.  When step 2 throws for a missing account, the error names the
    first offending place: if the SDK answered with a program address and
    the entry at index [i > 0] is the first one past index 0 without a
    pubkey, the entries before it being well formed, then [executeSkill]
    throws the Error whose message is
    [Raydium swap requires account index i, but builder returned none]. *)
Theorem tx02_error_names_first_missing_account
    (lib : Library) (PAYER_PUBKEY : option string) (RAYDIUM : DexEnv.Raydium)
    (blockhash : string) (p : Prepared) (i : nat) (meta : option RawMeta) :
  Tx02.prepare lib PAYER_PUBKEY RAYDIUM blockhash = Ok p ->
  lacks_program_address (rawSwapIx p) = false ->
  nth_error (accounts (rawSwapIx p)) i = Some meta ->
  lacks_pubkey meta = true ->
  i <> 0 ->
  (forall j m,
     j < i ->
     nth_error (accounts (rawSwapIx p)) j = Some m ->
     (j = 0 /\ lacks_pubkey m = true)
     \/ (lacks_pubkey m = false /\ valid_key (key_text m) = true)) ->
  Tx02.executeSkill lib PAYER_PUBKEY RAYDIUM blockhash
  = Throw (new_Error (Solana.stack lib) (Tx02.missing_account i)).
Proof.
  intros Hp Hprogram Hmeta Hlacks Hi Hbefore.
  unfold Tx02.executeSkill. rewrite Hp. cbn [bind].
  unfold Tx02.complete. rewrite Hprogram.
  unfold Tx02.swapKeys.
  rewrite (map_indexed_first_throw _ _ 0 i meta
             (new_Error (Solana.stack lib) (Tx02.missing_account i)) Hmeta).
  - reflexivity.
  - unfold Tx02.swapKey. rewrite Hlacks. cbn [Nat.add].
    destruct (Nat.eqb_spec i 0); [contradiction | reflexivity].
  - intros j m Hj Hm. unfold Tx02.swapKey. cbn [Nat.add].
    destruct (Hbefore j m Hj Hm) as [[-> Hl] | [Hl Hv]]; rewrite Hl.
    + cbn. eauto.
    + rewrite (as_account_meta_valid _ _ _ Hv). eauto.
Qed.

Lemma tx02_error_names_first_missing_account_witness :
  Tx02.executeSkill (Worlds.library Worlds.with_holes) None
                    Worlds.raydium Worlds.blockhash
  = Throw (new_Error Worlds.engine_stack (Tx02.missing_account 3)).
Proof.
  let r := eval vm_compute in
      (Tx02.prepare (Worlds.library Worlds.with_holes) None
                    Worlds.raydium Worlds.blockhash) in
  match r with
  | Ok ?p =>
      apply (tx02_error_names_first_missing_account
               (Worlds.library Worlds.with_holes) None
               Worlds.raydium Worlds.blockhash p 3 None);
      [ vm_compute; reflexivity | reflexivity | reflexivity | reflexivity
      | discriminate | ]
  end.
  intros j m Hj Hm.
  destruct j as [|[|[|j]]]; [| | |lia]; cbn in Hm; injection Hm as <-;
    [left | right | right]; split; reflexivity.
Defined.

(** X7.  The direction derived from the pool never mixes the two token
    slots: the mint, the vault and the token program of the input side come
    from one slot of the pool and those of the output side from the other.
    The input side is slot 0 exactly when [token0Mint] is the input mint;
    so the input side carries the input mint whenever the pool lists it,
    and is slot 1, unchecked, when the pool does not list it at all. *)
Theorem direction_keeps_slots_together
    (lib : Library) (RAYDIUM : DexEnv.Raydium) (INPUT_MINT : PublicKey)
    (d : Direction) :
  direction lib RAYDIUM INPUT_MINT = Ok d ->
  let input_side :=
    (toBase58 (inputTokenMint d), toBase58 (inputVault d),
     toBase58 (inputTokenProgram d)) in
  let output_side :=
    (toBase58 (outputTokenMint d), toBase58 (outputVault d),
     toBase58 (outputTokenProgram d)) in
  let slot0 :=
    (DexEnv.token0Mint RAYDIUM, DexEnv.token0Vault RAYDIUM,
     DexEnv.token0Program RAYDIUM) in
  let slot1 :=
    (DexEnv.token1Mint RAYDIUM, DexEnv.token1Vault RAYDIUM,
     DexEnv.token1Program RAYDIUM) in
  ((input_side = slot0 /\ output_side = slot1)
   \/ (input_side = slot1 /\ output_side = slot0))
  /\ (DexEnv.token0Mint RAYDIUM = toBase58 INPUT_MINT
      \/ DexEnv.token1Mint RAYDIUM = toBase58 INPUT_MINT ->
      inputTokenMint d = INPUT_MINT)
  /\ (DexEnv.token0Mint RAYDIUM <> toBase58 INPUT_MINT ->
      input_side = slot1 /\ output_side = slot0).
Proof.
  unfold direction. intros H.
  apply bind_ok in H as (iv & Hiv & H). apply new_PublicKey_ok in Hiv.
  apply bind_ok in H as (ov & Hov & H). apply new_PublicKey_ok in Hov.
  apply bind_ok in H as (ip & Hip & H). apply new_PublicKey_ok in Hip.
  apply bind_ok in H as (op & Hop & H). apply new_PublicKey_ok in Hop.
  apply bind_ok in H as (im & Him & H). apply new_PublicKey_ok in Him.
  apply bind_ok in H as (om & Hom & H). apply new_PublicKey_ok in Hom.
  injection H as <-. subst.
  cbn [inputTokenMint inputVault inputTokenProgram
       outputTokenMint outputVault outputTokenProgram toBase58].
  destruct INPUT_MINT as [input]. cbn [toBase58].
  destruct (String.eqb_spec (DexEnv.token0Mint RAYDIUM) input) as [Heq | Hne].
  - split; [left; split; reflexivity|]. split.
    + intros _. rewrite Heq. reflexivity.
    + intros Hne. contradiction.
  - split; [right; split; reflexivity|]. split.
    + intros [H0 | H1]; [contradiction | rewrite H1; reflexivity].
    + intros _. split; reflexivity.
Qed.

Lemma direction_keeps_slots_together_witness :
  exists d,
    direction (Worlds.library Worlds.all_accounts) Worlds.raydium
              {| toBase58 := USDC_MINT |} = Ok d
    /\ inputTokenMint d = {| toBase58 := USDC_MINT |}
    /\ (toBase58 (inputTokenMint d), toBase58 (inputVault d),
        toBase58 (inputTokenProgram d))
       = (DexEnv.token1Mint Worlds.raydium, DexEnv.token1Vault Worlds.raydium,
          DexEnv.token1Program Worlds.raydium).
Proof.
  let r := eval vm_compute in
      (direction (Worlds.library Worlds.all_accounts) Worlds.raydium
                 {| toBase58 := USDC_MINT |}) in
  match r with
  | Ok ?d =>
      exists d;
      assert (Hd : direction (Worlds.library Worlds.all_accounts)
                             Worlds.raydium {| toBase58 := USDC_MINT |} = Ok d)
        by (vm_compute; reflexivity);
      destruct (direction_keeps_slots_together _ _ _ _ Hd)
        as (_ & Hlisted & Hslot1);
      split; [exact Hd|];
      split; [apply Hlisted; right; reflexivity
             | apply Hslot1; discriminate]
  end.
Defined.

(** What the instruction builder is asked. *)
Lemma swap_instruction_input (lib : Library) (RAYDIUM : DexEnv.Raydium)
    (agentPubkey inAta outAta : PublicKey) (d : Direction) (amount : Z)
    (raw : RawInstruction) :
  swap_instruction lib RAYDIUM agentPubkey inAta outAta d amount = Ok raw ->
  exists input,
    getSwapBaseInputInstruction lib input = Ok raw
    /\ payer input = agentPubkey
    /\ inputTokenAccount input = inAta
    /\ outputTokenAccount input = outAta
    /\ Solana.inputTokenMint input = inputTokenMint d
    /\ Solana.outputTokenMint input = outputTokenMint d
    /\ amountIn input = amount
    /\ minimumAmountOut input = 0%Z.
Proof.
  unfold swap_instruction. intros H.
  do 4 (apply bind_ok in H as (? & _ & H)).
  eexists. split; [exact H|]. repeat split.
Qed.

(** X8.  Step 5 wraps exactly what it swaps: once built, its transaction
    holds eight instructions in this order: the two compute-budget
    instructions, the creation of the input and of the output token
    account, the transfer of lamports to the input account, its
    synchronisation, the swap and the closing of the input account; and the
    lamports transferred are the [amountIn] that the instruction builder was
    given, together with a [minimumAmountOut] of zero and the agent as
    payer. *)
Theorem tx05_wraps_what_it_swaps
    (lib : Library) (PAYER_PUBKEY : option string) (RAYDIUM : DexEnv.Raydium)
    (blockhash : string) (p : Prepared) (tx' : Transaction) :
  Tx05.prepare lib PAYER_PUBKEY RAYDIUM blockhash = Ok p ->
  Tx05.complete lib p = Ok tx' ->
  exists input keys,
    getSwapBaseInputInstruction lib input = Ok (rawSwapIx p)
    /\ payer input = agentPubkey p
    /\ inputTokenAccount input = inAta p
    /\ outputTokenAccount input = outAta p
    /\ minimumAmountOut input = 0%Z
    /\ instructions tx'
       = [SetComputeUnitLimit 600000;
          SetComputeUnitPrice 150000;
          CreateAssociatedTokenAccountIdempotent
            (agentPubkey p) (inAta p) (agentPubkey p)
            (inputTokenMint (mints p)) (inputTokenProgram (mints p));
          CreateAssociatedTokenAccountIdempotent
            (agentPubkey p) (outAta p) (agentPubkey p)
            (outputTokenMint (mints p)) (outputTokenProgram (mints p));
          Transfer (agentPubkey p) (inAta p) (amountIn input);
          SyncNative (inAta p) None;
          Custom {| toBase58 := program_address_text (rawSwapIx p) |}
                 keys (data (rawSwapIx p));
          CloseAccount (inAta p) (agentPubkey p) (agentPubkey p)].
Proof.
  unfold Tx05.prepare. intros H Hcomplete.
  apply bind_ok in H as (agentPubkey & _ & H).
  apply bind_ok in H as (OUTPUT_MINT & _ & H).
  apply bind_ok in H as (d & _ & H).
  apply bind_ok in H as (inAta & _ & H).
  apply bind_ok in H as (outAta & _ & H).
  cbv zeta in H.
  apply bind_ok in H as (raw & Hraw & H).
  injection H as <-.
  apply swap_instruction_input in Hraw
    as (input & Hsdk & Hpayer & Hin & Hout & _ & _ & Hamount & Hmin).
  unfold Tx05.complete in Hcomplete.
  cbn [Common.agentPubkey Common.inAta Common.outAta mints tx rawSwapIx]
    in Hcomplete |- *.
  destruct (lacks_program_address raw); [discriminate|].
  apply bind_ok in Hcomplete as (keys & _ & Hcomplete).
  apply bind_ok in Hcomplete as (programId & Hprogram & Hcomplete).
  apply new_PublicKey_ok in Hprogram as ->.
  injection Hcomplete as <-.
  exists input, keys. rewrite Hamount.
  repeat split; assumption.
Qed.

Lemma tx05_wraps_what_it_swaps_witness :
  exists p tx' input keys,
    Tx05.prepare (Worlds.library Worlds.all_accounts) None
                 Worlds.raydium Worlds.blockhash = Ok p
    /\ payer input = agentPubkey p
    /\ minimumAmountOut input = 0%Z
    /\ nth_error (instructions tx') 4
       = Some (Transfer (agentPubkey p) (inAta p) (amountIn input))
    /\ nth_error (instructions tx') 6
       = Some (Custom {| toBase58 := program_address_text (rawSwapIx p) |}
                      keys (data (rawSwapIx p)))
    /\ List.length (instructions tx') = 8.
Proof.
  let r := eval vm_compute in
      (Tx05.prepare (Worlds.library Worlds.all_accounts) None
                    Worlds.raydium Worlds.blockhash) in
  match r with
  | Ok ?p =>
      let c := eval vm_compute in
          (Tx05.complete (Worlds.library Worlds.all_accounts) p) in
      match c with
      | Ok ?tx' =>
          exists p, tx';
          assert (Hp : Tx05.prepare (Worlds.library Worlds.all_accounts) None
                                    Worlds.raydium Worlds.blockhash = Ok p)
            by (vm_compute; reflexivity);
          assert (Hc : Tx05.complete (Worlds.library Worlds.all_accounts) p
                       = Ok tx')
            by (vm_compute; reflexivity);
          destruct (tx05_wraps_what_it_swaps _ _ _ _ p tx' Hp Hc)
            as (input & keys & _ & Hpayer & _ & _ & Hmin & Hshape);
          exists input, keys;
          rewrite Hshape;
          repeat split; assumption
      end
  end.
Defined.

(** X9.  Step 2 closes exactly what it wraps: once built, its transaction
    holds the two compute-budget instructions, the creation of the input
    and of the output token account and the swap; when the output mint is
    the native mint, and only then, one lamport is transferred to the
    output account and the account synchronised before the swap, and the
    account is closed after it. *)
Theorem tx02_closes_what_it_wraps
    (lib : Library) (PAYER_PUBKEY : option string) (RAYDIUM : DexEnv.Raydium)
    (blockhash : string) (p : Prepared) (tx' : Transaction) :
  Tx02.prepare lib PAYER_PUBKEY RAYDIUM blockhash = Ok p ->
  Tx02.complete lib p = Ok tx' ->
  let native := equals (outputTokenMint (mints p)) NATIVE_MINT in
  exists keys,
    instructions tx'
    = [SetComputeUnitLimit 500000;
       SetComputeUnitPrice 200000;
       CreateAssociatedTokenAccountIdempotent
         (agentPubkey p) (inAta p) (agentPubkey p)
         (inputTokenMint (mints p)) (inputTokenProgram (mints p));
       CreateAssociatedTokenAccountIdempotent
         (agentPubkey p) (outAta p) (agentPubkey p)
         (outputTokenMint (mints p)) (outputTokenProgram (mints p))]
      ++ (if native
          then [Transfer (agentPubkey p) (outAta p) 1;
                SyncNative (outAta p) None]
          else [])
      ++ [Custom {| toBase58 := program_address_text (rawSwapIx p) |}
                 keys (data (rawSwapIx p))]
      ++ (if native
          then [CloseAccount (outAta p) (agentPubkey p) (agentPubkey p)]
          else []).
Proof.
  unfold Tx02.prepare. intros H Hcomplete.
  apply bind_ok in H as (agentPubkey & _ & H).
  apply bind_ok in H as (INPUT_MINT & _ & H).
  apply bind_ok in H as (d & _ & H).
  apply bind_ok in H as (inAta & _ & H).
  apply bind_ok in H as (outAta & _ & H).
  cbv zeta in H.
  apply bind_ok in H as (raw & _ & H).
  injection H as <-.
  unfold Tx02.complete in Hcomplete.
  cbn [Common.agentPubkey Common.inAta Common.outAta mints tx rawSwapIx]
    in Hcomplete |- *.
  destruct (lacks_program_address raw); [discriminate|].
  apply bind_ok in Hcomplete as (keys & _ & Hcomplete).
  apply bind_ok in Hcomplete as (programId & Hprogram & Hcomplete).
  apply new_PublicKey_ok in Hprogram as ->.
  injection Hcomplete as <-.
  exists keys.
  destruct (equals (outputTokenMint d) NATIVE_MINT); reflexivity.
Qed.

Lemma tx02_closes_what_it_wraps_witness :
  exists p tx',
    Tx02.prepare (Worlds.library Worlds.all_accounts) None
                 Worlds.raydium Worlds.blockhash = Ok p
    /\ Tx02.complete (Worlds.library Worlds.all_accounts) p = Ok tx'
    /\ equals (outputTokenMint (mints p)) NATIVE_MINT = true
    /\ nth_error (instructions tx') 4
       = Some (Transfer (agentPubkey p) (outAta p) 1)
    /\ nth_error (instructions tx') 7
       = Some (CloseAccount (outAta p) (agentPubkey p) (agentPubkey p)).
Proof.
  let r := eval vm_compute in
      (Tx02.prepare (Worlds.library Worlds.all_accounts) None
                    Worlds.raydium Worlds.blockhash) in
  match r with
  | Ok ?p =>
      let c := eval vm_compute in
          (Tx02.complete (Worlds.library Worlds.all_accounts) p) in
      match c with
      | Ok ?tx' =>
          exists p, tx';
          assert (Hp : Tx02.prepare (Worlds.library Worlds.all_accounts) None
                                    Worlds.raydium Worlds.blockhash = Ok p)
            by (vm_compute; reflexivity);
          assert (Hc : Tx02.complete (Worlds.library Worlds.all_accounts) p
                       = Ok tx')
            by (vm_compute; reflexivity);
          destruct (tx02_closes_what_it_wraps _ _ _ _ p tx' Hp Hc)
            as (keys & Hshape);
          rewrite Hshape;
          repeat split; assumption
      end
  end.
Defined.

Lemma filter_all {A} (f : A -> bool) (l : list A) :
  (forall x, In x l -> f x = true) -> filter f l = l.
Proof.
  induction l as [|x l IH]; intros H; [reflexivity|].
  cbn [filter]. rewrite (H x (or_introl eq_refl)).
  rewrite IH; [reflexivity|]. intros y Hy. apply H. right. exact Hy.
Qed.

(** X10.  Steps 2 and 5 build the same keys from an answer of the SDK whose
    entries all have a pubkey, the first apart; when the first entry has
    none, step 2 puts the agent, as a writable signer, in its place and
    step 5 leaves the place out, so that the list of step 2 is the one of
    step 5 with the agent in front. *)
Theorem raydium_steps_agree_on_keys
    (lib : Library) (agentPubkey : PublicKey) (first : option RawMeta)
    (others : list (option RawMeta)) :
  (forall meta, In meta others -> lacks_pubkey meta = false) ->
  Tx02.swapKeys lib agentPubkey (first :: others)
  = if lacks_pubkey first
    then keys <- Tx05.swapKeys lib agentPubkey (first :: others) ;;
         Ok (agent_meta agentPubkey :: keys)
    else Tx05.swapKeys lib agentPubkey (first :: others).
Proof.
  intros Hothers.
  assert (Hrest : forall index,
    map_indexed (Tx02.swapKey lib agentPubkey) others index
    = map_indexed (fun meta _ => as_account_meta lib agentPubkey meta)
                  others 0).
  { intros index.
    rewrite (map_indexed_shift (as_account_meta lib agentPubkey) others 0 index).
    apply map_indexed_ext. intros i meta Hmeta. unfold Tx02.swapKey.
    rewrite (Hothers meta (nth_error_In _ _ Hmeta)). reflexivity. }
  unfold Tx02.swapKeys, Tx05.swapKeys. cbn [map_indexed filter].
  rewrite Hrest.
  rewrite (filter_all _ others)
    by (intros meta Hmeta; rewrite (Hothers meta Hmeta); reflexivity).
  unfold Tx02.swapKey at 1.
  destruct (lacks_pubkey first); cbn [negb Nat.eqb bind map_indexed].
  - reflexivity.
  - rewrite (map_indexed_shift (as_account_meta lib agentPubkey) others 1 0).
    reflexivity.
Qed.

Lemma raydium_steps_agree_on_keys_witness :
  let agentPubkey := {| toBase58 := DEFAULT_PAYER |} in
  let lib := Worlds.library Worlds.all_accounts in
  let missing :=
    Some {| raw_pubkey := None;
            raw_isSigner := Undefined;
            raw_isWritable := Undefined |} in
  let others := [Worlds.entry NATIVE_MINT false true;
                 Worlds.entry agentPubkey false false] in
  Tx02.swapKeys lib agentPubkey (missing :: others)
  = Ok [agent_meta agentPubkey;
        {| pubkey := NATIVE_MINT; isSigner := false; isWritable := true |};
        agent_meta agentPubkey]
  /\ Tx05.swapKeys lib agentPubkey (missing :: others)
     = Ok [{| pubkey := NATIVE_MINT; isSigner := false; isWritable := true |};
           agent_meta agentPubkey].
Proof.
  intros agentPubkey lib missing others.
  assert (Hothers : forall meta, In meta others -> lacks_pubkey meta = false)
    by (intros meta [<- | [<- | []]]; reflexivity).
  pose proof (raydium_steps_agree_on_keys lib agentPubkey missing others
                                          Hothers) as H.
  assert (H5 : Tx05.swapKeys lib agentPubkey (missing :: others)
               = Ok [{| pubkey := NATIVE_MINT; isSigner := false;
                        isWritable := true |};
                     agent_meta agentPubkey])
    by (vm_compute; reflexivity).
  split; [|exact H5].
  rewrite H, H5. reflexivity.
Defined.

End BuilderFurther.

(** ** The Meteora step *)

Section MeteoraFurther.
Import Js Solana Common.
Local Open Scope js_scope.
Local Open Scope list_scope.

(** One step through a builder that has returned: the call that answered
    is kept with its answer. *)
Ltac returned H :=
  first
    [ apply bind_ok in H as (? & ? & H); cbv beta zeta in H
    | match type of H with
      | match ?x with _ => _ end = Ok _ =>
          destruct x eqn:?; try discriminate H
      end ].

Ltac keys_known :=
  repeat match goal with
         | Hk : new_PublicKey _ _ = Ok _ |- _ =>
             apply new_PublicKey_ok in Hk; subst
         | Hk : agent _ _ = Ok _ |- _ =>
             unfold agent in Hk; apply new_PublicKey_ok in Hk; subst
         end.

Lemma map_indexed_keys {B} (stack : string -> string) (g : PublicKey -> B)
    (l : list string) :
  forall index r,
    map_indexed (fun pk _ => k <- new_PublicKey stack pk ;; Ok (g k)) l index
    = Ok r ->
    r = map (fun s => g {| toBase58 := s |}) l.
Proof.
  induction l as [|s l IH]; intros index r H; cbn [map_indexed] in H.
  - injection H as <-. reflexivity.
  - apply bind_ok in H as (y & Hy & H).
    apply bind_ok in Hy as (k & Hk & Hy).
    apply new_PublicKey_ok in Hk as ->. injection Hy as <-.
    apply bind_ok in H as (ys & Hys & H). injection H as <-.
    cbn [map]. f_equal. exact (IH _ _ Hys).
Qed.

(** X11.  In the transaction of the Meteora step there is one instruction of
    the DLMM program.  Its keys are the sixteen fixed accounts followed by
    the first four bin arrays of [METEORA.binArrays] at most, all writable
    and none a signer; the only signer among the keys is the agent, at
    index 10, and there the agent is not writable. *)
Theorem meteora_swap_keys
    (lib : Library) (node : TxMeteora.Node) (PAYER_PUBKEY : option string)
    (METEORA : DexEnv.Meteora) (blockhash : string) (tx : Transaction) :
  TxMeteora.buildTransaction lib node PAYER_PUBKEY METEORA blockhash = Ok tx ->
  let binArrayPubkeys :=
    match DexEnv.binArrays METEORA with
    | Some l => l
    | None => []
    end in
  exists keys data,
    custom_instructions tx
    = [Custom {| toBase58 := DexEnv.programId METEORA |} keys data]
    /\ List.length keys = 16 + Nat.min 4 (List.length binArrayPubkeys)
    /\ nth_error keys 10
       = Some {| pubkey := feePayer tx; isSigner := true; isWritable := false |}
    /\ (forall i m, nth_error keys i = Some m -> isSigner m = true -> i = 10)
    /\ skipn 16 keys
       = map (fun pk => TxMeteora.plain {| toBase58 := pk |} true)
             (firstn 4 binArrayPubkeys).
Proof.
  intros H bins. unfold TxMeteora.buildTransaction in H.
  repeat returned H.
  match goal with
  | Hr : TxMeteora.remaining_accounts _ _ = Ok ?r |- _ =>
      assert (Hremaining :
        r = map (fun pk => TxMeteora.plain {| toBase58 := pk |} true)
                (firstn 4 bins))
        by exact (map_indexed_keys _ _ _ _ _ Hr);
      clear Hr
  end.
  keys_known. injection H as <-.
  match goal with
  | |- context [Custom _ ?keys ?data] => exists keys, data
  end.
  split.
  { unfold custom_instructions.
    match goal with
    | |- context [if ?c then _ else _] => destruct c
    end; cbn; reflexivity. }
  split.
  { cbn [List.length app]. rewrite length_map.
    destruct bins as [|? [|? [|? [|? [|? ?]]]]]; reflexivity. }
  split.
  { match goal with
    | |- context [if ?c then _ else _] => destruct c
    end; reflexivity. }
  split.
  { intros i m Hm Hs.
    do 16 (destruct i as [|i];
           [cbn in Hm; injection Hm as <-; cbn in Hs;
            first [discriminate Hs | reflexivity]|]).
    cbn in Hm. apply nth_error_In in Hm. apply in_map_iff in Hm as (s & <- & _).
    discriminate Hs. }
  reflexivity.
Qed.

Lemma meteora_swap_keys_witness :
  exists tx keys data,
    TxMeteora.buildTransaction (Worlds.library Worlds.all_accounts)
                               Worlds.node None Worlds.meteora
                               Worlds.blockhash = Ok tx
    /\ custom_instructions tx
       = [Custom {| toBase58 := DexEnv.programId Worlds.meteora |} keys data]
    /\ List.length keys = 18
    /\ nth_error keys 10
       = Some {| pubkey := {| toBase58 := DEFAULT_PAYER |};
                 isSigner := true; isWritable := false |}.
Proof.
  let r := eval vm_compute in
      (TxMeteora.buildTransaction (Worlds.library Worlds.all_accounts)
                                  Worlds.node None Worlds.meteora
                                  Worlds.blockhash) in
  match r with
  | Ok ?tx =>
      exists tx;
      assert (Htx : TxMeteora.buildTransaction
                      (Worlds.library Worlds.all_accounts)
                      Worlds.node None Worlds.meteora
                      Worlds.blockhash = Ok tx)
        by (vm_compute; reflexivity);
      destruct (meteora_swap_keys _ _ _ _ _ tx Htx)
        as (keys & data & Hcustom & Hlength & Hagent & _);
      exists keys, data;
      repeat split; assumption
  end.
Defined.

(** X12.  The Meteora step never pays in wrapped SOL unless both mints of
    the pair are the native mint: when the mint X of the decoded pair is
    the native mint the step swaps Y for X, otherwise it swaps X for Y, so
    its input mint is not the native mint, nothing is transferred to the
    input account, no account is synchronised or closed, and the
    transaction holds five instructions, the swap last. *)
Theorem meteora_wraps_for_native_pairs_only
    (lib : Library) (node : TxMeteora.Node) (PAYER_PUBKEY : option string)
    (METEORA : DexEnv.Meteora) (blockhash : string) (tx : Transaction)
    (lbPairInfo : TxMeteora.AccountInfo) (lb : TxMeteora.LbPair) :
  TxMeteora.getAccountInfo node {| toBase58 := DexEnv.lbPair METEORA |}
  = Ok (Some lbPairInfo) ->
  TxMeteora.decodeLbPair node (TxMeteora.info_data lbPairInfo) = Ok lb ->
  ~ (TxMeteora.tokenXMint lb = toBase58 NATIVE_MINT
     /\ TxMeteora.tokenYMint lb = toBase58 NATIVE_MINT) ->
  TxMeteora.buildTransaction lib node PAYER_PUBKEY METEORA blockhash = Ok tx ->
  let swapYtoX := TxMeteora.tokenXMint lb =? toBase58 NATIVE_MINT in
  let inMint :=
    {| toBase58 := if swapYtoX then TxMeteora.tokenYMint lb
                   else TxMeteora.tokenXMint lb |} in
  let outMint :=
    {| toBase58 := if swapYtoX then TxMeteora.tokenXMint lb
                   else TxMeteora.tokenYMint lb |} in
  inMint <> NATIVE_MINT
  /\ exists inAta inProgramId outAta outProgramId keys data,
       instructions tx
       = [SetComputeUnitLimit 800000;
          SetComputeUnitPrice 250000;
          CreateAssociatedTokenAccountIdempotent
            (feePayer tx) inAta (feePayer tx) inMint inProgramId;
          CreateAssociatedTokenAccountIdempotent
            (feePayer tx) outAta (feePayer tx) outMint outProgramId;
          Custom {| toBase58 := DexEnv.programId METEORA |} keys data].
Proof.
  intros Hinfo Hlb Hpair H swapYtoX inMint outMint.
  assert (Hin : equals inMint NATIVE_MINT = false).
  { unfold inMint, swapYtoX, equals. cbn [toBase58].
    destruct (String.eqb_spec (TxMeteora.tokenXMint lb) (toBase58 NATIVE_MINT))
      as [HX | HX].
    - destruct (String.eqb_spec (TxMeteora.tokenYMint lb)
                                (toBase58 NATIVE_MINT)) as [HY | HY];
        [exfalso; auto | reflexivity].
    - apply String.eqb_neq. exact HX. }
  split.
  { intros Heq. apply equals_eq in Heq. congruence. }
  unfold TxMeteora.buildTransaction in H.
  repeat returned H. keys_known.
  repeat match goal with
         | Hq : TxMeteora.getAccountInfo node
                  {| toBase58 := DexEnv.lbPair METEORA |} = _ |- _ =>
             rewrite Hinfo in Hq; injection Hq as <-
         | Hq : TxMeteora.decodeLbPair node (TxMeteora.info_data lbPairInfo)
                = _ |- _ =>
             rewrite Hlb in Hq; injection Hq as <-
         end.
  injection H as <-.
  unfold inMint, outMint, swapYtoX, equals in *.
  cbn [toBase58 NATIVE_MINT] in *.
  destruct (TxMeteora.tokenXMint lb =? "So11111111111111111111111111111111111111112")
    eqn:HX; cbn [toBase58] in *; rewrite Hin;
    cbn [instructions feePayer add new_Transaction app];
    do 6 eexists; reflexivity.
Qed.


Lemma meteora_wraps_for_native_pairs_only_witness :
  exists tx,
    TxMeteora.buildTransaction (Worlds.library Worlds.all_accounts)
                               Worlds.node None Worlds.meteora
                               Worlds.blockhash = Ok tx
    /\ List.length (instructions tx) = 5
    /\ nth_error (instructions tx) 0 = Some (SetComputeUnitLimit 800000).
Proof.
  let i := eval vm_compute in
      (TxMeteora.getAccountInfo Worlds.node
         {| toBase58 := DexEnv.lbPair Worlds.meteora |}) in
  match i with
  | Ok (Some ?info) =>
      let d := eval vm_compute in
          (TxMeteora.decodeLbPair Worlds.node (TxMeteora.info_data info)) in
      match d with
      | Ok ?lb =>
          let r := eval vm_compute in
              (TxMeteora.buildTransaction
                 (Worlds.library Worlds.all_accounts)
                 Worlds.node None Worlds.meteora Worlds.blockhash) in
          match r with
          | Ok ?tx =>
              exists tx;
              assert (Htx : TxMeteora.buildTransaction
                              (Worlds.library Worlds.all_accounts)
                              Worlds.node None Worlds.meteora
                              Worlds.blockhash = Ok tx)
                by (vm_compute; reflexivity);
              assert (Hpair :
                ~ (TxMeteora.tokenXMint lb = toBase58 NATIVE_MINT
                   /\ TxMeteora.tokenYMint lb = toBase58 NATIVE_MINT))
                by (intros [_ HY]; vm_compute in HY; discriminate HY);
              destruct (meteora_wraps_for_native_pairs_only
                          (Worlds.library Worlds.all_accounts) Worlds.node
                          None Worlds.meteora Worlds.blockhash tx info lb
                          eq_refl eq_refl Hpair Htx)
                as (_ & inAta & inProgramId & outAta & outProgramId
                    & keys & data & Hshape);
              split; [exact Htx|];
              rewrite Hshape; split; reflexivity
          end
      end
  end.
Defined.

End MeteoraFurther.

(* ===================================================================== *)
(** * Part XVIII.  Pool discovery: further results                        *)
(* ===================================================================== *)

Section DiscoverFurther.
Import Js Solana Discover Reading.
Local Open Scope list_scope.
Local Open Scope nat_scope.

Variable sdk : Dlmm.

Lemma existsb_eqb_In (x : string) (seen : list string) :
  existsb (String.eqb x) seen = true <-> In x seen.
Proof.
  rewrite existsb_exists. split.
  - intros (y & Hy & Heq). apply String.eqb_eq in Heq. congruence.
  - intros Hin. exists x. split; [exact Hin | apply String.eqb_refl].
Qed.

Lemma dedupe_In (x : string) (xs : list string) :
  forall seen, In x (dedupe seen xs) <-> In x xs /\ ~ In x seen.
Proof.
  induction xs as [|y xs IH]; intros seen; cbn [dedupe].
  - cbn. tauto.
  - destruct (existsb (String.eqb y) seen) eqn:Hseen.
    + apply existsb_eqb_In in Hseen. rewrite IH. cbn [In].
      split; [tauto|]. intros [[-> | Hin] Hnot]; [contradiction | tauto].
    + assert (Hnew : ~ In y seen).
      { intros Hin. apply existsb_eqb_In in Hin. congruence. }
      cbn [In]. rewrite IH. cbn [In].
      destruct (String.eqb_spec y x) as [-> | Hne]; [tauto|].
      split; [tauto|]. intros [[Heq | Hin] Hnot]; [contradiction|].
      right. split; [exact Hin|]. intros [Heq | Hs]; contradiction.
Qed.

Lemma dedupe_NoDup (xs : list string) :
  forall seen, NoDup (dedupe seen xs).
Proof.
  induction xs as [|y xs IH]; intros seen; cbn [dedupe].
  - constructor.
  - destruct (existsb (String.eqb y) seen); [apply IH|].
    constructor; [|apply IH].
    rewrite dedupe_In. cbn [In]. tauto.
Qed.

Lemma present_In (s : string) (xs : list (option string)) :
  In s (present xs) <-> In (Some s) xs /\ s <> "".
Proof.
  induction xs as [|[y|] xs IH]; cbn [present In].
  - tauto.
  - destruct (String.eqb_spec y "") as [-> | Hne].
    + rewrite IH. split; [tauto|].
      intros [[Heq | Hin] Hs]; [congruence | tauto].
    + cbn [In]. rewrite IH. split.
      * intros [<- | [Hin Hs]]; [split; [left; reflexivity | exact Hne] | tauto].
      * intros [[Heq | Hin] Hs]; [left; congruence | tauto].
  - rewrite IH. split; [tauto|].
    intros [[Heq | Hin] Hs]; [discriminate | tauto].
Qed.

(** What an attempt that succeeds has asked and what it records. *)
Lemma attempt_ok (pk : PublicKey) (n : nat) (vars : MeteoraVars) :
  attempt sdk pk n = Ok vars ->
  exists pool swapYtoX answer,
    create sdk pk n = Ok pool
    /\ getBinArrayForSwap sdk pool swapYtoX n = Ok answer
    /\ vars = {| programId := toBase58 (program pool);
                 lbPair := toBase58 pk;
                 tokenXMint := toBase58 (tokenX pool);
                 tokenYMint := toBase58 (tokenY pool);
                 reserveXVar := toBase58 (reserveX pool);
                 reserveYVar := toBase58 (reserveY pool);
                 oracleVar := toBase58 (oracle pool);
                 memoProgram := memoProgramId sdk;
                 binArrays := dedupe [] (present answer) |}
    /\ dedupe [] (present answer) <> [].
Proof.
  unfold attempt. intros H.
  apply bind_ok in H as (pool & Hpool & H). cbv zeta in H.
  apply bind_ok in H as (answer & Hanswer & H).
  exists pool. eexists. exists answer.
  split; [exact Hpool|]. split; [exact Hanswer|].
  destruct (dedupe [] (present answer)) as [|b bs] eqn:Hbins;
    [discriminate H|].
  injection H as <-. split; [reflexivity | discriminate].
Qed.

(** The [while] loop leaves the record empty or filled by one attempt that
    succeeded on its candidate. *)
Lemma retry_loop_found (position : nat) (cand : string) (pk : PublicKey) :
  forall fuel retryCount st st',
    retry_loop sdk fuel position cand pk retryCount st = Some st' ->
    lbPairFound st = None ->
    meteora st = None ->
    (lbPairFound st' = None /\ meteora st' = None)
    \/ exists n vars,
         attempt sdk pk n = Ok vars
         /\ lbPairFound st' = Some pk
         /\ meteora st' = Some vars.
Proof.
  induction fuel as [|fuel IH]; intros retryCount st st' H Hfound Hvars;
    [discriminate H|].
  cbn [retry_loop] in H.
  destruct ((retryCount <? MAX_RETRIES) && negb (found st)).
  - destruct (attempt sdk pk (attempts st)) as [vars|inner] eqn:Hattempt.
    + injection H as <-. right. exists (attempts st), vars. auto.
    + exact (IH _ _ _ H Hfound Hvars).
  - injection H as <-. left. auto.
Qed.

Lemma candidates_loop_found :
  forall cands fuel position st st' result,
    candidates_loop sdk fuel cands position st = Some (st', result) ->
    lbPairFound st = None ->
    meteora st = None ->
    (lbPairFound st' = None /\ meteora st' = None)
    \/ exists cand n vars,
         In cand cands
         /\ result = Ok tt
         /\ attempt sdk {| toBase58 := cand |} n = Ok vars
         /\ lbPairFound st' = Some {| toBase58 := cand |}
         /\ meteora st' = Some vars.
Proof.
  induction cands as [|cand rest IH];
    intros fuel position st st' result H Hfound Hvars;
    cbn [candidates_loop] in H.
  - injection H as <- <-. left. auto.
  - destruct (new_PublicKey (stack sdk) cand) as [pk|e] eqn:Hkey.
    + apply new_PublicKey_ok in Hkey as ->.
      destruct (retry_loop sdk fuel position cand _ 0 st) as [st1|] eqn:Hloop;
        [|discriminate H].
      destruct (retry_loop_found _ _ _ _ _ _ _ Hloop Hfound Hvars)
        as [[Hf Hv] | (n & vars & Hattempt & Hf & Hv)].
      * unfold found in H. rewrite Hf in H.
        destruct (IH _ _ _ _ _ H Hf Hv)
          as [? | (c & n & vars & Hin & ? & ? & ? & ?)]; [left; assumption|].
        right. exists c, n, vars. cbn [In]. auto.
      * unfold found in H. rewrite Hf in H. injection H as <- <-.
        right. exists cand, n, vars. cbn [In]. auto.
    + injection H as <- <-. left. auto.
Qed.

Lemma all_attempts_app (a b : list Event) :
  all_attempts (a ++ b) = all_attempts a + all_attempts b.
Proof.
  unfold all_attempts. rewrite filter_app, length_app. reflexivity.
Qed.

Lemma slept_app (a b : list Event) : slept (a ++ b) = slept a + slept b.
Proof.
  induction a as [|e a IH]; [reflexivity|].
  destruct e; cbn [app slept]; rewrite IH; lia.
Qed.

Lemma all_attempts_actions (events : list Event) :
  all_attempts (actions events) = all_attempts events.
Proof.
  unfold all_attempts.
  induction events as [|e events IH]; [reflexivity|].
  destruct e; cbn [actions filter is_attempt List.length]; congruence.
Qed.

Lemma slept_actions (events : list Event) :
  slept (actions events) = slept events.
Proof.
  induction events as [|e events IH]; [reflexivity|].
  destruct e; cbn [actions slept]; congruence.
Qed.

Lemma effort_of_retries (position : nat) (cand : string) (k : nat) :
  all_attempts (retries position cand k) = k
  /\ slept (retries position cand k) = k * RETRY_DELAY_MS.
Proof.
  induction k as [|k [IHa IHs]]; [split; reflexivity|].
  unfold all_attempts in *.
  cbn [retries filter is_attempt List.length slept].
  rewrite IHa, IHs. split; lia.
Qed.

Lemma effort_of_failures (position : nat) (cand : string) (n : nat) :
  all_attempts (failures position cand n) = n
  /\ slept (failures position cand n) = (n - 1) * RETRY_DELAY_MS.
Proof.
  destruct n as [|m]; [split; reflexivity|].
  cbn [failures]. rewrite all_attempts_app, slept_app.
  destruct (effort_of_retries position cand m) as [-> ->].
  cbn. split; lia.
Qed.

Lemma effort_of_success_after (position : nat) (cand : string) (k : nat) :
  all_attempts (success_after position cand k) = S k
  /\ slept (success_after position cand k) = k * RETRY_DELAY_MS.
Proof.
  unfold success_after. rewrite all_attempts_app, slept_app.
  destruct (effort_of_retries position cand k) as [-> ->].
  cbn. split; lia.
Qed.

Lemma effort_of_exhausted_all (cands : list string) :
  forall position,
    all_attempts (exhausted_all cands position)
    = MAX_RETRIES * List.length cands
    /\ slept (exhausted_all cands position)
       = (MAX_RETRIES - 1) * RETRY_DELAY_MS * List.length cands.
Proof.
  induction cands as [|cand rest IH]; intros position;
    cbn [exhausted_all List.length].
  - split; [cbn; lia | cbn; lia].
  - rewrite all_attempts_app, slept_app. unfold exhausted.
    destruct (effort_of_failures position cand MAX_RETRIES) as [-> ->].
    destruct (IH (S position)) as [-> ->].
    split; lia.
Qed.

(** What the loop over the candidates costs when it has ended. *)
Lemma candidates_loop_effort (cands : list string) (st : State)
    (result : Result unit) :
  candidates_loop sdk (S MAX_RETRIES) cands 0 initial = Some (st, result) ->
  all_attempts (trace st) <= MAX_RETRIES * List.length cands
  /\ slept (trace st)
     <= (MAX_RETRIES - 1) * RETRY_DELAY_MS * List.length cands.
Proof.
  intros Hloop.
  destruct (candidates_loop_run sdk cands (S MAX_RETRIES) 0 initial
                                eq_refl (Nat.lt_succ_diag_r _))
    as (st' & result' & tried & rest & Hsplit & Hrun & Hshape).
  rewrite Hrun in Hloop.
  assert (Hst : st' = st) by congruence. subst st'. clear Hloop.
  cbn [initial trace actions app Nat.add] in Hshape.
  rewrite <- all_attempts_actions, <- slept_actions.
  destruct (effort_of_exhausted_all tried 0) as [Hattempts Hslept].
  assert (Hlen : List.length cands = List.length tried + List.length rest)
    by (rewrite Hsplit; apply length_app).
  destruct Hshape as [(_ & _ & c & rest' & k & Hrest & Hk & ->)
                     | (_ & -> & _)].
  - rewrite all_attempts_app, slept_app, Hattempts, Hslept.
    destruct (effort_of_success_after (List.length tried) c k) as [-> ->].
    rewrite Hrest in Hlen. cbn [List.length] in Hlen.
    unfold MAX_RETRIES, RETRY_DELAY_MS in *. split; lia.
  - rewrite Hattempts, Hslept.
    unfold MAX_RETRIES, RETRY_DELAY_MS in *. split; lia.
Qed.

End DiscoverFurther.

Section DiscoverExtras.
Import Js Solana Discover Reading.
Local Open Scope list_scope.
Local Open Scope nat_scope.

(** X13.  What the retry loop records is well formed.  When the loop over
    the candidates has ended, either no pool was found and [result.meteora]
    is unset, or [result.meteora] is set, the loop has ended without
    throwing and the pool found is one of the candidates, the one named by
    [lbPair]; the record was filled from one pool object of the SDK and one
    answer of its [getBinArrayForSwap]; and [binArrays] is not empty, has
    no key twice, and holds exactly the non-empty keys of that answer. *)
Theorem discovered_vars_are_well_formed
    (sdk : Dlmm) (cands : list string) (fuel : nat) (st : State) (result : Result unit) :
  candidates_loop sdk fuel cands 0 initial = Some (st, result) ->
  match meteora st with
  | None => found st = false
  | Some vars =>
      found st = true
      /\ result = Ok tt
      /\ In (lbPair vars) cands
      /\ lbPairFound st = Some {| toBase58 := lbPair vars |}
      /\ binArrays vars <> []
      /\ NoDup (binArrays vars)
      /\ exists pool swapYtoX answer n,
           create sdk {| toBase58 := lbPair vars |} n = Ok pool
           /\ getBinArrayForSwap sdk pool swapYtoX n = Ok answer
           /\ (forall key, In key (binArrays vars)
                           <-> In (Some key) answer /\ key <> "")
           /\ programId vars = toBase58 (program pool)
           /\ tokenXMint vars = toBase58 (tokenX pool)
           /\ tokenYMint vars = toBase58 (tokenY pool)
           /\ memoProgram vars = memoProgramId sdk
  end.
Proof.
  intros H.
  destruct (candidates_loop_found sdk _ _ _ _ _ _ H eq_refl eq_refl)
    as [[Hf Hv] | (cand & n & vars & Hin & Hres & Hattempt & Hf & Hv)].
  - rewrite Hv. unfold found. rewrite Hf. reflexivity.
  - rewrite Hv.
    apply attempt_ok in Hattempt
      as (pool & swapYtoX & answer & Hpool & Hanswer & -> & Hbins).
    cbn [lbPair binArrays programId tokenXMint tokenYMint memoProgram
         toBase58].
    unfold found. rewrite Hf.
    repeat (split; [solve [auto using dedupe_NoDup]|]).
    exists pool, swapYtoX, answer, n.
    repeat (split; [solve [auto]|]).
    split; [|auto].
    intros key. rewrite dedupe_In, present_In. cbn [In]. tauto.
Qed.


Lemma discovered_vars_are_well_formed_witness :
  exists st vars,
    candidates_loop (Worlds.dlmm 2) 11 Worlds.candidates 0 initial
    = Some (st, Ok tt)
    /\ meteora st = Some vars
    /\ In (lbPair vars) Worlds.candidates
    /\ binArrays vars <> []
    /\ NoDup (binArrays vars).
Proof.
  let r := eval vm_compute in
      (candidates_loop (Worlds.dlmm 2) 11 Worlds.candidates 0 initial) in
  match r with
  | Some (?st, ?result) =>
      assert (Hrun : candidates_loop (Worlds.dlmm 2) 11 Worlds.candidates 0
                                     initial = Some (st, result))
        by (vm_compute; reflexivity);
      pose proof (discovered_vars_are_well_formed
                    (Worlds.dlmm 2) Worlds.candidates 11 st result Hrun)
        as Hvars;
      let v := eval vm_compute in (meteora st) in
      match v with
      | Some ?vars =>
          change (meteora st) with (Some vars) in Hvars;
          destruct Hvars as (_ & _ & Hin & _ & Hbins & Hnodup & _);
          exists st, vars;
          split; [exact Hrun|];
          split; [reflexivity|];
          repeat split; assumption
      end
  end.
Defined.

(** X14.  The effort of the retry loop is bounded by the number of
    candidates.  With eleven units of fuel the loop ends; by then it has
    made at most [MAX_RETRIES] attempts and slept at most
    [(MAX_RETRIES - 1) * RETRY_DELAY_MS] milliseconds for each candidate of
    the list, and exactly that much when it ends without a pool and without
    throwing: ten attempts and nine seconds of pauses a candidate. *)
Theorem discovery_effort_is_bounded (sdk : Dlmm) (cands : list string) :
  exists st result,
    candidates_loop sdk (S MAX_RETRIES) cands 0 initial = Some (st, result)
    /\ all_attempts (trace st) <= MAX_RETRIES * List.length cands
    /\ slept (trace st)
       <= (MAX_RETRIES - 1) * RETRY_DELAY_MS * List.length cands
    /\ (found st = false ->
        result = Ok tt ->
        all_attempts (trace st) = MAX_RETRIES * List.length cands
        /\ slept (trace st)
           = (MAX_RETRIES - 1) * RETRY_DELAY_MS * List.length cands).
Proof.
  destruct (candidates_loop_run sdk cands (S MAX_RETRIES) 0 initial
                                eq_refl (Nat.lt_succ_diag_r _))
    as (st & result & tried & rest & Hsplit & Hrun & Hshape).
  exists st, result. split; [exact Hrun|].
  cbn [initial trace actions app Nat.add] in Hshape.
  rewrite <- all_attempts_actions, <- slept_actions.
  destruct (effort_of_exhausted_all tried 0) as [Hattempts Hslept].
  assert (Hlen : List.length cands = List.length tried + List.length rest)
    by (rewrite Hsplit; apply length_app).
  destruct Hshape as [(Hf & _ & c & rest' & k & Hrest & Hk & Hacts)
                     | (Hf & Hacts & Hend)].
  - rewrite Hacts, all_attempts_app, slept_app, Hattempts, Hslept.
    destruct (effort_of_success_after (List.length tried) c k) as [-> ->].
    rewrite Hrest in Hlen. cbn [List.length] in Hlen.
    unfold MAX_RETRIES, RETRY_DELAY_MS in *.
    split; [lia|]. split; [lia|]. intros Hnot. congruence.
  - rewrite Hacts, Hattempts, Hslept.
    unfold MAX_RETRIES, RETRY_DELAY_MS in *.
    split; [lia|]. split; [lia|]. intros _ Hok.
    destruct Hend as [[-> _] | (c & rest' & e & _ & _ & ->)];
      [|discriminate Hok].
    cbn [List.length] in Hlen. rewrite Hlen. lia.
Qed.

End DiscoverExtras.

(* ===================================================================== *)
(** * Part XIX.  The command line and the Raydium pool: results          *)
(* ===================================================================== *)

Section CliResults.
Import Js Cli.
Local Open Scope list_scope.

Lemma indexOf_absent (argv : list string) (flag : string) :
  ~ In flag argv -> indexOf argv flag = None.
Proof.
  induction argv as [|a rest IH]; intros Hnot; [reflexivity|].
  cbn [indexOf]. destruct (String.eqb_spec a flag) as [-> | Hne].
  - exfalso. apply Hnot. left. reflexivity.
  - rewrite IH; [reflexivity|]. intros Hin. apply Hnot. right. exact Hin.
Qed.

Lemma indexOf_first (before rest : list string) (flag : string) :
  ~ In flag before ->
  indexOf (before ++ flag :: rest) flag = Some (List.length before).
Proof.
  induction before as [|a before IH]; intros Hnot; cbn [app indexOf List.length].
  - rewrite String.eqb_refl. reflexivity.
  - destruct (String.eqb_spec a flag) as [-> | Hne].
    + exfalso. apply Hnot. left. reflexivity.
    + rewrite IH; [reflexivity|]. intros Hin. apply Hnot. right. exact Hin.
Qed.

Lemma indexOf_some (argv : list string) (flag : string) (i : nat) :
  indexOf argv flag = Some i ->
  exists before rest,
    argv = before ++ flag :: rest
    /\ List.length before = i
    /\ ~ In flag before.
Proof.
  revert i. induction argv as [|a argv IH]; intros i H; [discriminate H|].
  cbn [indexOf] in H. destruct (String.eqb_spec a flag) as [-> | Hne].
  - injection H as <-. exists [], argv. auto.
  - destruct (indexOf argv flag) as [j|]; [|discriminate H].
    injection H as <-.
    destruct (IH j eq_refl) as (before & rest & -> & <- & Hnot).
    exists (a :: before), rest. split; [reflexivity|]. split; [reflexivity|].
    intros [Heq | Hin]; [congruence | contradiction].
Qed.

(** A value read from the command line is a non-empty argument. *)
Lemma argVal_read (argv : list string) (flag value : string) :
  argVal argv flag None = Some value -> value <> "" /\ In value argv.
Proof.
  unfold argVal. intros H.
  destruct (indexOf argv flag) as [i|]; [|discriminate H].
  destruct (nth_error argv (i + 1)) as [v|] eqn:Hv; [|discriminate H].
  destruct (String.eqb_spec v "") as [-> | Hne]; [discriminate H|].
  injection H as <-. split; [exact Hne|]. exact (nth_error_In _ _ Hv).
Qed.

End CliResults.

Section CliExtras.
Import Js Cli.
Local Open Scope list_scope.

(** X15.  [argVal] reads the argument that follows the first occurrence of
    the flag, and no later one: when nothing follows that occurrence, or
    the empty string does, the answer is the default, whatever comes after;
    the answer is the default too when the flag does not occur.  The
    argument read is not inspected further, so that another flag in that
    place is taken for the value. *)
Theorem argVal_reads_after_first_occurrence
    (before rest : list string) (flag : string) (def : option string) :
  ~ In flag before ->
  argVal (before ++ flag :: rest) flag def
  = match rest with
    | value :: _ => if value =? "" then def else Some value
    | [] => def
    end
  /\ argVal before flag def = def.
Proof.
  intros Hnot. split; unfold argVal.
  - rewrite (indexOf_first _ _ _ Hnot).
    rewrite nth_error_app2 by lia.
    replace (List.length before + 1 - List.length before) with 1 by lia.
    destruct rest; reflexivity.
  - rewrite (indexOf_absent _ _ Hnot). reflexivity.
Qed.

Lemma argVal_reads_after_first_occurrence_witness :
  argVal ["bun"; "discover.ts"; "--rpc"; ""; "--rpc"; "http://localhost:8899"]
         "--rpc" None = None
  /\ argVal ["bun"; "discover.ts"; "--rpc"; "--out"; "vars.json"]
            "--rpc" None = Some "--out"
  /\ argVal ["bun"; "discover.ts"; "--out"; "vars.json"; "--rpc"]
            "--rpc" (Some "http://localhost:8899")
     = Some "http://localhost:8899".
Proof.
  assert (Hnot : ~ In "--rpc" ["bun"; "discover.ts"])
    by (intros [Heq | [Heq | []]]; discriminate).
  assert (Hnot' : ~ In "--rpc" ["bun"; "discover.ts"; "--out"; "vars.json"])
    by (intros [Heq | [Heq | [Heq | [Heq | []]]]]; discriminate).
  split; [|split].
  - exact (proj1 (argVal_reads_after_first_occurrence
                    ["bun"; "discover.ts"]
                    [""; "--rpc"; "http://localhost:8899"] "--rpc" None
                    Hnot)).
  - exact (proj1 (argVal_reads_after_first_occurrence
                    ["bun"; "discover.ts"] ["--out"; "vars.json"]
                    "--rpc" None Hnot)).
  - exact (proj1 (argVal_reads_after_first_occurrence
                    ["bun"; "discover.ts"; "--out"; "vars.json"] []
                    "--rpc" (Some "http://localhost:8899") Hnot')).
Defined.

(** X16.  [resolveRpcUrl] never answers the empty string.  An endpoint it
    returns is an argument of the command line or the value of one of the
    three environment variables.  It throws, and then the Error
    [Missing RPC endpoint. ...], exactly when the command line gives no
    endpoint and the first of [VOYAGER_RPC_URL], [SOLANA_RPC_URL] and
    [RPC_URL] that is set, if any, is empty: a variable that is set but
    empty hides the ones after it, even when they name an endpoint. *)
Theorem resolveRpcUrl_answers_an_endpoint_or_throws
    (stack : string -> string) (argv : list string) (env : Env) :
  let hidden :=
    VOYAGER_RPC_URL env = Some ""
    \/ (VOYAGER_RPC_URL env = None
        /\ (SOLANA_RPC_URL env = Some ""
            \/ (SOLANA_RPC_URL env = None
                /\ (RPC_URL env = Some "" \/ RPC_URL env = None)))) in
  match resolveRpcUrl stack argv env with
  | Ok url =>
      url <> ""
      /\ (In url argv
          \/ VOYAGER_RPC_URL env = Some url
          \/ SOLANA_RPC_URL env = Some url
          \/ RPC_URL env = Some url)
      /\ ~ (argVal argv "--rpc" None = None /\ hidden)
  | Throw e =>
      e = new_Error stack missing_rpc
      /\ argVal argv "--rpc" None = None
      /\ hidden
  end.
Proof.
  intros hidden. unfold resolveRpcUrl.
  destruct (argVal argv "--rpc" None) as [cli|] eqn:Hcli.
  - destruct (argVal_read _ _ _ Hcli) as [Hne Hin].
    cbn [given]. destruct (String.eqb_spec cli "") as [-> | _];
      [contradiction|].
    split; [exact Hne|]. split; [left; exact Hin|].
    intros [Hnone _]. discriminate Hnone.
  - cbn [given]. unfold hidden.
    destruct env as [[v|] [s|] [r|]];
      cbn [VOYAGER_RPC_URL SOLANA_RPC_URL RPC_URL or_nullish given];
      repeat match goal with
             | |- context [?x =? ""] =>
                 destruct (String.eqb_spec x "") as [-> | ?]
             end;
      repeat split; auto 10;
      intros [_ [Hv | [Hv [Hs | [Hs [Hr | Hr]]]]]]; congruence.
Qed.

End CliExtras.

Section RaydiumDiscoveryResults.
Import Js Solana RaydiumDiscovery.
Local Open Scope js_scope.
Local Open Scope list_scope.

Variable web3 : Web3.

Lemma key_eta (k : PublicKey) : {| toBase58 := toBase58 k |} = k.
Proof. destruct k. reflexivity. Qed.

Lemma read_pool_ok (CPMM : PublicKey) (a : ProgramAccount) (pool : Pool) :
  read_pool web3 CPMM a = Ok pool ->
  let data := TxMeteora.info_data (account a) in
  poolState pool = pubkey a
  /\ programId pool = CPMM
  /\ readPubkey web3 data 8 = Ok (ammConfig pool)
  /\ readPubkey web3 data 72 = Ok (token0Vault pool)
  /\ readPubkey web3 data 104 = Ok (token1Vault pool)
  /\ readPubkey web3 data 168 = Ok (token0Mint pool)
  /\ readPubkey web3 data 200 = Ok (token1Mint pool)
  /\ readPubkey web3 data 232 = Ok (token0Program pool)
  /\ readPubkey web3 data 264 = Ok (token1Program pool)
  /\ readPubkey web3 data 296 = Ok (observationKey pool).
Proof.
  intros H data. unfold read_pool in H. cbv zeta in H. fold data in H.
  apply bind_ok in H as (k1 & H1 & H).
  apply bind_ok in H as (k2 & H2 & H).
  apply bind_ok in H as (k3 & H3 & H).
  apply bind_ok in H as (k4 & H4 & H).
  apply bind_ok in H as (k5 & H5 & H).
  apply bind_ok in H as (k6 & H6 & H).
  apply bind_ok in H as (k7 & H7 & H).
  apply bind_ok in H as (k8 & H8 & H).
  injection H as <-.
  cbn [poolState programId ammConfig token0Vault token1Vault token0Mint
       token1Mint token0Program token1Program observationKey].
  repeat split; assumption.
Qed.

(** A pool is the first account of the first query that has an answer. *)
Lemma findCpmPoolByMints_some (CPMM mintA mintB : PublicKey) (pool : Pool) :
  findCpmPoolByMints web3 CPMM mintA mintB = Ok (Some pool) ->
  exists t0 t1 a others,
    ((t0 = mintA /\ t1 = mintB)
     \/ (t0 = mintB /\ t1 = mintA
         /\ getProgramAccounts web3 CPMM (filters mintA mintB) = Ok []))
    /\ getProgramAccounts web3 CPMM (filters t0 t1) = Ok (a :: others)
    /\ read_pool web3 CPMM a = Ok pool.
Proof.
  unfold findCpmPoolByMints. cbn [first_pool]. intros H.
  apply bind_ok in H as (accs & Haccs & H).
  destruct accs as [|a others].
  - apply bind_ok in H as (accs' & Haccs' & H).
    destruct accs' as [|a others]; [discriminate H|].
    apply bind_ok in H as (p & Hp & H). injection H as <-.
    exists mintB, mintA, a, others. auto 6.
  - apply bind_ok in H as (p & Hp & H). injection H as <-.
    exists mintA, mintB, a, others. auto 6.
Qed.

Lemma getTokenAccountOwner_ok (tokenAccount authority : PublicKey) :
  getTokenAccountOwner web3 tokenAccount = Ok authority ->
  exists info,
    getAccountInfo web3 tokenAccount = Ok (Some info)
    /\ 64 <= List.length (TxMeteora.info_data info)
    /\ publicKeyFromBytes web3 (subarray (TxMeteora.info_data info) 32 64)
       = Ok authority.
Proof.
  unfold getTokenAccountOwner. intros H.
  apply bind_ok in H as ([info|] & Hinfo & H); [|discriminate H].
  destruct (Nat.ltb_spec (List.length (TxMeteora.info_data info)) 64);
    [discriminate H|].
  exists info. auto.
Qed.

(** What [discoverRaydium] has read once it returns. *)
Lemma discoverRaydium_ok (inputMint outputMint : PublicKey) (vars : Vars) :
  discoverRaydium web3 inputMint outputMint = Ok vars ->
  let CPMM := {| toBase58 := CPMM_PROGRAM_ID |} in
  exists pool authority,
    findCpmPoolByMints web3 CPMM inputMint outputMint = Ok (Some pool)
    /\ getTokenAccountOwner web3
         (if equals (token0Mint pool) inputMint
          then token0Vault pool else token1Vault pool)
       = Ok authority
    /\ vars = {| programId_text := toBase58 (programId pool);
                 ammConfig_text := toBase58 (ammConfig pool);
                 poolState_text := toBase58 (poolState pool);
                 token0Mint_text := toBase58 (token0Mint pool);
                 token1Mint_text := toBase58 (token1Mint pool);
                 token0Vault_text := toBase58 (token0Vault pool);
                 token1Vault_text := toBase58 (token1Vault pool);
                 token0Program_text := toBase58 (token0Program pool);
                 token1Program_text := toBase58 (token1Program pool);
                 observationKey_text := toBase58 (observationKey pool);
                 authority_text := toBase58 authority |}.
Proof.
  intros H CPMM. unfold discoverRaydium in H.
  apply bind_ok in H as (k & Hk & H).
  apply new_PublicKey_ok in Hk as ->. fold CPMM in H.
  apply bind_ok in H as ([pool|] & Hpool & H); [|discriminate H].
  cbv zeta in H.
  apply bind_ok in H as (authority & Hauthority & H).
  injection H as <-.
  exists pool, authority. auto.
Qed.

End RaydiumDiscoveryResults.

Section RaydiumDiscoveryExtras.
Import Js Solana RaydiumDiscovery.
Local Open Scope js_scope.
Local Open Scope list_scope.

(** X18.  What [discoverRaydium] returns was read from the node.  The pool
    is the first account that the node answers to the query for the mints
    in the order given or, when that query has no answer, to the query for
    the mints in the other order; its address is [poolState]; [programId]
    is the CPMM program; the other keys are the 32 bytes of the account's
    data at the offsets 8, 72, 104, 168, 200, 232, 264 and 296; and
    [authority] is made of the bytes 32 to 64 of the data, at least 64
    bytes long, of the vault on the side of [token0Mint] when that mint is
    the input mint, and of the other vault when it is not. *)
Theorem discoverRaydium_reads_the_first_match
    (web3 : Web3) (inputMint outputMint : PublicKey) (vars : Vars) :
  discoverRaydium web3 inputMint outputMint = Ok vars ->
  let CPMM := {| toBase58 := CPMM_PROGRAM_ID |} in
  let key (text : Vars -> string) := {| toBase58 := text vars |} in
  exists t0 t1 a others vault,
    ((t0 = inputMint /\ t1 = outputMint)
     \/ (t0 = outputMint /\ t1 = inputMint
         /\ getProgramAccounts web3 CPMM
              [Memcmp 168 (toBase58 inputMint);
               Memcmp 200 (toBase58 outputMint)] = Ok []))
    /\ getProgramAccounts web3 CPMM
         [Memcmp 168 (toBase58 t0); Memcmp 200 (toBase58 t1)]
       = Ok (a :: others)
    /\ poolState_text vars = toBase58 (pubkey a)
    /\ programId_text vars = CPMM_PROGRAM_ID
    /\ (let data := TxMeteora.info_data (account a) in
        publicKeyFromBytes web3 (subarray data 8 40)
        = Ok (key ammConfig_text)
        /\ publicKeyFromBytes web3 (subarray data 72 104)
           = Ok (key token0Vault_text)
        /\ publicKeyFromBytes web3 (subarray data 104 136)
           = Ok (key token1Vault_text)
        /\ publicKeyFromBytes web3 (subarray data 168 200)
           = Ok (key token0Mint_text)
        /\ publicKeyFromBytes web3 (subarray data 200 232)
           = Ok (key token1Mint_text)
        /\ publicKeyFromBytes web3 (subarray data 232 264)
           = Ok (key token0Program_text)
        /\ publicKeyFromBytes web3 (subarray data 264 296)
           = Ok (key token1Program_text)
        /\ publicKeyFromBytes web3 (subarray data 296 328)
           = Ok (key observationKey_text))
    /\ getAccountInfo web3
         (if token0Mint_text vars =? toBase58 inputMint
          then key token0Vault_text else key token1Vault_text)
       = Ok (Some vault)
    /\ 64 <= List.length (TxMeteora.info_data vault)
    /\ publicKeyFromBytes web3 (subarray (TxMeteora.info_data vault) 32 64)
       = Ok (key authority_text).
Proof.
  intros H CPMM key.
  apply discoverRaydium_ok in H as (pool & authority & Hpool & Howner & ->).
  apply findCpmPoolByMints_some in Hpool
    as (t0 & t1 & a & others & Hquery & Haccs & Hread).
  apply read_pool_ok in Hread
    as (Hstate & Hprogram & H1 & H2 & H3 & H4 & H5 & H6 & H7 & H8).
  apply getTokenAccountOwner_ok in Howner as (vault & Hvault & Hlong & Hkey).
  exists t0, t1, a, others, vault.
  unfold key.
  cbn [programId_text ammConfig_text poolState_text token0Mint_text
       token1Mint_text token0Vault_text token1Vault_text token0Program_text
       token1Program_text observationKey_text authority_text].
  rewrite !key_eta.
  split; [exact Hquery|]. split; [exact Haccs|].
  split; [congruence|]. split; [rewrite Hprogram; reflexivity|].
  split; [repeat split; assumption|].
  split; [|split; assumption].
  unfold equals in Hvault.
  destruct (toBase58 (token0Mint pool) =? toBase58 inputMint); exact Hvault.
Qed.

Lemma discoverRaydium_reads_the_first_match_witness :
  exists vars a others,
    discoverRaydium DiscoveryWorlds.web3 NATIVE_MINT
                    {| toBase58 := USDC_MINT |} = Ok vars
    /\ getProgramAccounts DiscoveryWorlds.web3
         {| toBase58 := CPMM_PROGRAM_ID |}
         [Memcmp 168 (toBase58 NATIVE_MINT); Memcmp 200 USDC_MINT]
       = Ok (a :: others)
    /\ poolState_text vars = toBase58 (pubkey a)
    /\ programId_text vars = CPMM_PROGRAM_ID.
Proof.
  let r := eval vm_compute in
      (discoverRaydium DiscoveryWorlds.web3 NATIVE_MINT
                       {| toBase58 := USDC_MINT |}) in
  match r with
  | Ok ?vars =>
      assert (Hvars : discoverRaydium DiscoveryWorlds.web3 NATIVE_MINT
                                      {| toBase58 := USDC_MINT |} = Ok vars)
        by (vm_compute; reflexivity);
      destruct (discoverRaydium_reads_the_first_match _ _ _ _ Hvars)
        as (t0 & t1 & a & others & vault
            & Hquery & Haccs & Hstate & Hprogram & _);
      exists vars, a, others;
      destruct Hquery as [[-> ->] | (_ & _ & Hempty)];
        [|vm_compute in Hempty; discriminate Hempty];
      repeat split; assumption
  end.
Defined.

(** X19.  On a node that honours its filters the pool discovered trades the
    two mints asked for, and the authority is read from the vault of the
    input mint.  The filters compare the bytes at the offsets 168 and 200
    with the two mints, and these are the offsets that [token0Mint] and
    [token1Mint] are read at; so, when every account of an answer holds at
    these offsets the mints of its query, [token0Mint] and [token1Mint] are
    the input and the output mint, in this order or the other, and
    [authority] is made of the bytes 32 to 64 of the account of
    [token0Vault] in the first case and of [token1Vault] in the second. *)
Theorem discovered_pool_trades_the_mints_asked_for
    (web3 : Web3) (inputMint outputMint : PublicKey) (vars : Vars) :
  (forall t0 t1 accs a,
     getProgramAccounts web3 {| toBase58 := CPMM_PROGRAM_ID |}
       [Memcmp 168 (toBase58 t0); Memcmp 200 (toBase58 t1)] = Ok accs ->
     In a accs ->
     let data := TxMeteora.info_data (account a) in
     publicKeyFromBytes web3 (subarray data 168 200) = Ok t0
     /\ publicKeyFromBytes web3 (subarray data 200 232) = Ok t1) ->
  discoverRaydium web3 inputMint outputMint = Ok vars ->
  exists vault info,
    ((token0Mint_text vars = toBase58 inputMint
      /\ token1Mint_text vars = toBase58 outputMint
      /\ vault = token0Vault_text vars)
     \/ (token0Mint_text vars = toBase58 outputMint
         /\ token1Mint_text vars = toBase58 inputMint
         /\ vault = token1Vault_text vars))
    /\ getAccountInfo web3 {| toBase58 := vault |} = Ok (Some info)
    /\ publicKeyFromBytes web3 (subarray (TxMeteora.info_data info) 32 64)
       = Ok {| toBase58 := authority_text vars |}.
Proof.
  intros Hhonest H.
  apply discoverRaydium_ok in H as (pool & authority & Hpool & Howner & ->).
  apply findCpmPoolByMints_some in Hpool
    as (t0 & t1 & a & others & Hquery & Haccs & Hread).
  apply read_pool_ok in Hread as (_ & _ & _ & _ & _ & H0 & H1 & _).
  destruct (Hhonest t0 t1 _ a Haccs (or_introl eq_refl)) as [H0' H1'].
  unfold readPubkey in H0, H1. cbn [Nat.add] in H0, H1.
  assert (Ht0 : token0Mint pool = t0) by congruence.
  assert (Ht1 : token1Mint pool = t1) by congruence.
  apply getTokenAccountOwner_ok in Howner as (info & Hinfo & _ & Hkey).
  cbn [token0Mint_text token1Mint_text token0Vault_text token1Vault_text
       authority_text].
  rewrite key_eta.
  destruct (equals (token0Mint pool) inputMint) eqn:Hside.
  - apply equals_eq in Hside.
    exists (toBase58 (token0Vault pool)), info. rewrite key_eta.
    split; [|split; assumption].
    left. destruct Hquery as [[-> ->] | (-> & -> & _)]; subst; auto.
    split; [congruence|]. split; [congruence | reflexivity].
  - exists (toBase58 (token1Vault pool)), info. rewrite key_eta.
    split; [|split; assumption].
    destruct Hquery as [[-> ->] | (-> & -> & _)]; subst.
    + unfold equals in Hside. rewrite String.eqb_refl in Hside.
      discriminate Hside.
    + right. auto.
Qed.

Lemma discovered_pool_trades_the_mints_asked_for_witness :
  exists vars,
    discoverRaydium DiscoveryWorlds.web3 NATIVE_MINT
                    {| toBase58 := USDC_MINT |} = Ok vars
    /\ token0Mint_text vars = toBase58 NATIVE_MINT
    /\ token1Mint_text vars = USDC_MINT
    /\ authority_text vars = DexEnv.authority Worlds.raydium.
Proof.
  assert (Hhonest :
    forall t0 t1 accs a,
      getProgramAccounts DiscoveryWorlds.web3
        {| toBase58 := CPMM_PROGRAM_ID |}
        [Memcmp 168 (toBase58 t0); Memcmp 200 (toBase58 t1)] = Ok accs ->
      In a accs ->
      let data := TxMeteora.info_data (account a) in
      publicKeyFromBytes DiscoveryWorlds.web3 (subarray data 168 200) = Ok t0
      /\ publicKeyFromBytes DiscoveryWorlds.web3 (subarray data 200 232)
         = Ok t1).
  { intros t0 t1 accs a Haccs Hin data.
    assert (Hanswer :
      accs
      = filter (fun a =>
                  equals {| toBase58 := CPMM_PROGRAM_ID |}
                         (TxMeteora.owner (account a))
                  && forallb (DiscoveryWorlds.holds a)
                       [Memcmp 168 (toBase58 t0); Memcmp 200 (toBase58 t1)])
               [DiscoveryWorlds.pool_account; DiscoveryWorlds.pair_account]).
    { apply (f_equal (fun r : Result (list ProgramAccount) =>
                        match r with
                        | Ok x => x
                        | Throw _ => []
                        end)) in Haccs.
      symmetry. exact Haccs. }
    subst accs. apply filter_In in Hin as [Hin Hpass].
    apply andb_prop in Hpass as [Hprogram Hpass].
    destruct Hin as [<- | [<- | []]];
      [|vm_compute in Hprogram; discriminate Hprogram].
    change (forallb (DiscoveryWorlds.holds DiscoveryWorlds.pool_account)
                    [Memcmp 168 (toBase58 t0); Memcmp 200 (toBase58 t1)])
      with (DiscoveryWorlds.holds DiscoveryWorlds.pool_account
              (Memcmp 168 (toBase58 t0))
            && (DiscoveryWorlds.holds DiscoveryWorlds.pool_account
                  (Memcmp 200 (toBase58 t1)) && true)) in Hpass.
    apply andb_prop in Hpass as [H0 Hpass].
    apply andb_prop in Hpass as [H1 _].
    unfold DiscoveryWorlds.holds in H0, H1.
    apply String.eqb_eq in H0, H1.
    destruct t0 as [t0], t1 as [t1]. cbn [toBase58] in H0, H1.
    subst t0 t1. split; reflexivity. }
  let r := eval vm_compute in
      (discoverRaydium DiscoveryWorlds.web3 NATIVE_MINT
                       {| toBase58 := USDC_MINT |}) in
  match r with
  | Ok ?vars =>
      assert (Hvars : discoverRaydium DiscoveryWorlds.web3 NATIVE_MINT
                                      {| toBase58 := USDC_MINT |} = Ok vars)
        by (vm_compute; reflexivity);
      destruct (discovered_pool_trades_the_mints_asked_for
                  _ _ _ _ Hhonest Hvars)
        as (vault & info & [(H0 & H1 & _) | (H0 & _)] & _);
        [|vm_compute in H0; discriminate H0];
      exists vars;
      repeat split; solve [assumption | reflexivity]
  end.
Defined.

End RaydiumDiscoveryExtras.

(* ===================================================================== *)
(** * Part XX.  The discovery script: results                            *)
(* ===================================================================== *)

(** From [Some a = Some o] to [a] in the place of [o], the terms left as
    they are. *)
Ltac ended H :=
  match type of H with
  | Some ?a = Some ?o =>
      let E := fresh "E" in
      assert (E : a = o)
        by exact (f_equal (fun x => match x with
                                    | Some y => y
                                    | None => a
                                    end) H);
      clear H; subst o
  end.

Section DiscoverMainResults.
Import Js Solana Cli Discover DiscoverMain Reading.
Local Open Scope list_scope.
Local Open Scope nat_scope.

Lemma written_app (a b : list Event) :
  written (a ++ b) = written a ++ written b.
Proof. apply flat_map_app. Qed.

Lemma written_retry (l : list Discover.Event) : written (map Retry l) = [].
Proof. induction l as [|e l IH]; [reflexivity | exact IH]. Qed.

Lemma written_console (level : Level) (args : list Arg)
    (rest : list Event) :
  written (Console level args :: rest) = written rest.
Proof. reflexivity. Qed.

Lemma written_say (level : Level) (text : string) (rest : list Event) :
  written (say level text :: rest) = written rest.
Proof. reflexivity. Qed.

Lemma loop_events_console (level : Level) (args : list Arg)
    (rest : list Event) :
  loop_events (Console level args :: rest) = loop_events rest.
Proof. reflexivity. Qed.

Lemma loop_events_say (level : Level) (text : string) (rest : list Event) :
  loop_events (say level text :: rest) = loop_events rest.
Proof. reflexivity. Qed.

Lemma loop_events_app (a b : list Event) :
  loop_events (a ++ b) = loop_events a ++ loop_events b.
Proof. apply flat_map_app. Qed.

Lemma loop_events_retry (l : list Discover.Event) :
  loop_events (map Retry l) = l.
Proof.
  induction l as [|e l IH]; [reflexivity|].
  cbn [map loop_events flat_map app] in *. f_equal. exact IH.
Qed.

(** The search on the chain writes no file and makes one attempt at most. *)
Lemma on_chain_events (host : Host) (connection : RaydiumDiscovery.Web3)
    (meteoraSdk : MeteoraSdk) (inputMint outputMint : PublicKey)
    (position n : nat) :
  let searched :=
    fst (on_chain host connection meteoraSdk inputMint outputMint position n) in
  written searched = []
  /\ all_attempts (loop_events searched) <= 1
  /\ slept (loop_events searched) = 0.
Proof.
  unfold on_chain.
  repeat match goal with
         | |- context [match ?x with _ => _ end] => destruct x
         end;
    cbn; auto.
Qed.

(** The end of [main] in its two ways. *)
Lemma write_outcomes (host : Host) (before : list Event)
    (raydium : option RaydiumDiscovery.Vars)
    (meteora : option Discover.MeteoraVars) :
  let o := write host before raydium meteora in
  (exists e,
     rejected o = Some e
     /\ (events o = before
         \/ events o = before ++ [Mkdir (dirname host (outAbs host))]))
  \/ (rejected o = None
      /\ events o
         = before
           ++ [Mkdir (dirname host (outAbs host));
               WriteFile (outAbs host) (document raydium meteora);
               Console LogLevel [Message [Text "Wrote"];
                                 Message [Text (outAbs host)]]]).
Proof.
  unfold write.
  destruct (mkdirSync host (dirname host (outAbs host))) as [[]|e];
    [|left; exists e; auto].
  destruct (writeFileSync host (outAbs host) (document raydium meteora))
    as [[]|e]; [right; auto | left; exists e; auto].
Qed.

(** The loop over the candidates ends, and more fuel changes nothing. *)
Lemma candidates_loop_ends (sdk : Dlmm) (cands : list string) :
  exists r,
    forall fuel,
      MAX_RETRIES < fuel ->
      candidates_loop sdk fuel cands 0 initial = Some r.
Proof.
  destruct (candidates_loop_run sdk cands (S MAX_RETRIES) 0 initial
                                eq_refl (Nat.lt_succ_diag_r _))
    as (st & result & _ & _ & _ & Hrun & _).
  exists (st, result). intros fuel Hfuel.
  exact (candidates_loop_more_fuel sdk _ _ _ _ _ _ Hrun Hfuel).
Qed.

Lemma main_more_fuel (host : Host) (fuel : nat) :
  MAX_RETRIES < fuel -> main fuel host = main (S MAX_RETRIES) host.
Proof.
  intros Hfuel. unfold main.
  destruct (resolveRpcUrl (stack host) (argv host) (env host)) as [rpc|e];
    [|reflexivity].
  destruct (importLibraries host) as [[]|e]; [|reflexivity].
  destruct (connect host rpc) as [connection|e]; [|reflexivity].
  destruct (new_PublicKey (stack host) USDC_MINT) as [outputMint|e];
    [|reflexivity].
  destruct (loadMeteoraSdk host) as [meteoraSdk|]; [|reflexivity].
  destruct (candidates_loop_ends
              (DLMM meteoraSdk connection)
              (meteoraLbPairCandidates
                 (argVal (argv host) "--meteora-lbpair" None)))
    as (r & Hrun).
  rewrite (Hrun fuel Hfuel), (Hrun _ (Nat.lt_succ_diag_r _)). reflexivity.
Qed.

Lemma main_ends (host : Host) :
  exists o, forall fuel, MAX_RETRIES < fuel -> main fuel host = Some o.
Proof.
  destruct (main (S MAX_RETRIES) host) as [o|] eqn:Hmain.
  - exists o. intros fuel Hfuel. rewrite (main_more_fuel _ _ Hfuel).
    exact Hmain.
  - exfalso. unfold main in Hmain.
    destruct (resolveRpcUrl (stack host) (argv host) (env host)) as [rpc|e];
      [|discriminate Hmain].
    destruct (importLibraries host) as [[]|e]; [|discriminate Hmain].
    destruct (connect host rpc) as [connection|e]; [|discriminate Hmain].
    destruct (new_PublicKey (stack host) USDC_MINT) as [outputMint|e];
      [|discriminate Hmain].
    destruct (loadMeteoraSdk host) as [meteoraSdk|]; [|discriminate Hmain].
    destruct (candidates_loop_ends
                (DLMM meteoraSdk connection)
                (meteoraLbPairCandidates
                   (argVal (argv host) "--meteora-lbpair" None)))
      as ([st result] & Hrun).
    rewrite (Hrun _ (Nat.lt_succ_diag_r _)) in Hmain.
    destruct result; [|discriminate Hmain].
    destruct (found st); [discriminate Hmain|].
    destruct (on_chain _ _ _ _ _ _ _) as [searched [[pk vars]|]];
      discriminate Hmain.
Qed.

(** [main] fails before it writes, or ends by writing. *)
Lemma main_shape (host : Host) (fuel : nat) (o : Outcome) :
  main fuel host = Some o ->
  (exists e, rejected o = Some e /\ written (events o) = [])
  \/ exists before raydium meteora,
       o = write host before raydium meteora /\ written before = [].
Proof.
  unfold main. intros H.
  destruct (resolveRpcUrl (stack host) (argv host) (env host)) as [rpc|e];
    [|ended H; left; eexists; split; reflexivity].
  destruct (importLibraries host) as [[]|e]; [|ended H; left; eexists; split; reflexivity].
  destruct (connect host rpc) as [connection|e];
    [|ended H; left; eexists; split; reflexivity].
  destruct (new_PublicKey (stack host) USDC_MINT) as [outputMint|e];
    [|ended H; left; eexists; split; reflexivity].
  remember (RaydiumDiscovery.discoverRaydium connection NATIVE_MINT
                                             outputMint)
    as raydium eqn:Hraydium in *.
  assert (Htold :
    written match raydium with
            | Ok _ => [say LogLevel "Discovered Raydium vars"]
            | Throw e =>
                [Console WarnLevel
                   [Message [Text "Raydium discovery failed:"]; Value e]]
            end = [])
    by (destruct raydium; reflexivity).
  destruct (loadMeteoraSdk host) as [meteoraSdk|];
    [|ended H; left; eexists; split; [reflexivity | exact Htold]].
  destruct (candidates_loop _ _ _ _ _) as [[st result]|]; [|discriminate H].
  destruct result as [[]|e].
  - destruct (found st).
    + ended H. right. do 3 eexists. split; [reflexivity|].
      rewrite written_app, written_retry, Htold. reflexivity.
    + pose proof (on_chain_events host connection meteoraSdk NATIVE_MINT
                    outputMint
                    (List.length
                       (meteoraLbPairCandidates
                          (argVal (argv host) "--meteora-lbpair" None)))
                    (attempts st)) as (Hsearched & _).
      destruct (on_chain _ _ _ _ _ _ _) as [searched [[pk vars]|]];
        cbn [fst] in Hsearched;
        ended H; right; do 3 eexists;
        (split; [reflexivity|]);
        rewrite ?written_app, written_retry, Htold,
                ?written_console, ?written_say, Hsearched;
        reflexivity.
  - ended H. left. exists e. split; [reflexivity|].
    cbn [events]. rewrite written_app, written_retry, Htold. reflexivity.
Qed.

Lemma loop_events_write (host : Host) (before : list Event)
    (raydium : option RaydiumDiscovery.Vars)
    (meteora : option Discover.MeteoraVars) :
  loop_events (events (write host before raydium meteora))
  = loop_events before.
Proof.
  unfold write.
  destruct (mkdirSync host _) as [[]|e]; [|reflexivity].
  destruct (writeFileSync host _ _) as [[]|e]; cbn [events];
    rewrite loop_events_app; cbn; apply app_nil_r.
Qed.

Lemma candidates_at_most_two (cliMeteora : option string) :
  List.length (meteoraLbPairCandidates cliMeteora) <= 2.
Proof.
  unfold meteoraLbPairCandidates.
  destruct cliMeteora as [c|]; [destruct (c =? "")%string|]; cbn; lia.
Qed.

Lemma usdc_mint_is_a_key (stack : string -> string) :
  new_PublicKey stack USDC_MINT = Ok {| toBase58 := USDC_MINT |}.
Proof. apply new_PublicKey_valid. vm_compute. reflexivity. Qed.

Lemma new_PublicKey_invalid (stack : string -> string) (value : string) :
  valid_key value = false -> exists e, new_PublicKey stack value = Throw e.
Proof.
  unfold valid_key, new_PublicKey.
  destruct (base58_decoded_length value) as [len|]; [|eauto].
  intros ->. eauto.
Qed.

Lemma first_match_some (host : Host) (inputMint outputMint : PublicKey)
    (decode : list Z -> Result TxMeteora.LbPair)
    (accs : list RaydiumDiscovery.ProgramAccount)
    (acc : RaydiumDiscovery.ProgramAccount) :
  first_match host inputMint outputMint decode accs = Some acc ->
  In acc accs
  /\ trades_the_mints host inputMint outputMint decode acc = Ok true.
Proof.
  induction accs as [|a accs IH]; intros H; [discriminate H|].
  cbn [first_match] in H.
  destruct (trades_the_mints host inputMint outputMint decode a)
    as [[|]|e] eqn:Ha.
  - ended H. split; [left; reflexivity | exact Ha].
  - destruct (IH H). split; [right|]; assumption.
  - destruct (IH H). split; [right|]; assumption.
Qed.

Lemma trades_the_mints_true (host : Host) (inputMint outputMint : PublicKey)
    (decode : list Z -> Result TxMeteora.LbPair)
    (acc : RaydiumDiscovery.ProgramAccount) :
  trades_the_mints host inputMint outputMint decode acc = Ok true ->
  exists lb,
    decode (TxMeteora.info_data (RaydiumDiscovery.account acc)) = Ok lb
    /\ ((TxMeteora.tokenXMint lb = toBase58 inputMint
         /\ TxMeteora.tokenYMint lb = toBase58 outputMint)
        \/ (TxMeteora.tokenXMint lb = toBase58 outputMint
            /\ TxMeteora.tokenYMint lb = toBase58 inputMint)).
Proof.
  unfold trades_the_mints. intros H.
  apply bind_ok in H as (lb & Hlb & H).
  apply bind_ok in H as (x & Hx & H). apply new_PublicKey_ok in Hx as ->.
  apply bind_ok in H as (y & Hy & H). apply new_PublicKey_ok in Hy as ->.
  injection H as H. exists lb. split; [exact Hlb|].
  unfold equals in H. cbn [toBase58] in H.
  apply orb_prop in H as [H | H]; apply andb_prop in H as [H1 H2];
    apply String.eqb_eq in H1, H2; auto.
Qed.

(** What the search on the chain has found when it finds a pool. *)
Lemma on_chain_some (host : Host) (connection : RaydiumDiscovery.Web3)
    (meteoraSdk : MeteoraSdk) (inputMint outputMint : PublicKey)
    (position n : nat) (searched : list Event) (pk : PublicKey)
    (vars : MeteoraVars) :
  on_chain host connection meteoraSdk inputMint outputMint position n
  = (searched, Some (pk, vars)) ->
  exists accs acc decode,
    RaydiumDiscovery.getProgramAccounts connection
      {| toBase58 := programId meteoraSdk |}
      [RaydiumDiscovery.DataSize 1464] = Ok accs
    /\ In acc (firstn 5 accs)
    /\ lbPairDecoder host = Ok decode
    /\ trades_the_mints host inputMint outputMint decode acc = Ok true
    /\ pk = RaydiumDiscovery.pubkey acc
    /\ discovered_vars connection meteoraSdk pk n = Ok vars.
Proof.
  unfold on_chain. intros H.
  destruct (new_PublicKey (stack host) (programId meteoraSdk))
    as [program|e] eqn:Hprogram; [|discriminate H].
  apply new_PublicKey_ok in Hprogram as ->.
  destruct (lbPairDecoder host) as [decode|e]; [|discriminate H].
  destruct (RaydiumDiscovery.getProgramAccounts connection _ _)
    as [accs|e]; [|discriminate H].
  destruct (first_match host inputMint outputMint decode (firstn 5 accs))
    as [acc|] eqn:Hmatch; [|discriminate H].
  apply first_match_some in Hmatch as [Hin Htrades].
  destruct (new_PublicKey (stack host)
              (toBase58 (RaydiumDiscovery.pubkey acc)))
    as [k|e] eqn:Hk; [|discriminate H].
  apply new_PublicKey_ok in Hk. rewrite key_eta in Hk. subst k.
  destruct (discovered_vars connection meteoraSdk
              (RaydiumDiscovery.pubkey acc) n) as [v|e] eqn:Hvars;
    [|discriminate H].
  injection H as _ <- <-.
  exists accs, acc, decode. auto 10.
Qed.

End DiscoverMainResults.

Section DiscoverMainExtras.
Import Js Solana Cli Discover DiscoverMain Reading.
Local Open Scope list_scope.
Local Open Scope nat_scope.

(** X20.  The discovery script writes its file once, at the very end, or
    not at all.  With eleven units of fuel or more a run ends, always the
    same way.  Either [main] is rejected: then no file has been written,
    the rejection is the last thing told to the console and the process
    exits with code 1.  Or the run ends by making the directory of the
    output path, writing the one file there and telling so, and
    [process.exit] is not called. *)
Theorem discovery_writes_once_or_exits_with_1 (host : Host) :
  exists events code,
    (forall fuel, MAX_RETRIES < fuel -> run fuel host = Some (events, code))
    /\ ((code = Some 1%Z
         /\ written events = []
         /\ exists before e,
              events = before ++ [Console ErrorLevel [Value e]])
        \/ (code = None
            /\ exists before raydium meteora,
                 written before = []
                 /\ events
                    = before
                      ++ [Mkdir (dirname host (outAbs host));
                          WriteFile (outAbs host) (document raydium meteora);
                          Console LogLevel [Message [Text "Wrote"];
                                            Message [Text (outAbs host)]]])).
Proof.
  destruct (main_ends host) as (o & Hmain).
  assert (Hrun : forall v,
            (match rejected o with
             | Some e => (events o ++ [Console ErrorLevel [Value e]], Some 1%Z)
             | None => (events o, None)
             end = v) ->
            forall fuel, MAX_RETRIES < fuel -> run fuel host = Some v).
  { intros v <- fuel Hfuel. unfold run. rewrite (Hmain fuel Hfuel).
    reflexivity. }
  assert (Hfailed : forall e,
            rejected o = Some e -> written (events o) = [] ->
            exists events code,
              (forall fuel, MAX_RETRIES < fuel ->
                            run fuel host = Some (events, code))
              /\ code = Some 1%Z
              /\ written events = []
              /\ exists before e,
                   events = before ++ [Console ErrorLevel [Value e]]).
  { intros e He Hw. do 2 eexists. split.
    - apply Hrun. rewrite He. reflexivity.
    - split; [reflexivity|]. split; [|eauto].
      rewrite written_app, Hw. reflexivity. }
  destruct (main_shape host _ o (Hmain _ (Nat.lt_succ_diag_r _)))
    as [(e & He & Hw) | (before & raydium & meteora & -> & Hbefore)].
  - destruct (Hfailed e He Hw) as (events & code & H & Hrest).
    exists events, code. auto.
  - destruct (write_outcomes host before raydium meteora)
      as [(e & He & Hevents) | (Hnone & Hevents)].
    + destruct (Hfailed e He) as (events & code & H & Hrest).
      * destruct Hevents as [-> | ->]; [exact Hbefore|].
        rewrite written_app, Hbefore. reflexivity.
      * exists events, code. auto.
    + do 2 eexists. split.
      * apply Hrun. rewrite Hnone. reflexivity.
      * right. split; [reflexivity|].
        exists before, raydium, meteora. auto.
Qed.

(** X21.  What was discovered of Raydium is lost when the Meteora search
    cannot start.  With an endpoint, the libraries loaded and a Raydium
    pool discovered, a run in which the Meteora package is not found, or
    in which the value of [--meteora-lbpair] is not a public key, tells
    that the Raydium vars were discovered, then tells the error and exits
    with code 1: no directory is made and no file is written.  With the
    package missing the error is the one of the script,
    [Meteora SDK unavailable; ...]. *)
Theorem raydium_vars_are_lost_when_meteora_cannot_start
    (host : Host) (rpc : string) (connection : RaydiumDiscovery.Web3)
    (vars : RaydiumDiscovery.Vars) (fuel : nat) :
  resolveRpcUrl (stack host) (argv host) (env host) = Ok rpc ->
  importLibraries host = Ok tt ->
  connect host rpc = Ok connection ->
  RaydiumDiscovery.discoverRaydium connection NATIVE_MINT
    {| toBase58 := USDC_MINT |} = Ok vars ->
  loadMeteoraSdk host = None
  \/ (exists c,
        argVal (argv host) "--meteora-lbpair" None = Some c
        /\ valid_key c = false) ->
  exists e,
    run fuel host
    = Some ([say LogLevel "Discovered Raydium vars";
             Console ErrorLevel [Value e]], Some 1%Z)
    /\ (loadMeteoraSdk host = None ->
        e = new_Error (stack host) sdk_unavailable).
Proof.
  intros Hrpc Himport Hconnect Hraydium Hcause.
  unfold run, main.
  rewrite Hrpc, Himport, Hconnect, usdc_mint_is_a_key, Hraydium.
  destruct (loadMeteoraSdk host) as [meteoraSdk|] eqn:Hsdk.
  - destruct Hcause as [Hnone | (c & Hc & Hinvalid)]; [discriminate Hnone|].
    rewrite Hc.
    destruct (argVal_read _ _ _ Hc) as [Hne _].
    unfold meteoraLbPairCandidates.
    destruct (String.eqb_spec c "") as [-> | _]; [contradiction|].
    cbn [app candidates_loop].
    destruct (new_PublicKey_invalid
                (Discover.stack (DLMM meteoraSdk connection)) c Hinvalid)
      as [e He].
    rewrite He. exists e. split; [reflexivity|]. intros Hnone.
    discriminate Hnone.
  - eexists. split; [reflexivity|]. reflexivity.
Qed.

Lemma raydium_vars_are_lost_when_meteora_cannot_start_witness :
  (exists e,
     run 11 (DiscoveryWorlds.host DiscoveryWorlds.argv_discover None)
     = Some ([say LogLevel "Discovered Raydium vars";
              Console ErrorLevel [Value e]], Some 1%Z)
     /\ e = new_Error Worlds.engine_stack sdk_unavailable)
  /\ (exists e,
        run 11 (DiscoveryWorlds.host
                  (DiscoveryWorlds.argv_discover
                   ++ ["--meteora-lbpair"; "not-a-key"])
                  (Some (DiscoveryWorlds.sdk 0)))
        = Some ([say LogLevel "Discovered Raydium vars";
                 Console ErrorLevel [Value e]], Some 1%Z)).
Proof.
  let r := eval vm_compute in
      (RaydiumDiscovery.discoverRaydium DiscoveryWorlds.web3 NATIVE_MINT
         {| toBase58 := USDC_MINT |}) in
  match r with
  | Ok ?vars =>
      assert (Hvars :
        RaydiumDiscovery.discoverRaydium DiscoveryWorlds.web3 NATIVE_MINT
          {| toBase58 := USDC_MINT |} = Ok vars)
        by (vm_compute; reflexivity);
      split;
      [ destruct (raydium_vars_are_lost_when_meteora_cannot_start
                    (DiscoveryWorlds.host DiscoveryWorlds.argv_discover None)
                    "http://localhost:8899" DiscoveryWorlds.web3 vars 11
                    eq_refl eq_refl eq_refl Hvars (or_introl eq_refl))
          as (e & Hrun & He);
        exists e; split; [exact Hrun | exact (He eq_refl)]
      | assert (Hcause :
          exists c,
            argVal (DiscoveryWorlds.argv_discover
                    ++ ["--meteora-lbpair"; "not-a-key"])
                   "--meteora-lbpair" None = Some c
            /\ valid_key c = false)
          by (exists "not-a-key"; split; vm_compute; reflexivity);
        destruct (raydium_vars_are_lost_when_meteora_cannot_start
                    (DiscoveryWorlds.host
                       (DiscoveryWorlds.argv_discover
                        ++ ["--meteora-lbpair"; "not-a-key"])
                       (Some (DiscoveryWorlds.sdk 0)))
                    "http://localhost:8899" DiscoveryWorlds.web3 vars 11
                    eq_refl eq_refl eq_refl Hvars (or_intror Hcause))
          as (e & Hrun & _);
        exists e; exact Hrun ]
  end.
Defined.

(** X22.  What the file says was read from the node.  When [main] is not
    rejected, the one file written holds [raydium] exactly when
    [discoverRaydium] returned, with what it returned, and before
    [meteora].  If it holds [meteora], then either the retry loop found the
    pool, which is one of the candidates and comes with bin arrays, or the
    loop found none and the pool is one of the first five accounts that the
    node answered for the Meteora program and the data size 1464, one
    whose data decodes to a pair of the native mint and USDC in either
    order, recorded from one attempt, whatever its bin arrays. *)
Theorem written_vars_were_read_from_the_node
    (host : Host) (fuel : nat) (o : Outcome) :
  main fuel host = Some o ->
  rejected o = None ->
  exists rpc connection meteoraSdk meteora,
    resolveRpcUrl (stack host) (argv host) (env host) = Ok rpc
    /\ connect host rpc = Ok connection
    /\ loadMeteoraSdk host = Some meteoraSdk
    /\ written (events o)
       = [(outAbs host,
           document
             match RaydiumDiscovery.discoverRaydium connection NATIVE_MINT
                     {| toBase58 := USDC_MINT |} with
             | Ok vars => Some vars
             | Throw _ => None
             end
             meteora)]
    /\ match meteora with
       | None => True
       | Some vars =>
           (In (lbPair vars)
               (meteoraLbPairCandidates
                  (argVal (argv host) "--meteora-lbpair" None))
            /\ binArrays vars <> [])
           \/ exists accs acc decode lb n,
                RaydiumDiscovery.getProgramAccounts connection
                  {| toBase58 := programId meteoraSdk |}
                  [RaydiumDiscovery.DataSize 1464] = Ok accs
                /\ In acc (firstn 5 accs)
                /\ lbPair vars = toBase58 (RaydiumDiscovery.pubkey acc)
                /\ lbPairDecoder host = Ok decode
                /\ decode (TxMeteora.info_data
                             (RaydiumDiscovery.account acc)) = Ok lb
                /\ ((TxMeteora.tokenXMint lb = toBase58 NATIVE_MINT
                     /\ TxMeteora.tokenYMint lb = USDC_MINT)
                    \/ (TxMeteora.tokenXMint lb = USDC_MINT
                        /\ TxMeteora.tokenYMint lb = toBase58 NATIVE_MINT))
                /\ discovered_vars connection meteoraSdk
                     (RaydiumDiscovery.pubkey acc) n = Ok vars
       end.
Proof.
  unfold main. intros H Hdone.
  destruct (resolveRpcUrl (stack host) (argv host) (env host)) as [rpc|e]
    eqn:Hrpc; [|ended H; discriminate Hdone].
  destruct (importLibraries host) as [[]|e];
    [|ended H; discriminate Hdone].
  destruct (connect host rpc) as [connection|e] eqn:Hconnect;
    [|ended H; discriminate Hdone].
  rewrite usdc_mint_is_a_key in H.
  remember (RaydiumDiscovery.discoverRaydium connection NATIVE_MINT
              {| toBase58 := USDC_MINT |})
    as raydium eqn:Hraydium in *.
  assert (Htold :
    written match raydium with
            | Ok _ => [say LogLevel "Discovered Raydium vars"]
            | Throw e =>
                [Console WarnLevel
                   [Message [Text "Raydium discovery failed:"]; Value e]]
            end = [])
    by (destruct raydium; reflexivity).
  destruct (loadMeteoraSdk host) as [meteoraSdk|] eqn:Hsdk;
    [|ended H; discriminate Hdone].
  remember (meteoraLbPairCandidates
              (argVal (argv host) "--meteora-lbpair" None))
    as cands eqn:Hcandidates in *.
  destruct (candidates_loop _ _ _ _ _) as [[st result]|] eqn:Hloop;
    [|discriminate H].
  pose proof (candidates_loop_found _ _ _ _ _ _ _ Hloop eq_refl eq_refl)
    as Hfound.
  assert (Hwritten :
    forall before meteora,
      written before = [] ->
      rejected (write host before
                  match raydium with
                  | Ok vars => Some vars
                  | Throw _ => None
                  end meteora) = None ->
      written (events (write host before
                         match raydium with
                         | Ok vars => Some vars
                         | Throw _ => None
                         end meteora))
      = [(outAbs host,
          document match raydium with
                   | Ok vars => Some vars
                   | Throw _ => None
                   end meteora)]).
  { intros before meteora Hbefore Hnone.
    destruct (write_outcomes host before
                match raydium with
                | Ok vars => Some vars
                | Throw _ => None
                end meteora) as [(e & He & _) | (_ & ->)];
      [congruence|].
    rewrite written_app, Hbefore. reflexivity. }
  exists rpc, connection, meteoraSdk. rewrite <- Hraydium.
  destruct result as [[]|e]; [|ended H; discriminate Hdone].
  destruct (found st) eqn:Hst.
  - ended H. exists (meteora st).
    split; [reflexivity|]. split; [exact Hconnect|]. split; [reflexivity|].
    split.
    { apply Hwritten; [|exact Hdone].
      rewrite written_app, written_retry, Htold. reflexivity. }
    destruct Hfound as [[Hf Hv] | (cand & n & vars & Hin & _ & Hattempt & _ & ->)].
    + rewrite Hv. exact I.
    + left. apply attempt_ok in Hattempt
        as (pool & swapYtoX & answer & _ & _ & -> & Hbins).
      cbn [lbPair binArrays toBase58]. auto.
  - destruct (on_chain _ _ _ _ _ _ _) as [searched [[pk vars]|]] eqn:Hchain.
    + ended H. exists (Some vars).
      split; [reflexivity|]. split; [exact Hconnect|]. split; [reflexivity|].
      pose proof (on_chain_events host connection meteoraSdk NATIVE_MINT
                    {| toBase58 := USDC_MINT |} (List.length cands)
                    (attempts st)) as (Hsearched & _).
      rewrite Hchain in Hsearched. cbn [fst] in Hsearched.
      split.
      { apply Hwritten; [|exact Hdone].
        rewrite !written_app, written_retry, Htold,
                ?written_console, ?written_say, Hsearched.
        reflexivity. }
      right.
      apply on_chain_some in Hchain
        as (accs & acc & decode & Haccs & Hin & Hdecode & Htrades & -> & Hvars).
      apply trades_the_mints_true in Htrades as (lb & Hlb & Hpair).
      exists accs, acc, decode, lb, (attempts st).
      repeat (split; [assumption|]).
      split.
      { unfold discovered_vars in Hvars.
        apply bind_ok in Hvars as (pool & _ & Hvars). cbv zeta in Hvars.
        apply bind_ok in Hvars as (answer & _ & Hvars).
        injection Hvars as <-. reflexivity. }
      auto.
    + ended H. exists (meteora st).
      split; [reflexivity|]. split; [exact Hconnect|]. split; [reflexivity|].
      pose proof (on_chain_events host connection meteoraSdk NATIVE_MINT
                    {| toBase58 := USDC_MINT |} (List.length cands)
                    (attempts st)) as (Hsearched & _).
      rewrite Hchain in Hsearched. cbn [fst] in Hsearched.
      split.
      { apply Hwritten; [|exact Hdone].
        rewrite !written_app, written_retry, Htold,
                ?written_console, ?written_say, Hsearched.
        reflexivity. }
      destruct Hfound as [[Hf ->] | (cand & n & vars & _ & _ & _ & Hf & _)];
        [exact I|].
      unfold found in Hst. rewrite Hf in Hst. discriminate Hst.
Qed.

Lemma written_vars_were_read_from_the_node_witness :
  exists o document,
    main 11 (DiscoveryWorlds.host DiscoveryWorlds.argv_discover
                                  (Some (DiscoveryWorlds.sdk 10))) = Some o
    /\ rejected o = None
    /\ written (events o)
       = [("/repo/voyager/environments/swap_idl_vars.json", document)]
    /\ all_attempts (loop_events (events o)) = 11.
Proof.
  let r := eval vm_compute in
      (main 11 (DiscoveryWorlds.host DiscoveryWorlds.argv_discover
                                     (Some (DiscoveryWorlds.sdk 10)))) in
  match r with
  | Some ?o =>
      assert (Hmain :
        main 11 (DiscoveryWorlds.host DiscoveryWorlds.argv_discover
                                      (Some (DiscoveryWorlds.sdk 10)))
        = Some o)
        by (vm_compute; reflexivity);
      destruct (written_vars_were_read_from_the_node _ _ o Hmain eq_refl)
        as (rpc & connection & meteoraSdk & meteora & _ & _ & _
            & Hwritten & _);
      exists o; eexists;
      split; [exact Hmain|];
      split; [reflexivity|];
      split; [exact Hwritten | vm_compute; reflexivity]
  end.
Defined.

(** X23.  A run of the discovery script makes 21 attempts at most and
    pauses for 18 seconds at most.  The list of candidates has one or two
    entries, the retry loop makes [MAX_RETRIES] attempts a candidate at
    most, with [MAX_RETRIES - 1] pauses of [RETRY_DELAY_MS] milliseconds,
    and the search on the chain adds one attempt and no pause. *)
Theorem a_run_makes_at_most_21_attempts (host : Host) :
  exists o,
    (forall fuel, MAX_RETRIES < fuel -> main fuel host = Some o)
    /\ all_attempts (loop_events (events o)) <= 2 * MAX_RETRIES + 1
    /\ slept (loop_events (events o))
       <= 2 * ((MAX_RETRIES - 1) * RETRY_DELAY_MS).
Proof.
  destruct (main_ends host) as (o & Hmain).
  exists o. split; [exact Hmain|].
  specialize (Hmain _ (Nat.lt_succ_diag_r _)). unfold main in Hmain.
  destruct (resolveRpcUrl (stack host) (argv host) (env host)) as [rpc|e];
    [|ended Hmain; cbn; lia].
  destruct (importLibraries host) as [[]|e];
    [|ended Hmain; cbn; lia].
  destruct (connect host rpc) as [connection|e];
    [|ended Hmain; cbn; lia].
  destruct (new_PublicKey (stack host) USDC_MINT) as [outputMint|e];
    [|ended Hmain; cbn; lia].
  remember (RaydiumDiscovery.discoverRaydium connection NATIVE_MINT
              outputMint)
    as raydium eqn:Hraydium in *.
  assert (Htold :
    loop_events match raydium with
                | Ok _ => [say LogLevel "Discovered Raydium vars"]
                | Throw e =>
                    [Console WarnLevel
                       [Message [Text "Raydium discovery failed:"]; Value e]]
                end = [])
    by (destruct raydium; reflexivity).
  destruct (loadMeteoraSdk host) as [meteoraSdk|];
    [|ended Hmain; cbn [events]; rewrite Htold; cbn; lia].
  pose proof (candidates_at_most_two
                (argVal (argv host) "--meteora-lbpair" None)) as Hcands.
  remember (meteoraLbPairCandidates
              (argVal (argv host) "--meteora-lbpair" None))
    as cands eqn:Hcandidates in *.
  destruct (candidates_loop (DLMM meteoraSdk connection) (S MAX_RETRIES)
                            cands 0 initial) as [[st result]|] eqn:Hloop;
    [|discriminate Hmain].
  destruct (candidates_loop_effort _ _ _ _ Hloop) as (Hattempts & Hslept).
  assert (Hlooped :
    all_attempts (trace st) <= 2 * MAX_RETRIES
    /\ slept (trace st) <= 2 * ((MAX_RETRIES - 1) * RETRY_DELAY_MS))
    by (unfold MAX_RETRIES, RETRY_DELAY_MS in *; split; nia).
  destruct Hlooped as [Ha Hs].
  destruct result as [[]|e].
  - destruct (found st).
    + ended Hmain.
      rewrite loop_events_write, loop_events_app, loop_events_retry, Htold.
      cbn [app]. split; lia.
    + pose proof (on_chain_events host connection meteoraSdk NATIVE_MINT
                    outputMint (List.length cands) (attempts st))
        as (_ & Hone & Hnone).
      destruct (on_chain _ _ _ _ _ _ _) as [searched [[pk vars]|]];
        cbn [fst] in Hone, Hnone;
        ended Hmain;
        rewrite loop_events_write, !loop_events_app, loop_events_retry, Htold,
                ?loop_events_console, ?loop_events_say;
        cbn [app loop_events flat_map];
        rewrite ?app_nil_r, all_attempts_app, slept_app, Hnone;
        split; lia.
  - ended Hmain. cbn [events].
    rewrite loop_events_app, loop_events_retry, Htold.
    cbn [app]. split; lia.
Qed.

End DiscoverMainExtras.
